(** * k8s-playground backend: a shallow embedding of [backend/main.go]

    The backend is one Go file: a bounded-retry database connector run at
    startup, five todo handlers over a GORM table and four file handlers over
    one upload directory.  Each Go function is embedded under its own name.

    - [connectToDatabase] is its [for] loop, run against the outcomes of
      [gorm.Open]; what it does to the outside (opens, log lines, sleeps, the
      exit) is kept as a trace.
    - A handler is a function of the [http.ResponseWriter] and the request in
      a state monad over the [World]: the rows of the table [todos], the file
      system, the clock, the random source, and the failures the environment
      has in store for the storage and file-system calls to come.
    - Library calls (gorm, net/http, encoding/json, os, path/filepath, fmt,
      google/uuid) are embedded by the behaviour the handlers rely on: a nil
      slice is told from an empty one, [http.Error] ends the message with a
      line feed, [gorm.Model] makes deletes soft and the tag [gorm:"unique"]
      makes the insert of a second row with the same uuid fail.
    - The routes [main] registers are a table for the router of gorilla/mux,
      which redirects a path that is not clean and binds a variable to one
      element of the path; [main] itself is its start-up, from the migration
      to the upload directory.
    - Of the client [App.tsx], the two fetches that read the listings.

    Definitions come first, properties after them. *)

From stdpp Require Import base strings list gmap sorting pretty.
From Stdlib Require Import ZArith Lia Ascii.

Set Warnings "-register-all,-notation-for-abbreviation".

Local Open Scope Z_scope.

(** ** Machine integers *)

(** Go's [int], [int64] and [time.Duration] are 64-bit two's complement. *)
Definition wrap64 (z : Z) : Z := (z + 2 ^ 63) mod 2 ^ 64 - 2 ^ 63.

Definition int64_mul (a b : Z) : Z := wrap64 (a * b).
Definition int64_sub (a b : Z) : Z := wrap64 (a - b).

(** [time.Second], in nanoseconds (the unit of [time.Duration]). *)
Definition Second : Z := 1000000000.

(** [%d] of [fmt]. *)
Definition fmt_d (z : Z) : string := pretty z.

(** ** The startup connector *)

Module Connector.

(** What [connectToDatabase] does to the outside world, in order. *)
Inductive Event :=
| EOpen (dsn : string)        (* gorm.Open(postgres.Open(dsn), ...) *)
| ELog (line : string)        (* log.Println / log.Printf / the print of log.Fatal *)
| ESleep (d : Z)              (* time.Sleep(d), d in nanoseconds *)
| EExit (code : Z).           (* os.Exit(code), the second half of log.Fatal *)

(** The handle [*gorm.DB] is known by the data source name it was opened
    with and by the call that opened it. *)
Record Handle := { h_dsn : string; h_call : Z }.

Inductive Outcome :=
| Returned (database : Handle)
| Fatal
| OutOfFuel.

Definition is_open (e : Event) : bool :=
  match e with EOpen _ => true | _ => false end.

Definition sleep_of (e : Event) : option Z :=
  match e with ESleep d => Some d | _ => None end.

(** Number of connection attempts in a trace. *)
Definition attempts (tr : list Event) : nat := length (filter is_open tr).

(** The waits of a trace, in order. *)
Definition sleeps (tr : list Event) : list Z := omap sleep_of tr.

Section Connect.
(** [os.Getenv]. *)
Variable os_Getenv : string → string.
(** [gorm.Open]: the result of the [n]-th call, [inl err] or [inr handle]. *)
Variable gorm_Open : Z → string → string + Handle.

Definition maxRetries : Z := 5.

Definition dsn : string :=
  "host=" +:+ os_Getenv "DB_HOST" +:+
  " user=" +:+ os_Getenv "DB_USER" +:+
  " password=" +:+ os_Getenv "DB_PASSWORD" +:+
  " dbname=" +:+ os_Getenv "DB_NAME" +:+
  " port=" +:+ os_Getenv "DB_PORT" +:+ " sslmode=disable".

Definition failed_line (attempt : Z) (err : string) : string :=
  "Database connection attempt " +:+ fmt_d attempt +:+ "/" +:+
  fmt_d maxRetries +:+ " failed: " +:+ err.

(** [time.Duration(attempt*2) * time.Second]. *)
Definition backoff (attempt : Z) : Z :=
  int64_mul (int64_mul attempt 2) Second.

(** The [for attempt := ...; attempt <= maxRetries; attempt++] loop; the
    statements after the loop are the [else] branch of its test. *)
Fixpoint connect_from (fuel : nat) (attempt : Z) (tr : list Event)
  : Outcome * list Event :=
  if decide (attempt ≤ maxRetries) then
    match fuel with
    | O => (OutOfFuel, tr)
    | S fuel' =>
        match gorm_Open attempt dsn with
        | inr database =>
            (Returned database,
             tr ++ [EOpen dsn; ELog "Successfully connected to database"])
        | inl err =>
            connect_from fuel' (wrap64 (attempt + 1))
              (tr ++ [EOpen dsn; ELog (failed_line attempt err);
                      ESleep (backoff attempt)])
        end
    end
  else
    (Fatal,
     tr ++ [ELog "Failed to connect to database after multiple attempts";
            EExit 1]).

Definition connectToDatabase : Outcome * list Event :=
  connect_from (Z.to_nat maxRetries) 1 [].

(** The error of the [j]-th call, when it fails. *)
Definition error_at (j : Z) : string :=
  match gorm_Open j dsn with inl err => err | inr _ => EmptyString end.

Definition fails (j : Z) : Prop := ∃ err, gorm_Open j dsn = inl err.

(** What one failed attempt leaves in the trace, and [n] of them in a row
    starting at attempt [from]. *)
Definition failed_attempt (j : Z) : list Event :=
  [EOpen dsn; ELog (failed_line j (error_at j)); ESleep (backoff j)].

Fixpoint failed_attempts (from : Z) (n : nat) : list Event :=
  match n with
  | O => []
  | S n' => failed_attempt from ++ failed_attempts (from + 1) n'
  end.

Definition success_events : list Event :=
  [EOpen dsn; ELog "Successfully connected to database"].

Definition fatal_events : list Event :=
  [ELog "Failed to connect to database after multiple attempts"; EExit 1].

End Connect.

(** A store that refuses every connection. *)
Definition never_reachable (n : Z) (d : string) : string + Handle :=
  inl "connection refused".

(** A store that accepts connections from the [k]-th call on. *)
Definition reachable_from (k : Z) (n : Z) (d : string) : string + Handle :=
  if decide (k ≤ n) then inr {| h_dsn := d; h_call := n |}
  else inl "connection refused".

Definition no_env (name : string) : string := EmptyString.

End Connector.

(** ** Values shared by the handlers *)

(** A [time.Time], counted in nanoseconds from Go's zero instant (January 1 of
    year 1, UTC): the zero value of the type is [0]. *)
Definition Time := Z.

Definition unixToInternal : Z := 62135596800.

(** [t.UnixNano()], an [int64]. *)
Definition Time_UnixNano (t : Time) : Z := int64_sub t (int64_mul unixToInternal Second).

(** Bytes are integers in [0, 256). *)
Definition byte := Z.

(** JSON values as [encoding/json] writes them.  [JTime t] is the JSON string
    that [time.Time.MarshalJSON] gives for [t]. *)
Inductive json :=
| JNull
| JBool (b : bool)
| JNum (n : Z)
| JStr (s : string)
| JTime (t : Time)
| JArr (items : list json)
| JObj (fields : list (string * json)).

(** *** github.com/google/uuid *)

Module uuid.

Definition hextable : list ascii :=
  ["0"; "1"; "2"; "3"; "4"; "5"; "6"; "7"; "8"; "9"; "a"; "b"; "c"; "d"; "e"; "f"]%char.

Definition hexdigit (n : Z) : ascii := nth (Z.to_nat n) hextable "0"%char.

(** [hex.Encode]: two digits per byte, high nibble first. *)
Fixpoint hex_Encode (src : list byte) : string :=
  match src with
  | [] => EmptyString
  | v :: rest =>
      String (hexdigit (Z.shiftr v 4))
        (String (hexdigit (Z.land v 15)) (hex_Encode rest))
  end.

(** A [UUID] is a [[16]byte]. *)
Definition UUID := list byte.

(** [NewRandomFromReader] on 16 bytes already read: version 4, variant 10. *)
Definition NewRandom (raw : list byte) : UUID :=
  alter (λ b, Z.lor (Z.land b 63) 128) 8%nat
    (alter (λ b, Z.lor (Z.land b 15) 64) 6%nat raw).

(** [encodeHex] and [UUID.String]: groups of 4, 2, 2, 2 and 6 bytes. *)
Definition String (u : UUID) : string :=
  hex_Encode (take 4 u) +:+ "-" +:+
  hex_Encode (take 2 (drop 4 u)) +:+ "-" +:+
  hex_Encode (take 2 (drop 6 u)) +:+ "-" +:+
  hex_Encode (take 2 (drop 8 u)) +:+ "-" +:+
  hex_Encode (drop 10 u).

End uuid.

(** *** The entity *)

(** [gorm.Model]; [DeletedAt] is a [sql.NullTime], [None] when not valid. *)
Record gorm_Model := {
  ID : Z;
  CreatedAt : Time;
  UpdatedAt : Time;
  DeletedAt : option Time
}.

Record Todo := {
  Model : gorm_Model;
  UUID : string;
  Title : string;
  Description : string;
  Completed : bool;
  FilePath : string
}.

(** [var todo Todo]. *)
Definition zero_Model : gorm_Model :=
  {| ID := 0; CreatedAt := 0; UpdatedAt := 0; DeletedAt := None |}.

Definition zero_Todo : Todo :=
  {| Model := zero_Model; UUID := EmptyString; Title := EmptyString;
     Description := EmptyString; Completed := false; FilePath := EmptyString |}.

Definition with_ID (v : Z) (m : gorm_Model) : gorm_Model :=
  {| ID := v; CreatedAt := CreatedAt m; UpdatedAt := UpdatedAt m; DeletedAt := DeletedAt m |}.
Definition with_CreatedAt (v : Time) (m : gorm_Model) : gorm_Model :=
  {| ID := ID m; CreatedAt := v; UpdatedAt := UpdatedAt m; DeletedAt := DeletedAt m |}.
Definition with_UpdatedAt (v : Time) (m : gorm_Model) : gorm_Model :=
  {| ID := ID m; CreatedAt := CreatedAt m; UpdatedAt := v; DeletedAt := DeletedAt m |}.
Definition with_DeletedAt (v : option Time) (m : gorm_Model) : gorm_Model :=
  {| ID := ID m; CreatedAt := CreatedAt m; UpdatedAt := UpdatedAt m; DeletedAt := v |}.

Definition with_Model (v : gorm_Model) (t : Todo) : Todo :=
  {| Model := v; UUID := UUID t; Title := Title t; Description := Description t;
     Completed := Completed t; FilePath := FilePath t |}.
Definition with_UUID (v : string) (t : Todo) : Todo :=
  {| Model := Model t; UUID := v; Title := Title t; Description := Description t;
     Completed := Completed t; FilePath := FilePath t |}.
Definition with_Title (v : string) (t : Todo) : Todo :=
  {| Model := Model t; UUID := UUID t; Title := v; Description := Description t;
     Completed := Completed t; FilePath := FilePath t |}.
Definition with_Description (v : string) (t : Todo) : Todo :=
  {| Model := Model t; UUID := UUID t; Title := Title t; Description := v;
     Completed := Completed t; FilePath := FilePath t |}.
Definition with_Completed (v : bool) (t : Todo) : Todo :=
  {| Model := Model t; UUID := UUID t; Title := Title t; Description := Description t;
     Completed := v; FilePath := FilePath t |}.
Definition with_FilePath (v : string) (t : Todo) : Todo :=
  {| Model := Model t; UUID := UUID t; Title := Title t; Description := Description t;
     Completed := Completed t; FilePath := v |}.

(** [json.Marshal] of a [Todo]: the promoted fields of the embedded
    [gorm.Model] under their Go names, then the tagged fields; [file_path] has
    [omitempty]. *)
Definition json_of_Todo (t : Todo) : json :=
  JObj ([("ID", JNum (ID (Model t)));
         ("CreatedAt", JTime (CreatedAt (Model t)));
         ("UpdatedAt", JTime (UpdatedAt (Model t)));
         ("DeletedAt", from_option JTime JNull (DeletedAt (Model t)));
         ("uuid", JStr (UUID t));
         ("title", JStr (Title t));
         ("description", JStr (Description t));
         ("completed", JBool (Completed t))]
        ++ (if decide (FilePath t = EmptyString) then []
            else [("file_path", JStr (FilePath t))])).

(** A Go slice is [nil] ([None]) or has a backing array ([Some]). *)
Definition slice (A : Type) := option (list A).

Definition append {A} (s : slice A) (x : A) : slice A :=
  Some (from_option id [] s ++ [x]).

(** [json.Marshal] of a slice: [null] for a nil slice, an array otherwise. *)
Definition json_of_slice {A} (f : A → json) (s : slice A) : json :=
  match s with
  | None => JNull
  | Some l => JArr (f <$> l)
  end.

(** *** Requests *)

(** The members of a JSON object that [Decode] stores into a [Todo]: one
    option per field, [None] when the key is absent (or [null]). Other keys
    are ignored by the decoder. *)
Record TodoFields := {
  f_ID : option Z;
  f_CreatedAt : option Time;
  f_UpdatedAt : option Time;
  f_DeletedAt : option Time;
  f_uuid : option string;
  f_title : option string;
  f_description : option string;
  f_completed : option bool;
  f_file_path : option string
}.

(** A request body, as [json.NewDecoder(r.Body).Decode] sees it. *)
Inductive Body :=
| BadJSON (err : string)
| JSONObject (f : TodoFields).

Definition no_fields : TodoFields :=
  {| f_ID := None; f_CreatedAt := None; f_UpdatedAt := None; f_DeletedAt := None;
     f_uuid := None; f_title := None; f_description := None; f_completed := None;
     f_file_path := None |}.

Definition store {A R} (o : option A) (set : A → R → R) (r : R) : R :=
  match o with Some v => set v r | None => r end.

(** [Decode(&todo)]: the error, and the variable afterwards. *)
Definition json_Decode (b : Body) (todo : Todo) : option string * Todo :=
  match b with
  | BadJSON err => (Some err, todo)
  | JSONObject f =>
      let m := Model todo in
      let m := store (f_ID f) with_ID m in
      let m := store (f_CreatedAt f) with_CreatedAt m in
      let m := store (f_UpdatedAt f) with_UpdatedAt m in
      let m := store (f_DeletedAt f) (λ t, with_DeletedAt (Some t)) m in
      let todo := with_Model m todo in
      let todo := store (f_uuid f) with_UUID todo in
      let todo := store (f_title f) with_Title todo in
      let todo := store (f_description f) with_Description todo in
      let todo := store (f_completed f) with_Completed todo in
      let todo := store (f_file_path f) with_FilePath todo in
      (None, todo)
  end.

(** [multipart.FileHeader] with the part's content. *)
Record FormFile := { Filename : string; content : list byte }.

Record Request := {
  (** [mux.Vars(r)] *)
  vars : gmap string string;
  body : Body;
  (** the parsed multipart form, or the error of parsing it *)
  form : string + gmap string FormFile
}.

(** [vars[key]]: the empty string for a missing key. *)
Definition var (r : Request) (key : string) : string :=
  default EmptyString (vars r !! key).

(** [r.FormFile(key)]. *)
Definition Request_FormFile (r : Request) (key : string) : string + FormFile :=
  match form r with
  | inl err => inl err
  | inr files =>
      match files !! key with
      | Some f => inr f
      | None => inl "http: no such file"
      end
  end.

(** *** strings and path/filepath (Unix) *)

(** [strings.Split(s, "/")]: the pieces between slashes, at least one. *)
Fixpoint components (s : string) : list string :=
  match s with
  | EmptyString => [EmptyString]
  | String c s' =>
      if decide (c = "/"%char) then EmptyString :: components s'
      else match components s' with
           | e :: es => String c e :: es
           | [] => [String c EmptyString]
           end
  end.

(** [strings.Join(elems, sep)]. *)
Fixpoint strings_Join (elems : list string) (sep : string) : string :=
  match elems with
  | [] => EmptyString
  | [e] => e
  | e :: rest => e +:+ sep +:+ strings_Join rest sep
  end.

Module filepath.

(** [Base]: the last element of the path; trailing slashes are removed
    first; ["."] for the empty path, ["/"] for a path of slashes only. *)
Definition Base (path : string) : string :=
  if decide (path = EmptyString) then "."
  else match last (filter (λ e, e ≠ EmptyString) (components path)) with
       | Some e => e
       | None => "/"
       end.

Definition rooted (path : string) : bool :=
  match path with String "/" _ => true | _ => false end.

(** One element of the path seen by [Clean]: [out] holds the elements kept
    so far, of which the first [dotdot] are [..] that cannot be dropped. *)
Definition Clean_step (root : bool) (st : list string * nat) (e : string)
  : list string * nat :=
  let '(out, dotdot) := st in
  if decide (e = EmptyString) then st
  else if decide (e = ".") then st
  else if decide (e = "..") then
    if decide (dotdot < length out)%nat then (removelast out, dotdot)
    else if root then st
    else (out ++ [".."], S dotdot)
  else (out ++ [e], dotdot).

(** [Clean]: the shortest equivalent path, by lexical processing only. *)
Definition Clean (path : string) : string :=
  if decide (path = EmptyString) then "."
  else
    let root := rooted path in
    let out := (foldl (Clean_step root) ([], O) (components path)).1 in
    if root then "/" +:+ strings_Join out "/"
    else if decide (out = []) then "."
    else strings_Join out "/".

(** [Join]: leading empty elements are skipped, the rest is joined with
    slashes and cleaned. *)
Fixpoint Join (elem : list string) : string :=
  match elem with
  | [] => EmptyString
  | e :: rest =>
      if decide (e = EmptyString) then Join rest
      else Clean (strings_Join elem "/")
  end.

(** [Dir]: all but the last element, cleaned. *)
Definition Dir (path : string) : string :=
  Clean (strings_Join (removelast (components path) ++ [EmptyString]) "/").

End filepath.

(** *** net/http: the response *)

(** What a handler writes to the body: text, the output of
    [json.Encoder.Encode] (the JSON text of the value and a line feed), or raw
    bytes. *)
Inductive Chunk :=
| Text (s : string)
| Json (j : json)
| Bytes (b : list byte).

(** An [http.ResponseWriter]: the header map, the status once it is written,
    and the body so far. *)
Record ResponseWriter := {
  header : gmap string string;
  status : option Z;
  written : list Chunk
}.

Definition new_ResponseWriter : ResponseWriter :=
  {| header := ∅; status := None; written := [] |}.

Definition StatusOK : Z := 200.
Definition StatusCreated : Z := 201.
Definition StatusNoContent : Z := 204.
Definition StatusBadRequest : Z := 400.
Definition StatusNotFound : Z := 404.
Definition StatusInternalServerError : Z := 500.

(** [w.Header().Set(k, v)]; the header is frozen once the status is out. *)
Definition Header_Set (k v : string) (w : ResponseWriter) : ResponseWriter :=
  match status w with
  | Some _ => w
  | None => {| header := <[k := v]> (header w); status := None; written := written w |}
  end.

Definition Header_Del (k : string) (w : ResponseWriter) : ResponseWriter :=
  match status w with
  | Some _ => w
  | None => {| header := delete k (header w); status := None; written := written w |}
  end.

(** [w.WriteHeader(code)]; a second call is ignored. *)
Definition WriteHeader (code : Z) (w : ResponseWriter) : ResponseWriter :=
  match status w with
  | Some _ => w
  | None => {| header := header w; status := Some code; written := written w |}
  end.

(** [w.Write]: the first write sends [200] when no status is out yet. *)
Definition Write (c : Chunk) (w : ResponseWriter) : ResponseWriter :=
  let w := WriteHeader StatusOK w in
  {| header := header w; status := status w; written := written w ++ [c] |}.

Definition LF : string := String (ascii_of_nat 10) EmptyString.

(** [http.Error]: plain-text headers, the status, then the message and a line
    feed ([fmt.Fprintln]). *)
Definition http_Error (w : ResponseWriter) (error : string) (code : Z) : ResponseWriter :=
  let w := Header_Del "Content-Length" w in
  let w := Header_Set "Content-Type" "text/plain; charset=utf-8" w in
  let w := Header_Set "X-Content-Type-Options" "nosniff" w in
  let w := WriteHeader code w in
  Write (Text (error +:+ LF)) w.

(** [json.NewEncoder(w).Encode(v)]. *)
Definition json_Encode (w : ResponseWriter) (v : json) : ResponseWriter :=
  Write (Json v) w.

(** The status the client sees: [200] when the handler wrote none. *)
Definition status_sent (w : ResponseWriter) : Z := default StatusOK (status w).

(** *** The world of a running server *)

Inductive Node :=
| Directory
| File (data : list byte).

#[global] Instance Node_eq_dec : EqDecision Node.
Proof. solve_decision. Defined.

Record World := {
  (** rows of the table [todos], deleted ones included *)
  todos : list Todo;
  (** last value of the table's id sequence *)
  todos_id_seq : Z;
  (** the file system, keyed by clean absolute path *)
  fs : gmap string Node;
  (** what the next storage and file-system calls fail with, if at all *)
  faults : list (option string);
  (** [time.Now()] *)
  clock : Time;
  (** the bytes [crypto/rand] gives, and how many were taken *)
  entropy : nat → byte;
  entropy_taken : nat
}.

Definition with_todos (v : list Todo) (σ : World) : World :=
  {| todos := v; todos_id_seq := todos_id_seq σ; fs := fs σ; faults := faults σ;
     clock := clock σ; entropy := entropy σ; entropy_taken := entropy_taken σ |}.
Definition with_todos_id_seq (v : Z) (σ : World) : World :=
  {| todos := todos σ; todos_id_seq := v; fs := fs σ; faults := faults σ;
     clock := clock σ; entropy := entropy σ; entropy_taken := entropy_taken σ |}.
Definition with_fs (v : gmap string Node) (σ : World) : World :=
  {| todos := todos σ; todos_id_seq := todos_id_seq σ; fs := v; faults := faults σ;
     clock := clock σ; entropy := entropy σ; entropy_taken := entropy_taken σ |}.
Definition with_faults (v : list (option string)) (σ : World) : World :=
  {| todos := todos σ; todos_id_seq := todos_id_seq σ; fs := fs σ; faults := v;
     clock := clock σ; entropy := entropy σ; entropy_taken := entropy_taken σ |}.
Definition with_entropy_taken (v : nat) (σ : World) : World :=
  {| todos := todos σ; todos_id_seq := todos_id_seq σ; fs := fs σ; faults := faults σ;
     clock := clock σ; entropy := entropy σ; entropy_taken := v |}.

(** Computations over the world. *)
Definition M (A : Type) : Type := World → A * World.

#[global] Instance M_ret : MRet M := λ A a σ, (a, σ).
#[global] Instance M_bind : MBind M := λ A B f m σ, let '(a, σ') := m σ in f a σ'.

Definition get : M World := λ σ, (σ, σ).
Definition modify (f : World → World) : M unit := λ σ, ((), f σ).

(** The failure, if any, that the environment has in store for the next call. *)
Definition next_fault : M (option string) :=
  σ ← get;
  modify (with_faults (tail (faults σ)));;
  mret (default None (head (faults σ))).

Definition time_Now : M Time := σ ← get; mret (clock σ).

(** [uuid.New()]: 16 fresh random bytes. *)
Definition uuid_New : M uuid.UUID :=
  σ ← get;
  let raw := (λ i, entropy σ (entropy_taken σ + i)%nat `mod` 256) <$> seq 0 16 in
  modify (with_entropy_taken (entropy_taken σ + 16)%nat);;
  mret (uuid.NewRandom raw).

(** *** gorm over the table [todos] *)

Definition DQ : string := String (ascii_of_nat 34) EmptyString.

Module gorm.

Definition ErrRecordNotFound : string := "record not found".

(** What the driver reports for a violated unique constraint. *)
Definition duplicate_key (constraint : string) : string :=
  "ERROR: duplicate key value violates unique constraint " +:+
  DQ +:+ constraint +:+ DQ +:+ " (SQLSTATE 23505)".

(** [deleted_at IS NULL], which gorm adds to every query on a model that
    embeds [gorm.Model]. *)
Definition live (t : Todo) : bool := bool_decide (DeletedAt (Model t) = None).

(** [WHERE uuid = ? AND deleted_at IS NULL]. *)
Definition selected (uuid : string) (t : Todo) : bool :=
  bool_decide (UUID t = uuid) && live t.

(** [ORDER BY id LIMIT 1]. *)
Definition first_by_id (rows : list Todo) : option Todo :=
  foldl (λ acc r,
           match acc with
           | None => Some r
           | Some a => if decide (ID (Model r) < ID (Model a)) then Some r else Some a
           end) None rows.

(** [db.Create(&todo)]: the timestamps are filled in when zero, the id comes
    from the sequence when zero, and the row is inserted unless its id or
    its uuid ([gorm:"unique"]) is already in the table.  Gives
    [result.Error] and [todo] afterwards. *)
Definition Create (todo : Todo) : M (option string * Todo) :=
  now ← time_Now;
  let m := Model todo in
  let m := if decide (CreatedAt m = 0) then with_CreatedAt now m else m in
  let m := if decide (UpdatedAt m = 0) then with_UpdatedAt now m else m in
  let todo := with_Model m todo in
  fault ← next_fault;
  match fault with
  | Some err => mret (Some err, todo)
  | None =>
      σ ← get;
      id ← (if decide (ID m = 0)
            then modify (with_todos_id_seq (todos_id_seq σ + 1));;
                 mret (todos_id_seq σ + 1)
            else mret (ID m));
      if bool_decide (Exists (λ r, ID (Model r) = id) (todos σ))
      then mret (Some (duplicate_key "todos_pkey"), todo)
      else if bool_decide (Exists (λ r, UUID r = UUID todo) (todos σ))
      then mret (Some (duplicate_key "uni_todos_uuid"), todo)
      else
        let todo := with_Model (with_ID id m) todo in
        modify (with_todos (todos σ ++ [todo]));;
        mret (None, todo)
  end.

(** [db.Find(&todos)]. *)
Definition Find (dest : slice Todo) : M (option string * slice Todo) :=
  fault ← next_fault;
  match fault with
  | Some err => mret (Some err, dest)
  | None => σ ← get; mret (None, Some (filter (λ t, live t) (todos σ)))
  end.

(** [db.Where("uuid = ?", uuid).First(&todo)]. *)
Definition Where_First (uuid : string) (dest : Todo) : M (option string * Todo) :=
  fault ← next_fault;
  match fault with
  | Some err => mret (Some err, dest)
  | None =>
      σ ← get;
      match first_by_id (filter (λ t, selected uuid t) (todos σ)) with
      | Some row => mret (None, row)
      | None => mret (Some ErrRecordNotFound, dest)
      end
  end.

(** [db.Model(&Todo{}).Where("uuid = ?", uuid).Updates(map{"completed": v})]:
    gorm also sets [updated_at]. *)
Definition Where_Updates_completed (uuid : string) (v : bool) : M (option string) :=
  fault ← next_fault;
  match fault with
  | Some err => mret (Some err)
  | None =>
      now ← time_Now;
      σ ← get;
      modify (with_todos
        ((λ t, if selected uuid t
               then with_Model (with_UpdatedAt now (Model t)) (with_Completed v t)
               else t) <$> todos σ));;
      mret None
  end.

(** [db.Where("uuid = ?", uuid).Delete(&Todo{})]: with [gorm.Model] the
    delete marks the rows, it does not remove them. *)
Definition Where_Delete (uuid : string) : M (option string) :=
  fault ← next_fault;
  match fault with
  | Some err => mret (Some err)
  | None =>
      now ← time_Now;
      σ ← get;
      modify (with_todos
        ((λ t, if selected uuid t
               then with_Model (with_DeletedAt (Some now) (Model t)) t
               else t) <$> todos σ));;
      mret None
  end.

(** [db.AutoMigrate(&Todo{})]: the table, its columns and its indexes are
    created where they are missing; no row is changed or dropped.  The table
    of this model has the columns of [Todo] from the start, so that the call
    is seen by its error only. *)
Definition AutoMigrate : M (option string) := next_fault.

End gorm.

(** *** os and io over the file system *)

Record DirEntry := { Name : string; IsDir : bool }.

Module os.

Definition PathError (op path err : string) : string :=
  op +:+ " " +:+ path +:+ ": " +:+ err.

Definition ENOENT : string := "no such file or directory".
Definition ENOTDIR : string := "not a directory".
Definition EISDIR : string := "is a directory".
Definition ENOTEMPTY : string := "directory not empty".

(** The entries directly inside [dir]. *)
Definition children (dir : string) (tree : gmap string Node) : list DirEntry :=
  omap (λ '(p, n),
          if decide (filepath.Dir p = dir ∧ p ≠ dir)
          then Some {| Name := filepath.Base p;
                       IsDir := match n with Directory => true | File _ => false end |}
          else None)
       (map_to_list tree).

Definition by_name (a b : DirEntry) : Prop := String.le (Name a) (Name b).

(** [os.Create(name)]: the file is created or truncated. *)
Definition Create (name : string) : M (option string) :=
  fault ← next_fault;
  match fault with
  | Some err => mret (Some err)
  | None =>
      σ ← get;
      match fs σ !! name with
      | Some Directory => mret (Some (PathError "open" name EISDIR))
      | _ =>
          match fs σ !! filepath.Dir name with
          | Some Directory =>
              modify (with_fs (<[name := File []]> (fs σ)));; mret None
          | Some (File _) => mret (Some (PathError "open" name ENOTDIR))
          | None => mret (Some (PathError "open" name ENOENT))
          end
      end
  end.

(** [io.Copy(outFile, file)] into the file opened at [name]. *)
Definition Copy_to (name : string) (src : list byte) : M (option string) :=
  fault ← next_fault;
  match fault with
  | Some err => mret (Some err)
  | None =>
      σ ← get;
      match fs σ !! name with
      | Some (File old) =>
          modify (with_fs (<[name := File (old ++ src)]> (fs σ)));; mret None
      | _ => mret None
      end
  end.

(** [os.ReadDir(name)]: the entries, sorted by name. *)
Definition ReadDir (name : string) : M (string + list DirEntry) :=
  fault ← next_fault;
  match fault with
  | Some err => mret (inl err)
  | None =>
      σ ← get;
      match fs σ !! name with
      | Some Directory => mret (inr (merge_sort by_name (children name (fs σ))))
      | Some (File _) => mret (inl (PathError "readdirent" name ENOTDIR))
      | None => mret (inl (PathError "open" name ENOENT))
      end
  end.

(** [os.Open(name)]. *)
Definition Open (name : string) : M (string + Node) :=
  fault ← next_fault;
  match fault with
  | Some err => mret (inl err)
  | None =>
      σ ← get;
      match fs σ !! name with
      | Some n => mret (inr n)
      | None => mret (inl (PathError "open" name ENOENT))
      end
  end.

(** [os.Remove(name)]. *)
Definition Remove (name : string) : M (option string) :=
  fault ← next_fault;
  match fault with
  | Some err => mret (Some err)
  | None =>
      σ ← get;
      match fs σ !! name with
      | None => mret (Some (PathError "remove" name ENOENT))
      | Some n =>
          if decide (n = Directory ∧ children name (fs σ) ≠ [])
          then mret (Some (PathError "remove" name ENOTEMPTY))
          else modify (with_fs (delete name (fs σ)));; mret None
      end
  end.

Definition EEXIST : string := "file exists".

Definition is_separator (c : ascii) : bool := bool_decide (c = "/"%char).

Fixpoint drop_while (f : ascii → bool) (l : list ascii) : list ascii :=
  match l with
  | c :: l' => if f c then drop_while f l' else l
  | [] => []
  end.

(** The parent [MkdirAll] makes first: [path[:i]], where [i] is found from the
    end of [path] by a scan over the trailing separators, then over the last
    element; the scan stops at the separator before it, or at [0]. *)
Definition parent (path : string) : string :=
  let back := reverse (String.list_ascii_of_string path) in
  let back := drop_while is_separator back in
  let back := drop_while (λ c, negb (is_separator c)) back in
  String.string_of_list_ascii (reverse (tail back)).

(** [os.Mkdir(name)] on a tree. *)
Definition mkdir (name : string) (tree : gmap string Node)
  : string + gmap string Node :=
  match tree !! name with
  | Some _ => inl (PathError "mkdir" name EEXIST)
  | None =>
      match tree !! filepath.Dir name with
      | Some Directory => inr (<[name := Directory]> tree)
      | Some (File _) => inl (PathError "mkdir" name ENOTDIR)
      | None => inl (PathError "mkdir" name ENOENT)
      end
  end.

(** The body of [os.MkdirAll]: the fast path on what [Stat] finds, then the
    parent by a call of itself, then [Mkdir], whose error is dropped when the
    directory is there.  The result is the error and the tree left behind.  A
    parent is shorter than its path, so the length of the path is fuel
    enough. *)
Fixpoint mkdir_all (fuel : nat) (path : string) (tree : gmap string Node)
  : option string * gmap string Node :=
  match tree !! path with
  | Some Directory => (None, tree)
  | Some (File _) => (Some (PathError "mkdir" path ENOTDIR), tree)
  | None =>
      let made :=
        if decide (parent path = EmptyString) then (None, tree)
        else match fuel with
             | S fuel' => mkdir_all fuel' (parent path) tree
             | O => (None, tree)
             end in
      match made with
      | (Some err, tree') => (Some err, tree')
      | (None, tree') =>
          match mkdir path tree' with
          | inr tree'' => (None, tree'')
          | inl err =>
              match tree' !! path with
              | Some Directory => (None, tree')
              | _ => (Some err, tree')
              end
          end
      end
  end.

(** [os.MkdirAll(path, perm)]. *)
Definition MkdirAll (path : string) : M (option string) :=
  fault ← next_fault;
  match fault with
  | Some err => mret (Some err)
  | None =>
      σ ← get;
      let '(err, tree) := mkdir_all (String.length path) path (fs σ) in
      modify (with_fs tree);; mret err
  end.

End os.

(** ** The handlers of [main.go] *)

Definition Handler := ResponseWriter → Request → M ResponseWriter.

Definition uploadDir : string := "/app/uploads".

Definition createTodo : Handler := λ w r,
  let '(err, todo) := json_Decode (body r) zero_Todo in
  match err with
  | Some err => mret (http_Error w err StatusBadRequest)
  | None =>
      (* Generate a unique UUID for the todo *)
      u ← uuid_New;
      let todo := with_UUID (uuid.String u) todo in
      '(result_Error, todo) ← gorm.Create todo;
      match result_Error with
      | Some err => mret (http_Error w err StatusInternalServerError)
      | None =>
          let w := Header_Set "Content-Type" "application/json" w in
          let w := WriteHeader StatusCreated w in
          mret (json_Encode w (json_of_Todo todo))
      end
  end.

Definition getAllTodos : Handler := λ w r,
  '(result_Error, todos) ← gorm.Find None;
  match result_Error with
  | Some err => mret (http_Error w err StatusInternalServerError)
  | None =>
      let w := Header_Set "Content-Type" "application/json" w in
      mret (json_Encode w (json_of_slice json_of_Todo todos))
  end.

Definition getTodo : Handler := λ w r,
  let uuid := var r "uuid" in
  '(result_Error, todo) ← gorm.Where_First uuid zero_Todo;
  match result_Error with
  | Some err => mret (http_Error w err StatusNotFound)
  | None =>
      let w := Header_Set "Content-Type" "application/json" w in
      mret (json_Encode w (json_of_Todo todo))
  end.

Definition updateTodo : Handler := λ w r,
  let uuid := var r "uuid" in
  let '(err, updatedTodo) := json_Decode (body r) zero_Todo in
  match err with
  | Some err => mret (http_Error w err StatusBadRequest)
  | None =>
      result_Error ← gorm.Where_Updates_completed uuid (Completed updatedTodo);
      match result_Error with
      | Some err => mret (http_Error w err StatusInternalServerError)
      | None =>
          '(_, todo) ← gorm.Where_First uuid zero_Todo;
          let w := Header_Set "Content-Type" "application/json" w in
          mret (json_Encode w (json_of_Todo todo))
      end
  end.

Definition deleteTodo : Handler := λ w r,
  let uuid := var r "uuid" in
  result_Error ← gorm.Where_Delete uuid;
  match result_Error with
  | Some err => mret (http_Error w err StatusInternalServerError)
  | None => mret (WriteHeader StatusNoContent w)
  end.

(** The name [uploadFile] stores an upload under. *)
Definition upload_name (now : Time) (filename : string) : string :=
  fmt_d (Time_UnixNano now) +:+ "-" +:+ filepath.Base filename.

Definition uploadFile : Handler := λ w r,
  match Request_FormFile r "file" with
  | inl err => mret (http_Error w err StatusBadRequest)
  | inr file =>
      now ← time_Now;
      let filePath := filepath.Join [uploadDir; upload_name now (Filename file)] in
      err ← os.Create filePath;
      match err with
      | Some err => mret (http_Error w err StatusInternalServerError)
      | None =>
          err ← os.Copy_to filePath (content file);
          match err with
          | Some err => mret (http_Error w err StatusInternalServerError)
          | None =>
              let w := Header_Set "Content-Type" "application/json" w in
              let w := WriteHeader StatusCreated w in
              mret (json_Encode w (JObj [("file_path", JStr filePath)]))
          end
      end
  end.

Definition listFiles : Handler := λ w r,
  res ← os.ReadDir uploadDir;
  match res with
  | inl err => mret (http_Error w err StatusInternalServerError)
  | inr files =>
      let fileNames : slice string :=
        foldl (λ fileNames file,
                 if negb (IsDir file) then append fileNames (Name file)
                 else fileNames)
              None files in
      let w := Header_Set "Content-Type" "application/json" w in
      mret (json_Encode w (json_of_slice JStr fileNames))
  end.

Definition downloadFile : Handler := λ w r,
  let fileName := var r "filename" in
  let filePath := filepath.Join ["/app/uploads"; fileName] in
  res ← os.Open filePath;
  match res with
  | inl err => mret (http_Error w "File not found" StatusNotFound)
  | inr file =>
      let w := Header_Set "Content-Disposition" ("attachment; filename=" +:+ fileName) w in
      let w := Header_Set "Content-Type" "application/octet-stream" w in
      (* io.Copy(w, file): nothing is written for an empty file or a directory *)
      match file with
      | File (b :: data) => mret (Write (Bytes (b :: data)) w)
      | _ => mret w
      end
  end.

Definition deleteFile : Handler := λ w r,
  let fileName := var r "filename" in
  let filePath := filepath.Join ["/app/uploads"; fileName] in
  err ← os.Remove filePath;
  match err with
  | Some err => mret (http_Error w err StatusInternalServerError)
  | None => mret (WriteHeader StatusOK w)
  end.

(** The routes registered in [main]. *)
Inductive Route :=
| POST_todos
| GET_todos
| GET_todos_uuid
| PUT_todos_uuid
| DELETE_todos_uuid
| POST_files_upload
| GET_files_list
| GET_files_download_filename
| DELETE_files_filename.

Definition route (rt : Route) : Handler :=
  match rt with
  | POST_todos => createTodo
  | GET_todos => getAllTodos
  | GET_todos_uuid => getTodo
  | PUT_todos_uuid => updateTodo
  | DELETE_todos_uuid => deleteTodo
  | POST_files_upload => uploadFile
  | GET_files_list => listFiles
  | GET_files_download_filename => downloadFile
  | DELETE_files_filename => deleteFile
  end.

(** One request served: the response and the world afterwards. *)
Definition serve (rt : Route) (r : Request) : M ResponseWriter :=
  route rt new_ResponseWriter r.

(** *** Sample worlds and requests *)

Definition a_request : Request :=
  {| vars := ∅; body := JSONObject no_fields; form := inr ∅ |}.

Definition with_var (k v : string) (r : Request) : Request :=
  {| vars := <[k := v]> (vars r); body := body r; form := form r |}.
Definition with_body (b : Body) (r : Request) : Request :=
  {| vars := vars r; body := b; form := form r |}.
Definition with_form_file (k : string) (f : FormFile) (r : Request) : Request :=
  {| vars := vars r; body := body r;
     form := inr (<[k := f]> (match form r with inr m => m | inl _ => ∅ end)) |}.

(** A create request that asks for a todo that is already completed. *)
Definition completed_request : Request :=
  with_body
    (JSONObject
       {| f_ID := None; f_CreatedAt := None; f_UpdatedAt := None; f_DeletedAt := None;
          f_uuid := None; f_title := Some "Buy milk"; f_description := Some "2%";
          f_completed := Some true; f_file_path := None |})
    a_request.

(** An update request for [uuid] whose body sets [completed] and a title. *)
Definition update_request (uuid : string) (v : bool) : Request :=
  with_var "uuid" uuid
    (with_body
       (JSONObject
          {| f_ID := None; f_CreatedAt := None; f_UpdatedAt := None; f_DeletedAt := None;
             f_uuid := Some "another-uuid"; f_title := Some "another title";
             f_description := None; f_completed := Some v; f_file_path := None |})
       a_request).

(** A stored todo, and one that was deleted. *)
Definition milk : Todo :=
  {| Model := {| ID := 1; CreatedAt := 63700000000 * Second;
                 UpdatedAt := 63700000000 * Second; DeletedAt := None |};
     UUID := "6f1c2a9e-58b3-4c1d-9a77-0d2e4b8c9f10";
     Title := "Buy milk"; Description := "2%"; Completed := false;
     FilePath := EmptyString |}.

Definition bread : Todo :=
  {| Model := {| ID := 2; CreatedAt := 63700000100 * Second;
                 UpdatedAt := 63700000100 * Second;
                 DeletedAt := Some (63700000200 * Second) |};
     UUID := "c0ffee00-1234-4abc-8def-001122334455";
     Title := "Buy bread"; Description := "rye"; Completed := true;
     FilePath := EmptyString |}.

(** An upload of three bytes under a client name with directories in it. *)
Definition report_upload : Request :=
  with_form_file "file" {| Filename := "a/b/report.txt"; content := [104; 105; 10] |}
    a_request.

(** A download of a file that is not there. *)
Definition missing_download : Request := with_var "filename" "nope.txt" a_request.

(** A create request with a title and a description, as the client sends it. *)
Definition milk_request : Request :=
  with_body
    (JSONObject
       {| f_ID := None; f_CreatedAt := None; f_UpdatedAt := None; f_DeletedAt := None;
          f_uuid := None; f_title := Some "Buy milk"; f_description := Some "2%";
          f_completed := None; f_file_path := None |})
    a_request.

(** A create request whose body carries a deletion time. *)
Definition deleted_request : Request :=
  with_body
    (JSONObject
       {| f_ID := None; f_CreatedAt := None; f_UpdatedAt := None;
          f_DeletedAt := Some (63700000000 * Second);
          f_uuid := None; f_title := Some "Buy milk"; f_description := Some "2%";
          f_completed := None; f_file_path := None |})
    a_request.

(** A request for the uuid the first create on a fresh server gives out. *)
Definition first_uuid_request : Request :=
  with_var "uuid" "0b30557a-9fc4-490e-b358-7da2c7ec1136" a_request.

(** A request for the uuid of the stored todo. *)
Definition milk_uuid_request : Request := with_var "uuid" (UUID milk) a_request.

(** A fresh server: empty table, empty upload directory, no failures. *)
Definition fresh_world : World :=
  {| todos := []; todos_id_seq := 0;
     fs := {[ "/" := Directory; "/app" := Directory; uploadDir := Directory ]};
     faults := [];
     clock := 63800000000 * Second;
     entropy := λ i, Z.of_nat i * 37 + 11;
     entropy_taken := O |}.

(** A server with two rows in the table, one of them deleted. *)
Definition stocked_world : World :=
  with_todos_id_seq 2 (with_todos [milk; bread] fresh_world).

(** Requests served one after the other: the responses, and the world at the end. *)
Fixpoint serve_all (reqs : list (Route * Request)) : M (list ResponseWriter) :=
  match reqs with
  | [] => mret []
  | (rt, r) :: rest =>
      w ← serve rt r;
      ws ← serve_all rest;
      mret (w :: ws)
  end.

(** ** The router of [main]: gorilla/mux *)

Module mux.

(** The last character of the path is a slash. *)
Fixpoint ends_with_slash (p : string) : bool :=
  match p with
  | EmptyString => false
  | String c EmptyString => bool_decide (c = "/"%char)
  | String _ rest => ends_with_slash rest
  end.

(** [cleanPath]: the path made rooted and cleaned, its trailing slash kept. *)
Definition cleanPath (p : string) : string :=
  if decide (p = EmptyString) then "/"
  else
    let p := if filepath.rooted p then p else "/" +:+ p in
    let np := filepath.Clean p in
    if ends_with_slash p && negb (bool_decide (np = "/")) then np +:+ "/" else np.

(** One piece of a path template: a literal or a variable [{name}], which
    stands for the pattern [[^/]+]. *)
Inductive Segment :=
| Lit (s : string)
| Var (name : string).

Fixpoint up_to_brace (s : string) : string :=
  match s with
  | EmptyString => EmptyString
  | String c rest =>
      if decide (c = "}"%char) then EmptyString else String c (up_to_brace rest)
  end.

Definition segment_of (e : string) : Segment :=
  match e with
  | String "{" rest => Var (up_to_brace rest)
  | _ => Lit e
  end.

Definition template (tpl : string) : list Segment := segment_of <$> components tpl.

(** The path against the template, anchored at both ends: the variables it
    binds when it matches. *)
Fixpoint match_segments (segs : list Segment) (elems : list string)
    (vars : gmap string string) : option (gmap string string) :=
  match segs, elems with
  | [], [] => Some vars
  | Lit s :: segs', e :: elems' =>
      if decide (e = s) then match_segments segs' elems' vars else None
  | Var name :: segs', e :: elems' =>
      if decide (e = EmptyString) then None
      else match_segments segs' elems' (<[name := e]> vars)
  | _, _ => None
  end.

(** [r.HandleFunc(tpl, handler).Methods(methods...)]. *)
Record Registered := { tpl : string; endpoint : Route; methods : list string }.

(** The result of [Router.Match]. *)
Inductive RouteMatch :=
| Matched (rt : Route) (vars : gmap string string)
| MethodMismatch
| NoMatch.

(** [Router.Match]: the routes are tried in the order they were registered; a
    route whose path matches but whose method does not is remembered and the
    search goes on. *)
Fixpoint Match (routes : list Registered) (method path : string) (mismatch : bool)
  : RouteMatch :=
  match routes with
  | [] => if mismatch then MethodMismatch else NoMatch
  | rg :: rest =>
      match match_segments (template (tpl rg)) (components path) ∅ with
      | None => Match rest method path mismatch
      | Some vars =>
          if decide (method ∈ methods rg) then Matched (endpoint rg) vars
          else Match rest method path true
      end
  end.

End mux.

(** An incoming request: the method, the decoded path of the URL, the body
    and the multipart form. *)
Record Incoming := {
  Method : string;
  URL_Path : string;
  in_body : Body;
  in_form : string + gmap string FormFile
}.

Definition StatusMovedPermanently : Z := 301.
Definition StatusMethodNotAllowed : Z := 405.

(** The routes of [main], in the order of the source. *)
Definition routes : list mux.Registered :=
  [ {| mux.tpl := "/todos"; mux.endpoint := POST_todos; mux.methods := ["POST"] |};
    {| mux.tpl := "/todos"; mux.endpoint := GET_todos; mux.methods := ["GET"] |};
    {| mux.tpl := "/todos/{uuid}"; mux.endpoint := GET_todos_uuid;
       mux.methods := ["GET"] |};
    {| mux.tpl := "/todos/{uuid}"; mux.endpoint := PUT_todos_uuid;
       mux.methods := ["PUT"] |};
    {| mux.tpl := "/todos/{uuid}"; mux.endpoint := DELETE_todos_uuid;
       mux.methods := ["DELETE"] |};
    {| mux.tpl := "/files/upload"; mux.endpoint := POST_files_upload;
       mux.methods := ["POST"] |};
    {| mux.tpl := "/files/list"; mux.endpoint := GET_files_list;
       mux.methods := ["GET"] |};
    {| mux.tpl := "/files/download/{filename}";
       mux.endpoint := GET_files_download_filename; mux.methods := ["GET"] |};
    {| mux.tpl := "/files/{filename}"; mux.endpoint := DELETE_files_filename;
       mux.methods := ["DELETE"] |} ].

(** [r.ServeHTTP]: a path that is not clean is redirected to its clean form;
    otherwise the matching handler runs with the variables of the path, and
    without one the answer is [405] when only the method was wrong and [404]
    else. *)
Definition Router_ServeHTTP (w : ResponseWriter) (req : Incoming) : M ResponseWriter :=
  let path := URL_Path req in
  let p := mux.cleanPath path in
  if decide (p ≠ path) then
    mret (WriteHeader StatusMovedPermanently (Header_Set "Location" p w))
  else
    match mux.Match routes (Method req) path false with
    | mux.Matched rt vars =>
        route rt w {| vars := vars; body := in_body req; form := in_form req |}
    | mux.MethodMismatch => mret (WriteHeader StatusMethodNotAllowed w)
    | mux.NoMatch => mret (http_Error w "404 page not found" StatusNotFound)
    end.

(** ** The client: [app/frontend/src/App.tsx] *)

Module App.

(** [response.ok]: a status from 200 to 299. *)
Definition response_ok (w : ResponseWriter) : bool :=
  bool_decide (200 ≤ status_sent w ≤ 299).

(** [await response.json()]: the value when the body is one JSON text, [None]
    when parsing throws. *)
Definition response_json (w : ResponseWriter) : option json :=
  match written w with
  | [Json data] => Some data
  | _ => None
  end.

(** The two pieces of state the fetches set: [todos] and [files]. *)
Record State := { s_todos : json; s_files : json }.

Definition setTodos (data : json) (st : State) : State :=
  {| s_todos := data; s_files := s_files st |}.
Definition setFiles (data : json) (st : State) : State :=
  {| s_todos := s_todos st; s_files := data |}.

(** [useState<Todo[]>([])] and [useState<string[]>([])]. *)
Definition initial : State := {| s_todos := JArr []; s_files := JArr [] |}.

(** [fetchTodos], given the response to [GET /todos]: a response that is not
    ok, or a body that does not parse, throws into the [catch], which logs and
    leaves the state alone. *)
Definition fetchTodos (response : ResponseWriter) (st : State) : State :=
  if response_ok response then
    match response_json response with
    | Some data => setTodos data st
    | None => st
    end
  else st.

(** [fetchFiles], given the response to [GET /files/list]. *)
Definition fetchFiles (response : ResponseWriter) (st : State) : State :=
  if response_ok response then
    match response_json response with
    | Some data =>
        match data with
        | JNull => setFiles (JArr []) st
        | _ => setFiles data st
        end
    | None => st
    end
  else st.

End App.

(** [main] from the return of [connectToDatabase] to the call of
    [http.ListenAndServe]: the line [log.Fatalf] prints before the process
    exits, or [None] when the server starts to listen on the routes
    [routes]. *)
Definition main : M (option string) :=
  (* Auto migrate the schema *)
  err ← gorm.AutoMigrate;
  match err with
  | Some err => mret (Some ("Failed to migrate database: " +:+ err))
  | None =>
      (* Ensure uploads directory exists *)
      err ← os.MkdirAll uploadDir;
      match err with
      | Some err => mret (Some ("Failed to create uploads directory: " +:+ err))
      | None => mret None
      end
  end.

(** An incoming request without a body. *)
Definition incoming (method path : string) : Incoming :=
  {| Method := method; URL_Path := path; in_body := JSONObject no_fields;
     in_form := inr ∅ |}.

(** A server with a file next to the upload directory and one inside it. *)
Definition world_with_secret : World :=
  with_fs (<["/app/secret.txt" := File [115; 51]]>
             (<["/app/uploads/17-a.txt" := File [97]]> (fs fresh_world)))
    fresh_world.

(** A machine where neither [/app] nor the upload directory exists yet. *)
Definition bare_world : World :=
  with_fs {[ "/" := Directory; "/etc/hosts" := File [49] ]} fresh_world.

(** A machine where a regular file sits at the place of the upload directory. *)
Definition blocked_world : World :=
  with_fs {[ "/" := Directory; "/app" := Directory; uploadDir := File [49] ]}
    fresh_world.

(** An upload of [a.txt] as it comes in. *)
Definition incoming_upload : Incoming :=
  {| Method := "POST"; URL_Path := "/files/upload";
     in_body := JSONObject no_fields;
     in_form := inr {[ "file" := {| Filename := "a.txt"; content := [97] |} ]} |}.

(** ** Vocabulary of the properties *)

(** The failure the next storage or file-system call meets, and the world once
    that call has consumed it. *)
Definition fault_of (σ : World) : option string := default None (head (faults σ)).
Definition after_call (σ : World) : World := with_faults (tail (faults σ)) σ.

(** The storage call made next does not fail. *)
Definition next_call_ok (σ : World) : Prop := fault_of σ = None.

(** The row [Updates] writes for a selected row, and the table it leaves. *)
Definition updated (now : Time) (v : bool) (t : Todo) : Todo :=
  with_Model (with_UpdatedAt now (Model t)) (with_Completed v t).

Definition update_rows (uuid : string) (now : Time) (v : bool) (rows : list Todo)
  : list Todo :=
  (λ t, if gorm.selected uuid t then updated now v t else t) <$> rows.

(** The table a delete leaves. *)
Definition delete_rows (uuid : string) (now : Time) (rows : list Todo) : list Todo :=
  (λ t, if gorm.selected uuid t
        then with_Model (with_DeletedAt (Some now) (Model t)) t else t) <$> rows.

(** The fields an update has no business with. *)
Definition same_but_completed (t t' : Todo) : Prop :=
  UUID t' = UUID t ∧ Title t' = Title t ∧ Description t' = Description t ∧
  FilePath t' = FilePath t ∧ ID (Model t') = ID (Model t) ∧
  CreatedAt (Model t') = CreatedAt (Model t) ∧
  DeletedAt (Model t') = DeletedAt (Model t).

(** The uuids of the rows that are not deleted. *)
Definition live_uuids (rows : list Todo) : list string :=
  UUID <$> filter (λ t, gorm.live t) rows.

(** The invariant of the table: no two rows that are not deleted share a uuid. *)
Definition uuid_unique (rows : list Todo) : Prop := NoDup (live_uuids rows).

(** The row [Where_First] finds, if any. *)
Definition find_row (uuid : string) (rows : list Todo) : option Todo :=
  gorm.first_by_id (filter (λ t, gorm.selected uuid t) rows).

(** [Create] fills in the timestamps that are zero. *)
Definition stamped (now : Time) (todo : Todo) : Todo :=
  let m := Model todo in
  let m := if decide (CreatedAt m = 0) then with_CreatedAt now m else m in
  let m := if decide (UpdatedAt m = 0) then with_UpdatedAt now m else m in
  with_Model m todo.

(** The id [Create] inserts a row under. *)
Definition id_for (σ : World) (todo : Todo) : Z :=
  if decide (ID (Model todo) = 0) then todos_id_seq σ + 1 else ID (Model todo).

(** The todo a create request asks for: the decoded body under the uuid the
    server generates. *)
Definition requested (r : Request) (σ : World) : Todo :=
  with_UUID (uuid.String (uuid_New σ).1) (json_Decode (body r) zero_Todo).2.

(** The names [listFiles] collects from the entries of the directory. *)
Definition file_names (files : list DirEntry) : slice string :=
  foldl (λ fileNames file,
           if negb (IsDir file) then append fileNames (Name file) else fileNames)
        None files.

(** The characters of a string, and strings without a slash. *)
Fixpoint chars (s : string) : list ascii :=
  match s with
  | EmptyString => []
  | String c s' => c :: chars s'
  end.

Definition slash_free (s : string) : Prop := "/"%char ∉ chars s.

(** The path an upload of [filename] at time [now] is stored under. *)
Definition upload_path (now : Time) (filename : string) : string :=
  filepath.Join [uploadDir; upload_name now filename].

(** A string made of slashes only. *)
Definition only_slashes (s : string) : Prop := Forall (λ c, c = "/"%char) (chars s).

(** An ordinary file name: not empty, no slash, neither [.] nor [..]. *)
Definition plain_name (s : string) : Prop :=
  slash_free s ∧ s ≠ EmptyString ∧ s ≠ "." ∧ s ≠ "..".

(** The characters [%d] prints. *)
Definition is_digit_or_minus (c : ascii) : Prop :=
  c ∈ ["0"; "1"; "2"; "3"; "4"; "5"; "6"; "7"; "8"; "9"; "-"]%char.

(** A response that reports [msg] under [code] the way [http.Error] does. *)
Definition reports (w : ResponseWriter) (code : Z) (msg : string) : Prop :=
  status w = Some code ∧ written w = [Text (msg +:+ LF)] ∧
  header w !! "Content-Type" = Some "text/plain; charset=utf-8".

(** The row a successful create request inserts and returns. *)
Definition created_row (r : Request) (σ : World) : Todo :=
  let todo := stamped (clock σ) (requested r σ) in
  with_Model (with_ID (id_for σ (requested r σ)) (Model todo)) todo.

(** The rows a list request shows. *)
Definition live_rows (rows : list Todo) : list Todo := filter (λ t, gorm.live t) rows.

(** The response is an error response. *)
Definition is_error (w : ResponseWriter) : Prop := 400 ≤ status_sent w.

(** The file name an upload is stored under inside the upload directory. *)
Definition stored_name (now : Time) (filename : string) : string :=
  fmt_d (Time_UnixNano now) +:+ "-" +:+
  (if decide (filepath.Base filename = "/") then EmptyString
   else filepath.Base filename).

(** The names of the entries that are not directories. *)
Definition regular_names (files : list DirEntry) : list string :=
  Name <$> filter (λ e, IsDir e = false) files.

(** The fields of a row that no handler writes. *)
Definition same_identity (t t' : Todo) : Prop :=
  UUID t' = UUID t ∧ ID (Model t') = ID (Model t) ∧
  CreatedAt (Model t') = CreatedAt (Model t) ∧ Title t' = Title t ∧
  Description t' = Description t ∧ FilePath t' = FilePath t.

(** The routes that read. *)
Definition reading (rt : Route) : Prop :=
  rt ∈ [GET_todos; GET_todos_uuid; GET_files_list; GET_files_download_filename].

(** The routes of the todos, and the routes of the files. *)
Definition todo_route (rt : Route) : Prop :=
  rt ∈ [POST_todos; GET_todos; GET_todos_uuid; PUT_todos_uuid; DELETE_todos_uuid].
Definition file_route (rt : Route) : Prop :=
  rt ∈ [POST_files_upload; GET_files_list; GET_files_download_filename;
        DELETE_files_filename].

(** The decimal digits. *)
Definition is_digit (c : ascii) : Prop :=
  c ∈ ["0"; "1"; "2"; "3"; "4"; "5"; "6"; "7"; "8"; "9"]%char.

(** The time a trace spends asleep. *)
Definition total_wait (tr : list Connector.Event) : Z :=
  foldr Z.add 0 (Connector.sleeps tr).

(** A JSON array of strings, and a JSON array. *)
Definition is_string_array (j : json) : Prop := ∃ names, j = JArr (JStr <$> names).
Definition is_array (j : json) : Prop := ∃ items, j = JArr items.

(** The upload directory is there, or it is missing and can be made: [/app]
    is a directory, or is missing as well under a root that is there. *)
Definition uploads_possible (tree : gmap string Node) : Prop :=
  tree !! uploadDir = Some Directory ∨
  (tree !! uploadDir = None ∧
   (tree !! "/app" = Some Directory ∨
    (tree !! "/app" = None ∧ tree !! "/" = Some Directory))).

(** * Properties *)

(** ** The library functions on samples *)

Module Samples.

Example Base_samples :
  filepath.Base <$> ["a/b/report.txt"; "report.txt"; "../../etc/passwd"; "a/b/"; "//a";
                     "/"; "///"; "."; ".."; EmptyString]
  = ["report.txt"; "report.txt"; "passwd"; "b"; "a"; "/"; "/"; "."; ".."; "."].
Proof. reflexivity. Qed.

Example Clean_samples :
  filepath.Clean <$> ["a/b/"; "/"; "//a"; "a//b"; "a/./b"; "a/../.."; "/../a/../../b/./c/";
                      "../../etc/passwd"; EmptyString]
  = ["a/b"; "/"; "/a"; "a/b"; "a/b"; ".."; "/b/c"; "../../etc/passwd"; "."].
Proof. reflexivity. Qed.

Example Join_samples :
  filepath.Join <$> [["/app/uploads"; "12-a.txt"]; ["/app/uploads"; "12-/"];
                     ["/app/uploads"; ".."]; [EmptyString; "a"]; ["a"; EmptyString]]
  = ["/app/uploads/12-a.txt"; "/app/uploads/12-"; "/app"; "a"; "a"].
Proof. reflexivity. Qed.

Example Dir_samples :
  filepath.Dir <$> ["/app/uploads/12-a.txt"; "/x"; "x"; "/"; "a/b/"]
  = ["/app/uploads"; "/"; "."; "/"; "a/b"].
Proof. reflexivity. Qed.

Example fmt_d_samples :
  fmt_d <$> [0; 5; 1664403200000000000; -42] = ["0"; "5"; "1664403200000000000"; "-42"].
Proof. reflexivity. Qed.

Example UnixNano_sample : Time_UnixNano (clock fresh_world) = 1664403200000000000.
Proof. reflexivity. Qed.

Example uuid_String_samples :
  uuid.String (uuid.NewRandom (replicate 16 255)) = "ffffffff-ffff-4fff-bfff-ffffffffffff" ∧
  uuid.String (uuid.NewRandom (replicate 16 0)) = "00000000-0000-4000-8000-000000000000".
Proof. split; reflexivity. Qed.

(** Create a todo, then fetch it by the uuid that came back. *)
Example create_then_get :
  written <$> (serve_all
     [(POST_todos, milk_request);
      (GET_todos_uuid, with_var "uuid" "0b30557a-9fc4-490e-b358-7da2c7ec1136" a_request)]
     fresh_world).1
  = let row := JObj [("ID", JNum 1);
                     ("CreatedAt", JTime (clock fresh_world));
                     ("UpdatedAt", JTime (clock fresh_world));
                     ("DeletedAt", JNull);
                     ("uuid", JStr "0b30557a-9fc4-490e-b358-7da2c7ec1136");
                     ("title", JStr "Buy milk"); ("description", JStr "2%");
                     ("completed", JBool false)] in
    [[Json row]; [Json row]].
Proof. vm_compute. reflexivity. Qed.

(** Delete a todo, then fetch it: not found; the list no longer has it. *)
Example delete_then_get :
  (λ w, (status w, written w)) <$> (serve_all
     [(DELETE_todos_uuid, with_var "uuid" (UUID milk) a_request);
      (GET_todos_uuid, with_var "uuid" (UUID milk) a_request);
      (GET_todos, a_request)]
     stocked_world).1
  = [(Some StatusNoContent, []);
     (Some StatusNotFound, [Text ("record not found" +:+ LF)]);
     (Some StatusOK, [Json (JArr [])])].
Proof. vm_compute. reflexivity. Qed.

(** Upload a file, list, download, delete, list again. *)
Example upload_list_download_delete :
  let name := "1664403200000000000-report.txt" in
  (λ w, (status w, written w)) <$> (serve_all
     [(POST_files_upload, report_upload);
      (GET_files_list, a_request);
      (GET_files_download_filename, with_var "filename" name a_request);
      (DELETE_files_filename, with_var "filename" name a_request);
      (GET_files_list, a_request)]
     fresh_world).1
  = [(Some StatusCreated,
      [Json (JObj [("file_path", JStr ("/app/uploads/" +:+ name))])]);
     (Some StatusOK, [Json (JArr [JStr name])]);
     (Some StatusOK, [Bytes [104; 105; 10]]);
     (Some StatusOK, []);
     (Some StatusOK, [Json JNull])].
Proof. vm_compute. reflexivity. Qed.

End Samples.

(** ** Startup connector *)

Module ConnectorFacts.
Import Connector.

Lemma wrap64_small z : - 2 ^ 63 ≤ z < 2 ^ 63 → wrap64 z = z.
Proof. intros H. unfold wrap64. rewrite Z.mod_small; lia. Qed.

Lemma backoff_small a : 0 ≤ a ≤ 1000 → backoff a = a * 2 * Second.
Proof.
  intros H. unfold backoff, int64_mul, Second.
  rewrite (wrap64_small (a * 2)) by lia. apply wrap64_small. lia.
Qed.

Section Facts.
Variable os_Getenv : string → string.
Variable gorm_Open : Z → string → string + Handle.

Notation connect_from := (connect_from os_Getenv gorm_Open).
Notation connectToDatabase := (connectToDatabase os_Getenv gorm_Open).
Notation fails := (fails os_Getenv gorm_Open).
Notation failed_attempts := (failed_attempts os_Getenv gorm_Open).
Notation the_dsn := (dsn os_Getenv).

(** One turn of the loop on a failing attempt. *)
Lemma connect_from_fail fuel a tr :
  a ≤ maxRetries → fails a →
  connect_from (S fuel) a tr =
  connect_from fuel (wrap64 (a + 1))
    (tr ++ failed_attempt os_Getenv gorm_Open a).
Proof.
  intros Ha [err Herr]. simpl. rewrite decide_True by done.
  unfold failed_attempt, error_at. by rewrite Herr.
Qed.

(** One turn of the loop on a successful attempt. *)
Lemma connect_from_success fuel a tr h :
  a ≤ maxRetries → gorm_Open a the_dsn = inr h →
  connect_from (S fuel) a tr = (Returned h, tr ++ success_events os_Getenv).
Proof. intros Ha Hh. simpl. rewrite decide_True by done. by rewrite Hh. Qed.

(** The loop test fails: the fatal path. *)
Lemma connect_from_exhausted fuel a tr :
  maxRetries < a → connect_from fuel a tr = (Fatal, tr ++ fatal_events).
Proof. intros Ha. destruct fuel; simpl; rewrite decide_False by lia; done. Qed.

(** [n] failing attempts in a row take [n] turns of the loop. *)
Lemma connect_from_failures n : ∀ fuel a tr,
  1 ≤ a → a + Z.of_nat n ≤ maxRetries + 1 →
  (∀ j, a ≤ j < a + Z.of_nat n → fails j) →
  connect_from (n + fuel) a tr =
  connect_from fuel (a + Z.of_nat n) (tr ++ failed_attempts a n).
Proof.
  unfold maxRetries.
  induction n as [|n IH]; intros fuel a tr Ha Hn Hf.
  - simpl. by rewrite Z.add_0_r, app_nil_r.
  - change (S n + fuel)%nat with (S (n + fuel)).
    rewrite connect_from_fail by (unfold maxRetries; first [lia | apply Hf; lia]).
    rewrite wrap64_small by lia.
    rewrite IH by (first [lia | intros; apply Hf; lia]).
    cbn [Connector.failed_attempts]. rewrite <- app_assoc.
    by replace (a + 1 + Z.of_nat n) with (a + Z.of_nat (S n)) by lia.
Qed.

(** The whole run when attempt [k] is the first to succeed. *)
Lemma connect_first_success k h :
  1 ≤ k ≤ maxRetries →
  (∀ j, 1 ≤ j < k → fails j) →
  gorm_Open k the_dsn = inr h →
  connectToDatabase =
  (Returned h, failed_attempts 1 (Z.to_nat (k - 1)) ++ success_events os_Getenv).
Proof.
  unfold maxRetries. intros Hk Hf Hh. unfold connectToDatabase.
  replace (Z.to_nat maxRetries)
    with (Z.to_nat (k - 1) + S (Z.to_nat (5 - k)))%nat by (unfold maxRetries; lia).
  rewrite connect_from_failures
    by (unfold maxRetries; first [lia | intros; apply Hf; lia]).
  replace (1 + Z.of_nat (Z.to_nat (k - 1))) with k by lia.
  by rewrite (connect_from_success _ _ _ h) by (unfold maxRetries; first [lia | done]).
Qed.

(** The whole run when no attempt succeeds. *)
Lemma connect_all_fail :
  (∀ j, 1 ≤ j ≤ maxRetries → fails j) →
  connectToDatabase = (Fatal, failed_attempts 1 5 ++ fatal_events).
Proof.
  unfold maxRetries. intros Hf. unfold connectToDatabase.
  change (Z.to_nat maxRetries) with (5 + 0)%nat.
  rewrite connect_from_failures
    by (unfold maxRetries; first [lia | intros; apply Hf; lia]).
  by rewrite connect_from_exhausted by (unfold maxRetries; lia).
Qed.

Lemma attempts_app tr1 tr2 : attempts (tr1 ++ tr2) = (attempts tr1 + attempts tr2)%nat.
Proof. unfold attempts. by rewrite filter_app, length_app. Qed.

Lemma sleeps_app tr1 tr2 : sleeps (tr1 ++ tr2) = sleeps tr1 ++ sleeps tr2.
Proof. unfold sleeps. apply omap_app. Qed.

Lemma attempts_failed_attempts n a : attempts (failed_attempts a n) = n.
Proof.
  revert a. induction n as [|n IH]; intros a; [done|].
  cbn [Connector.failed_attempts]. rewrite attempts_app, IH. done.
Qed.

Lemma sleeps_failed_attempts n a :
  sleeps (failed_attempts a n) = (λ i, backoff (a + Z.of_nat i)) <$> seq 0 n.
Proof.
  revert a. induction n as [|n IH]; intros a; [done|].
  cbn [Connector.failed_attempts]. rewrite sleeps_app, IH. cbn [seq fmap list_fmap].
  rewrite <- seq_shift, <- list_fmap_compose. 
  change (sleeps (failed_attempt os_Getenv gorm_Open a)) with [backoff a].
  simpl. rewrite Z.add_0_r. f_equal. apply list_fmap_ext. intros i x _. simpl.
  f_equal. lia.
Qed.

(** Every attempt either fails or succeeds. *)
Lemma fails_or_succeeds j : fails j ∨ ∃ h, gorm_Open j the_dsn = inr h.
Proof.
  unfold Connector.fails. destruct (gorm_Open j the_dsn) as [e|h]; eauto.
Qed.

(** The first success, if any, among attempts [1..n]. *)
Lemma first_success_or_none (n : nat) :
  (∀ j, 1 ≤ j ≤ Z.of_nat n → fails j) ∨
  (∃ k h, 1 ≤ k ≤ Z.of_nat n ∧ (∀ j, 1 ≤ j < k → fails j) ∧
          gorm_Open k the_dsn = inr h).
Proof.
  induction n as [|n [IH|(k & h & Hk & Hf & Hh)]].
  - left. intros j Hj. lia.
  - destruct (fails_or_succeeds (Z.of_nat (S n))) as [Hfail|[h Hh]].
    + left. intros j Hj. destruct (decide (j = Z.of_nat (S n))) as [->|]; [done|].
      apply IH. lia.
    + right. exists (Z.of_nat (S n)), h. split_and!; [lia|lia| |done].
      intros j Hj. apply IH. lia.
  - right. exists k, h. split_and!; [lia|lia|done|done].
Qed.

(** C1: [connectToDatabase] always ends, after at most 5 attempts.  When
    attempt [k] is the first to succeed it returns that attempt's handle
    after exactly [k] attempts, the success line being the last thing it
    does; when all 5 attempts fail it ends in the fatal exit after exactly
    5 attempts. There is no third way out. *)
Theorem connect_bounded_retry :
  let run := connectToDatabase in
  (attempts run.2 ≤ 5)%nat ∧
  ((∃ h, run.1 = Returned h) ∨ run.1 = Fatal) ∧
  (∀ k h, 1 ≤ k ≤ 5 → (∀ j, 1 ≤ j < k → fails j) →
          gorm_Open k the_dsn = inr h →
          run.1 = Returned h ∧ attempts run.2 = Z.to_nat k ∧
          run.2 = failed_attempts 1 (Z.to_nat (k - 1)) ++ success_events os_Getenv) ∧
  ((∀ j, 1 ≤ j ≤ 5 → fails j) →
   run.1 = Fatal ∧ attempts run.2 = 5%nat ∧
   run.2 = failed_attempts 1 5 ++ fatal_events).
Proof.
  intros run.
  assert (Hsucc : ∀ k h, 1 ≤ k ≤ 5 → (∀ j, 1 ≤ j < k → fails j) →
            gorm_Open k the_dsn = inr h →
            run.1 = Returned h ∧ attempts run.2 = Z.to_nat k ∧
            run.2 = failed_attempts 1 (Z.to_nat (k - 1)) ++ success_events os_Getenv).
  { intros k h Hk Hf Hh. subst run.
    rewrite (connect_first_success k h) by done. split_and!; [done| |done].
    cbn [snd]. rewrite attempts_app, attempts_failed_attempts.
    change (attempts (success_events os_Getenv)) with 1%nat. lia. }
  assert (Hfatal : (∀ j, 1 ≤ j ≤ 5 → fails j) →
            run.1 = Fatal ∧ attempts run.2 = 5%nat ∧
            run.2 = failed_attempts 1 5 ++ fatal_events).
  { intros Hf. subst run. rewrite connect_all_fail by done. split_and!; [done| |done].
    cbn [snd]. by rewrite attempts_app, attempts_failed_attempts. }
  split_and!; [| |done|done].
  - destruct (first_success_or_none 5) as [Hf|(k & h & Hk & Hf & Hh)].
    + destruct Hfatal as (_ & -> & _); [|done]. intros j Hj. apply Hf. lia.
    + destruct (Hsucc k h) as (_ & -> & _); [lia|done|done|lia].
  - destruct (first_success_or_none 5) as [Hf|(k & h & Hk & Hf & Hh)].
    + right. apply Hfatal. intros j Hj. apply Hf. lia.
    + left. exists h. apply (Hsucc k h); [lia|done|done].
Qed.

(** C2, as the code has it: the connector waits after every failed
    attempt, the last one included, attempt [j] being followed by a wait
    of [j * 2] seconds.  When attempt [k] is the first to succeed the
    waits are those of attempts [1..k-1] and nothing follows the success;
    when all 5 attempts fail the waits are 2s, 4s, 6s, 8s and 10s, and
    the 10s wait stands between the 5th failure and the fatal exit. *)
Theorem connect_waits_after_each_failure :
  let run := connectToDatabase in
  (∀ k h, 1 ≤ k ≤ 5 → (∀ j, 1 ≤ j < k → fails j) →
          gorm_Open k the_dsn = inr h →
          sleeps run.2 =
          (λ i, (1 + Z.of_nat i) * 2 * Second) <$> seq 0 (Z.to_nat (k - 1))) ∧
  ((∀ j, 1 ≤ j ≤ 5 → fails j) →
   sleeps run.2 = [2 * Second; 4 * Second; 6 * Second; 8 * Second; 10 * Second] ∧
   ∃ tr, run.2 = tr ++ [ESleep (10 * Second)] ++ fatal_events).
Proof.
  intros run. split.
  - intros k h Hk Hf Hh. subst run. rewrite (connect_first_success k h) by done.
    cbn [snd]. rewrite sleeps_app, sleeps_failed_attempts.
    change (sleeps (success_events os_Getenv)) with (@nil Z). rewrite app_nil_r.
    apply list_fmap_ext. intros i x Hi. apply lookup_seq in Hi as [-> Hi].
    apply backoff_small. lia.
  - intros Hf. subst run. rewrite connect_all_fail by done. cbn [snd]. split.
    + rewrite sleeps_app, sleeps_failed_attempts. done.
    + eexists (_ :: _ :: _ :: _ :: _ :: _ :: _ :: _ :: _ :: _ :: _ :: _ :: _ :: _ :: []).
      cbn [Connector.failed_attempts Connector.failed_attempt app]. done.
Qed.

End Facts.

(** C1 on a store that is reachable from the 3rd attempt on, and on one that
    never is. *)
Lemma connect_bounded_retry_witness :
  (connectToDatabase no_env (reachable_from 3)).1
    = Returned {| h_dsn := dsn no_env; h_call := 3 |} ∧
  attempts (connectToDatabase no_env (reachable_from 3)).2 = 3%nat ∧
  (connectToDatabase no_env never_reachable).1 = Fatal ∧
  attempts (connectToDatabase no_env never_reachable).2 = 5%nat.
Proof.
  destruct (connect_bounded_retry no_env (reachable_from 3)) as (_ & _ & H3 & _).
  destruct (connect_bounded_retry no_env never_reachable) as (_ & _ & _ & H5).
  destruct (H3 3 {| h_dsn := dsn no_env; h_call := 3 |}) as (? & ? & _).
  { lia. }
  { intros j Hj. exists "connection refused". unfold reachable_from.
    rewrite decide_False by lia. reflexivity. }
  { reflexivity. }
  destruct H5 as (? & ? & _).
  { intros j Hj. exists "connection refused". reflexivity. }
  split_and!; assumption.
Defined.

(** C2 as stated fails: when no attempt succeeds there are five waits, not
    four, and the fifth (10s) comes after the final failed attempt, right
    before the fatal exit. *)
Lemma connect_waits_after_final_attempt :
  sleeps (connectToDatabase no_env never_reachable).2
    ≠ [2 * Second; 4 * Second; 6 * Second; 8 * Second] ∧
  sleeps (connectToDatabase no_env never_reachable).2
    = [2 * Second; 4 * Second; 6 * Second; 8 * Second; 10 * Second] ∧
  drop 12 (connectToDatabase no_env never_reachable).2
    = [EOpen (dsn no_env);
       ELog "Database connection attempt 5/5 failed: connection refused";
       ESleep (10 * Second);
       ELog "Failed to connect to database after multiple attempts";
       EExit 1].
Proof. split_and!; [discriminate|reflexivity|reflexivity]. Qed.

(** The amended C2 on the same two stores. *)
Lemma connect_waits_after_each_failure_witness :
  sleeps (connectToDatabase no_env (reachable_from 3)).2 = [2 * Second; 4 * Second] ∧
  sleeps (connectToDatabase no_env never_reachable).2
    = [2 * Second; 4 * Second; 6 * Second; 8 * Second; 10 * Second].
Proof.
  destruct (connect_waits_after_each_failure no_env (reachable_from 3)) as (H3 & _).
  destruct (connect_waits_after_each_failure no_env never_reachable) as (_ & H5).
  split.
  - rewrite (H3 3 {| h_dsn := dsn no_env; h_call := 3 |}).
    + reflexivity.
    + lia.
    + intros j Hj. exists "connection refused". unfold reachable_from.
      rewrite decide_False by lia. reflexivity.
    + reflexivity.
  - apply H5. intros j Hj. exists "connection refused". reflexivity.
Defined.

End ConnectorFacts.

(** ** Running the handlers *)

(** Unfolds the monad down to functions of the world. *)
Ltac unfold_M :=
  unfold time_Now; unfold mbind, mret, M_bind, M_ret, get, modify.

Section Run.

Lemma bind_run {A B} (m : M A) (f : A → M B) σ :
  (m ≫= f) σ = f (m σ).1 (m σ).2.
Proof. unfold mbind, M_bind. by destruct (m σ). Qed.

Lemma next_fault_run σ : next_fault σ = (fault_of σ, after_call σ).
Proof. reflexivity. Qed.

Lemma todos_after_call σ : todos (after_call σ) = todos σ.
Proof. reflexivity. Qed.

Lemma clock_after_call σ : clock (after_call σ) = clock σ.
Proof. reflexivity. Qed.

Lemma fs_after_call σ : fs (after_call σ) = fs σ.
Proof. reflexivity. Qed.

Lemma Where_Updates_completed_run uuid v σ :
  gorm.Where_Updates_completed uuid v σ =
  match fault_of σ with
  | Some err => (Some err, after_call σ)
  | None => (None, with_todos (update_rows uuid (clock σ) v (todos σ)) (after_call σ))
  end.
Proof.
  unfold gorm.Where_Updates_completed. rewrite bind_run, next_fault_run.
  cbn [fst snd]. destruct (fault_of σ); unfold_M; reflexivity.
Qed.

Lemma Where_Delete_run uuid σ :
  gorm.Where_Delete uuid σ =
  match fault_of σ with
  | Some err => (Some err, after_call σ)
  | None => (None, with_todos (delete_rows uuid (clock σ) (todos σ)) (after_call σ))
  end.
Proof.
  unfold gorm.Where_Delete. rewrite bind_run, next_fault_run.
  cbn [fst snd]. destruct (fault_of σ); unfold_M; reflexivity.
Qed.

Lemma Where_First_run uuid dest σ :
  gorm.Where_First uuid dest σ =
  (match fault_of σ with
   | Some err => (Some err, dest)
   | None =>
       match gorm.first_by_id (filter (λ t, gorm.selected uuid t) (todos σ)) with
       | Some row => (None, row)
       | None => (Some gorm.ErrRecordNotFound, dest)
       end
   end, after_call σ).
Proof.
  unfold gorm.Where_First. rewrite bind_run, next_fault_run.
  cbn [fst snd]. destruct (fault_of σ); [unfold_M; reflexivity|].
  unfold_M. cbn beta iota zeta.
  destruct (gorm.first_by_id _); reflexivity.
Qed.

Lemma Find_run dest σ :
  gorm.Find dest σ =
  (match fault_of σ with
   | Some err => (Some err, dest)
   | None => (None, Some (filter (λ t, gorm.live t) (todos σ)))
   end, after_call σ).
Proof.
  unfold gorm.Find. rewrite bind_run, next_fault_run.
  cbn [fst snd]. destruct (fault_of σ); unfold_M; reflexivity.
Qed.

Lemma Create_run todo σ :
  let todo1 := stamped (clock σ) todo in
  let id := id_for σ todo in
  let σ1 := after_call σ in
  let σ2 := if decide (ID (Model todo) = 0)
            then with_todos_id_seq (todos_id_seq σ + 1) σ1 else σ1 in
  let row := with_Model (with_ID id (Model todo1)) todo1 in
  gorm.Create todo σ =
  match fault_of σ with
  | Some err => (Some err, todo1, σ1)
  | None =>
      if bool_decide (Exists (λ r, ID (Model r) = id) (todos σ))
      then (Some (gorm.duplicate_key "todos_pkey"), todo1, σ2)
      else if bool_decide (Exists (λ r, UUID r = UUID todo) (todos σ))
      then (Some (gorm.duplicate_key "uni_todos_uuid"), todo1, σ2)
      else (None, row, with_todos (todos σ ++ [row]) σ2)
  end.
Proof.
  intros todo1 id σ1 σ2 row. subst todo1 id σ1 σ2 row.
  unfold gorm.Create, id_for, stamped. unfold_M. cbn beta iota zeta.
  rewrite next_fault_run. destruct (fault_of σ); [reflexivity|].
  cbn beta iota zeta.
  replace (ID (if decide (UpdatedAt (if decide (CreatedAt (Model todo) = 0)
                                     then with_CreatedAt (clock σ) (Model todo)
                                     else Model todo) = 0)
               then with_UpdatedAt (clock σ)
                      (if decide (CreatedAt (Model todo) = 0)
                       then with_CreatedAt (clock σ) (Model todo) else Model todo)
               else if decide (CreatedAt (Model todo) = 0)
                    then with_CreatedAt (clock σ) (Model todo) else Model todo))
    with (ID (Model todo)) by (repeat case_decide; reflexivity).
  change (todos (after_call σ)) with (todos σ).
  change (todos_id_seq (after_call σ)) with (todos_id_seq σ).
  cbn [UUID with_Model].
  destruct (decide (ID (Model todo) = 0)); cbn beta iota zeta;
    change (todos (with_todos_id_seq (todos_id_seq σ + 1) (after_call σ)))
      with (todos σ);
    repeat case_bool_decide; reflexivity.
Qed.

Lemma createTodo_run w r σ :
  createTodo w r σ =
  match (json_Decode (body r) zero_Todo).1 with
  | Some err => (http_Error w err StatusBadRequest, σ)
  | None =>
      let σ0 := with_entropy_taken (entropy_taken σ + 16)%nat σ in
      let res := gorm.Create (requested r σ) σ0 in
      match res.1.1 with
      | Some err => (http_Error w err StatusInternalServerError, res.2)
      | None =>
          (json_Encode
             (WriteHeader StatusCreated
                (Header_Set "Content-Type" "application/json" w))
             (json_of_Todo res.1.2), res.2)
      end
  end.
Proof.
  unfold createTodo, requested.
  destruct (json_Decode (body r) zero_Todo) as [[err|] todo]; [reflexivity|].
  cbn [fst snd]. rewrite bind_run. rewrite bind_run.
  change ((uuid_New σ).2) with (with_entropy_taken (entropy_taken σ + 16)%nat σ).
  destruct (gorm.Create _ _) as [[[err|] todo'] σ']; reflexivity.
Qed.

Lemma getAllTodos_run w r σ :
  getAllTodos w r σ =
  (match fault_of σ with
   | Some err => http_Error w err StatusInternalServerError
   | None =>
       json_Encode (Header_Set "Content-Type" "application/json" w)
         (json_of_slice json_of_Todo (Some (filter (λ t, gorm.live t) (todos σ))))
   end, after_call σ).
Proof.
  unfold getAllTodos. rewrite bind_run, Find_run. cbn [fst snd].
  destruct (fault_of σ); reflexivity.
Qed.

Lemma getTodo_run w r σ :
  getTodo w r σ =
  (match fault_of σ with
   | Some err => http_Error w err StatusNotFound
   | None =>
       match find_row (var r "uuid") (todos σ) with
       | Some row =>
           json_Encode (Header_Set "Content-Type" "application/json" w)
             (json_of_Todo row)
       | None => http_Error w gorm.ErrRecordNotFound StatusNotFound
       end
   end, after_call σ).
Proof.
  unfold getTodo, find_row. rewrite bind_run, Where_First_run. cbn [fst snd].
  destruct (fault_of σ); [reflexivity|]. destruct (gorm.first_by_id _); reflexivity.
Qed.

Lemma updateTodo_run w r σ :
  updateTodo w r σ =
  match json_Decode (body r) zero_Todo with
  | (Some err, _) => (http_Error w err StatusBadRequest, σ)
  | (None, updatedTodo) =>
      match fault_of σ with
      | Some err => (http_Error w err StatusInternalServerError, after_call σ)
      | None =>
          let σ1 := with_todos
                      (update_rows (var r "uuid") (clock σ) (Completed updatedTodo)
                         (todos σ)) (after_call σ) in
          let todo := match fault_of σ1 with
                      | Some _ => zero_Todo
                      | None => default zero_Todo (find_row (var r "uuid") (todos σ1))
                      end in
          (json_Encode (Header_Set "Content-Type" "application/json" w)
             (json_of_Todo todo), after_call σ1)
      end
  end.
Proof.
  unfold updateTodo, find_row.
  destruct (json_Decode (body r) zero_Todo) as [[err|] updatedTodo]; [reflexivity|].
  rewrite bind_run, Where_Updates_completed_run.
  destruct (fault_of σ); [reflexivity|]. cbn [fst snd].
  rewrite bind_run, Where_First_run. cbn [fst snd]. cbn zeta.
  destruct (fault_of _); [reflexivity|]. destruct (gorm.first_by_id _); reflexivity.
Qed.

Lemma deleteTodo_run w r σ :
  deleteTodo w r σ =
  match fault_of σ with
  | Some err => (http_Error w err StatusInternalServerError, after_call σ)
  | None =>
      (WriteHeader StatusNoContent w,
       with_todos (delete_rows (var r "uuid") (clock σ) (todos σ)) (after_call σ))
  end.
Proof.
  unfold deleteTodo. rewrite bind_run, Where_Delete_run.
  destruct (fault_of σ); reflexivity.
Qed.

Lemma os_Create_run name σ :
  os.Create name σ =
  match fault_of σ with
  | Some err => (Some err, after_call σ)
  | None =>
      match fs σ !! name with
      | Some Directory => (Some (os.PathError "open" name os.EISDIR), after_call σ)
      | _ =>
          match fs σ !! filepath.Dir name with
          | Some Directory =>
              (None, with_fs (<[name := File []]> (fs σ)) (after_call σ))
          | Some (File _) => (Some (os.PathError "open" name os.ENOTDIR), after_call σ)
          | None => (Some (os.PathError "open" name os.ENOENT), after_call σ)
          end
      end
  end.
Proof.
  unfold os.Create. rewrite bind_run, next_fault_run. cbn [fst snd].
  destruct (fault_of σ); [reflexivity|]. unfold_M. cbn beta iota zeta.
  change (fs (after_call σ)) with (fs σ).
  destruct (fs σ !! name) as [[|data]|];
    [reflexivity|destruct (fs σ !! filepath.Dir name) as [[|?]|]; reflexivity..].
Qed.

Lemma os_Copy_to_run name src σ :
  os.Copy_to name src σ =
  match fault_of σ with
  | Some err => (Some err, after_call σ)
  | None =>
      match fs σ !! name with
      | Some (File old) =>
          (None, with_fs (<[name := File (old ++ src)]> (fs σ)) (after_call σ))
      | _ => (None, after_call σ)
      end
  end.
Proof.
  unfold os.Copy_to. rewrite bind_run, next_fault_run. cbn [fst snd].
  destruct (fault_of σ); [reflexivity|]. unfold_M. cbn beta iota zeta.
  change (fs (after_call σ)) with (fs σ).
  destruct (fs σ !! name) as [[|data]|]; reflexivity.
Qed.

Lemma os_ReadDir_run name σ :
  os.ReadDir name σ =
  (match fault_of σ with
   | Some err => inl err
   | None =>
       match fs σ !! name with
       | Some Directory => inr (merge_sort os.by_name (os.children name (fs σ)))
       | Some (File _) => inl (os.PathError "readdirent" name os.ENOTDIR)
       | None => inl (os.PathError "open" name os.ENOENT)
       end
   end, after_call σ).
Proof.
  unfold os.ReadDir. rewrite bind_run, next_fault_run. cbn [fst snd].
  destruct (fault_of σ); [reflexivity|]. unfold_M. cbn beta iota zeta.
  change (fs (after_call σ)) with (fs σ).
  destruct (fs σ !! name) as [[|data]|]; reflexivity.
Qed.

Lemma os_Open_run name σ :
  os.Open name σ =
  (match fault_of σ with
   | Some err => inl err
   | None =>
       match fs σ !! name with
       | Some n => inr n
       | None => inl (os.PathError "open" name os.ENOENT)
       end
   end, after_call σ).
Proof.
  unfold os.Open. rewrite bind_run, next_fault_run. cbn [fst snd].
  destruct (fault_of σ); [reflexivity|]. unfold_M. cbn beta iota zeta.
  change (fs (after_call σ)) with (fs σ).
  destruct (fs σ !! name); reflexivity.
Qed.

Lemma os_Remove_run name σ :
  os.Remove name σ =
  match fault_of σ with
  | Some err => (Some err, after_call σ)
  | None =>
      match fs σ !! name with
      | None => (Some (os.PathError "remove" name os.ENOENT), after_call σ)
      | Some n =>
          if decide (n = Directory ∧ os.children name (fs σ) ≠ [])
          then (Some (os.PathError "remove" name os.ENOTEMPTY), after_call σ)
          else (None, with_fs (delete name (fs σ)) (after_call σ))
      end
  end.
Proof.
  unfold os.Remove. rewrite bind_run, next_fault_run. cbn [fst snd].
  destruct (fault_of σ); [reflexivity|]. unfold_M. cbn beta iota zeta.
  change (fs (after_call σ)) with (fs σ).
  destruct (fs σ !! name); [|reflexivity]. case_decide; reflexivity.
Qed.

Lemma uploadFile_run w r σ :
  uploadFile w r σ =
  match Request_FormFile r "file" with
  | inl err => (http_Error w err StatusBadRequest, σ)
  | inr file =>
      let filePath := upload_path (clock σ) (Filename file) in
      let created := os.Create filePath σ in
      match created.1 with
      | Some err => (http_Error w err StatusInternalServerError, created.2)
      | None =>
          let copied := os.Copy_to filePath (content file) created.2 in
          match copied.1 with
          | Some err => (http_Error w err StatusInternalServerError, copied.2)
          | None =>
              (json_Encode
                 (WriteHeader StatusCreated
                    (Header_Set "Content-Type" "application/json" w))
                 (JObj [("file_path", JStr filePath)]), copied.2)
          end
      end
  end.
Proof.
  unfold uploadFile, upload_path.
  destruct (Request_FormFile r "file") as [err|file]; [reflexivity|].
  rewrite bind_run. change (time_Now σ) with (clock σ, σ). cbn [fst snd].
  rewrite bind_run. cbn zeta.
  destruct (os.Create _ σ) as [[err|] σ1]; [reflexivity|]. cbn [fst snd].
  rewrite bind_run. destruct (os.Copy_to _ _ σ1) as [[err|] σ2]; reflexivity.
Qed.

Lemma listFiles_run w r σ :
  listFiles w r σ =
  (match (os.ReadDir uploadDir σ).1 with
   | inl err => http_Error w err StatusInternalServerError
   | inr files =>
       json_Encode (Header_Set "Content-Type" "application/json" w)
         (json_of_slice JStr (file_names files))
   end, after_call σ).
Proof.
  unfold listFiles, file_names. rewrite bind_run, os_ReadDir_run. cbn [fst snd].
  destruct (match fault_of σ with Some _ => _ | None => _ end); reflexivity.
Qed.

Lemma downloadFile_run w r σ :
  downloadFile w r σ =
  (match (os.Open (filepath.Join ["/app/uploads"; var r "filename"]) σ).1 with
   | inl err => http_Error w "File not found" StatusNotFound
   | inr file =>
       let w := Header_Set "Content-Disposition"
                  ("attachment; filename=" +:+ var r "filename") w in
       let w := Header_Set "Content-Type" "application/octet-stream" w in
       match file with
       | File (b :: data) => Write (Bytes (b :: data)) w
       | _ => w
       end
   end, after_call σ).
Proof.
  unfold downloadFile. rewrite bind_run, os_Open_run. cbn [fst snd].
  destruct (match fault_of σ with Some _ => _ | None => _ end) as [err|[|[|b data]]];
    reflexivity.
Qed.

Lemma deleteFile_run w r σ :
  deleteFile w r σ =
  let removed := os.Remove (filepath.Join ["/app/uploads"; var r "filename"]) σ in
  (match removed.1 with
   | Some err => http_Error w err StatusInternalServerError
   | None => WriteHeader StatusOK w
   end, removed.2).
Proof.
  unfold deleteFile. rewrite bind_run. cbn zeta.
  destruct (os.Remove _ σ) as [[err|] σ1]; reflexivity.
Qed.

End Run.

(** ** The table under the todo handlers *)

Section Table.

Lemma selected_updated uuid now v t :
  gorm.selected uuid (updated now v t) = gorm.selected uuid t.
Proof. reflexivity. Qed.

Lemma update_rows_lookup uuid now v rows i :
  update_rows uuid now v rows !! i =
  (λ t, if gorm.selected uuid t then updated now v t else t) <$> rows !! i.
Proof. unfold update_rows. apply list_lookup_fmap. Qed.

(** No row selected: the statement changes nothing. *)
Lemma update_rows_none uuid now v rows :
  (∀ t, t ∈ rows → gorm.selected uuid t = false) →
  update_rows uuid now v rows = rows.
Proof.
  intros H. unfold update_rows. rewrite <- (list_fmap_id rows) at 2.
  apply list_fmap_ext. intros i t Hi. rewrite H; [done|].
  by eapply list_elem_of_lookup_2.
Qed.

Lemma delete_rows_none uuid now rows :
  (∀ t, t ∈ rows → gorm.selected uuid t = false) →
  delete_rows uuid now rows = rows.
Proof.
  intros H. unfold delete_rows. rewrite <- (list_fmap_id rows) at 2.
  apply list_fmap_ext. intros i t Hi. rewrite H; [done|].
  by eapply list_elem_of_lookup_2.
Qed.

Lemma find_row_none uuid rows :
  (∀ t, t ∈ rows → gorm.selected uuid t = false) → find_row uuid rows = None.
Proof.
  intros H. unfold find_row.
  replace (filter (λ t, gorm.selected uuid t) rows) with (@nil Todo); [done|].
  symmetry. induction rows as [|t rows IH]; [done|].
  rewrite filter_cons. rewrite (H t) by left. simpl.
  apply IH. intros t' Ht'. apply H. by right.
Qed.

Lemma update_rows_frame uuid now v rows :
  Forall2 same_but_completed rows (update_rows uuid now v rows).
Proof.
  unfold update_rows. induction rows as [|t rows IH]; [constructor|].
  simpl. constructor; [|exact IH].
  destruct (gorm.selected uuid t); repeat split.
Qed.

Lemma same_but_completed_refl rows : Forall2 same_but_completed rows rows.
Proof. induction rows; constructor; [repeat split|done]. Qed.

(** An update touches neither the uuids nor the deletion marks. *)
Lemma live_updated uuid now v t :
  gorm.live (if gorm.selected uuid t then updated now v t else t) = gorm.live t.
Proof. by destruct (gorm.selected uuid t). Qed.

Lemma live_uuids_update_rows uuid now v rows :
  live_uuids (update_rows uuid now v rows) = live_uuids rows.
Proof.
  unfold live_uuids, update_rows. induction rows as [|t rows IH]; [done|].
  rewrite fmap_cons, !filter_cons, live_updated.
  destruct (decide (gorm.live t)); [|exact IH].
  rewrite !fmap_cons, IH. f_equal. by destruct (gorm.selected uuid t).
Qed.

(** A delete can only take uuids away from the live rows. *)
Lemma live_uuids_delete_rows uuid now rows :
  sublist (live_uuids (delete_rows uuid now rows)) (live_uuids rows).
Proof.
  unfold live_uuids, delete_rows. induction rows as [|t rows IH]; [done|].
  rewrite fmap_cons, !filter_cons.
  destruct (gorm.selected uuid t) eqn:Hsel.
  - rewrite decide_False by (by intros []).
    apply andb_true_iff in Hsel as [_ Hlive].
    rewrite decide_True by (by apply Is_true_true).
    rewrite fmap_cons. by apply sublist_cons.
  - destruct (decide (gorm.live t)); [|exact IH].
    rewrite !fmap_cons. by apply sublist_skip.
Qed.

Lemma live_uuids_snoc rows row :
  live_uuids (rows ++ [row]) =
  live_uuids rows ++ (if gorm.live row then [UUID row] else []).
Proof.
  unfold live_uuids. rewrite filter_app, fmap_app. f_equal.
  rewrite filter_cons. by destruct (gorm.live row).
Qed.

Lemma live_uuids_subseteq rows : live_uuids rows ⊆ UUID <$> rows.
Proof.
  unfold live_uuids. intros u Hu. apply list_elem_of_fmap in Hu as (t & -> & Ht).
  apply list_elem_of_fmap. exists t. split; [done|].
  by apply list_elem_of_filter in Ht as [_ Ht].
Qed.

Lemma uuid_unique_update_rows uuid now v rows :
  uuid_unique rows → uuid_unique (update_rows uuid now v rows).
Proof. unfold uuid_unique. by rewrite live_uuids_update_rows. Qed.

Lemma uuid_unique_delete_rows uuid now rows :
  uuid_unique rows → uuid_unique (delete_rows uuid now rows).
Proof.
  unfold uuid_unique. intros H.
  exact (sublist_NoDup _ _ H (live_uuids_delete_rows uuid now rows)).
Qed.

Lemma uuid_unique_snoc rows row :
  UUID row ∉ UUID <$> rows → uuid_unique rows → uuid_unique (rows ++ [row]).
Proof.
  unfold uuid_unique. intros Hfresh H. rewrite live_uuids_snoc.
  destruct (gorm.live row); [|by rewrite app_nil_r].
  apply NoDup_app. split_and!; [done| |apply NoDup_singleton].
  intros u Hu Hu'. apply list_elem_of_singleton in Hu' as ->.
  apply Hfresh. by apply live_uuids_subseteq.
Qed.

End Table.

(** ** The table under the file handlers *)

Section FilesLeaveTable.

Lemma todos_os_Create name σ : todos (os.Create name σ).2 = todos σ.
Proof.
  rewrite os_Create_run. destruct (fault_of σ); [done|].
  destruct (fs σ !! name) as [[|?]|]; [done|..];
    destruct (fs σ !! filepath.Dir name) as [[|?]|]; done.
Qed.

Lemma todos_os_Copy_to name src σ : todos (os.Copy_to name src σ).2 = todos σ.
Proof.
  rewrite os_Copy_to_run. destruct (fault_of σ); [done|].
  destruct (fs σ !! name) as [[|?]|]; done.
Qed.

Lemma todos_os_Remove name σ : todos (os.Remove name σ).2 = todos σ.
Proof.
  rewrite os_Remove_run. destruct (fault_of σ); [done|].
  destruct (fs σ !! name); [|done]. case_decide; done.
Qed.

Lemma todos_uploadFile w r σ : todos (uploadFile w r σ).2 = todos σ.
Proof.
  rewrite uploadFile_run. destruct (Request_FormFile r "file") as [err|file]; [done|].
  cbn zeta. destruct (os.Create _ σ).1 eqn:Hc.
  - apply todos_os_Create.
  - destruct (os.Copy_to _ _ _).1; cbn [snd];
      by rewrite todos_os_Copy_to, todos_os_Create.
Qed.

Lemma todos_listFiles w r σ : todos (listFiles w r σ).2 = todos σ.
Proof. by rewrite listFiles_run. Qed.

Lemma todos_downloadFile w r σ : todos (downloadFile w r σ).2 = todos σ.
Proof. by rewrite downloadFile_run. Qed.

Lemma todos_deleteFile w r σ : todos (deleteFile w r σ).2 = todos σ.
Proof. rewrite deleteFile_run. apply todos_os_Remove. Qed.

End FilesLeaveTable.

(** ** Todo handlers *)

Module TodoFacts.

Lemma json_Decode_JSONObject f :
  json_Decode (JSONObject f) zero_Todo =
  (None, (json_Decode (JSONObject f) zero_Todo).2).
Proof. reflexivity. Qed.

(** What [Decode] leaves in [completed]: the body's value, [false] without one. *)
Lemma json_Decode_Completed f :
  Completed (json_Decode (JSONObject f) zero_Todo).2 = default false (f_completed f).
Proof. destruct f as [? ? ? ? [?|] [?|] [?|] [?|] [?|]]; reflexivity. Qed.

(** The table after an update request. *)
Lemma updateTodo_todos w r σ :
  todos (updateTodo w r σ).2 =
  match body r with
  | BadJSON _ => todos σ
  | JSONObject f =>
      match fault_of σ with
      | Some _ => todos σ
      | None =>
          update_rows (var r "uuid") (clock σ) (default false (f_completed f)) (todos σ)
      end
  end.
Proof.
  rewrite updateTodo_run. destruct (body r) as [err|f]; [done|].
  rewrite json_Decode_JSONObject, json_Decode_Completed.
  destruct (fault_of σ); done.
Qed.

(** The table after a delete request. *)
Lemma deleteTodo_todos w r σ :
  todos (deleteTodo w r σ).2 =
  match fault_of σ with
  | Some _ => todos σ
  | None => delete_rows (var r "uuid") (clock σ) (todos σ)
  end.
Proof. rewrite deleteTodo_run. destruct (fault_of σ); done. Qed.

(** C3: an update request leaves [uuid], [title], [description] and
    [file_path] of every stored row as they were (and the id, the creation
    time and the deletion mark with them), whatever the request body holds.
    On an existing todo, with a parseable body and a write that does not
    fail, the row's [completed] becomes the body's value; rows with another
    uuid do not change at all. *)
Theorem updateTodo_changes_completed_only (r : Request) (σ : World) :
  let σ' := (serve PUT_todos_uuid r σ).2 in
  Forall2 same_but_completed (todos σ) (todos σ') ∧
  (∀ i t, todos σ !! i = Some t → gorm.selected (var r "uuid") t = false →
          todos σ' !! i = Some t) ∧
  (∀ f i t, body r = JSONObject f → next_call_ok σ →
            todos σ !! i = Some t → gorm.selected (var r "uuid") t = true →
            ∃ t', todos σ' !! i = Some t' ∧
                  Completed t' = default false (f_completed f) ∧
                  UUID t' = UUID t ∧ Title t' = Title t ∧
                  Description t' = Description t ∧ FilePath t' = FilePath t).
Proof.
  intros σ'. subst σ'. unfold serve, route. rewrite updateTodo_todos.
  split_and!.
  - destruct (body r); [apply same_but_completed_refl|].
    destruct (fault_of σ); [apply same_but_completed_refl|apply update_rows_frame].
  - intros i t Hi Hsel. destruct (body r); [done|]. destruct (fault_of σ); [done|].
    by rewrite update_rows_lookup, Hi; simpl; rewrite Hsel.
  - intros f i t -> Hok Hi Hsel. rewrite Hok.
    rewrite update_rows_lookup, Hi. simpl. rewrite Hsel. eexists. split; [done|].
    by repeat split.
Qed.

(** C7: a delete request whose storage call does not fail answers
    [204 No Content] with an empty body, whether or not a row had the uuid;
    when no row has it the table is left as it was. *)
Theorem deleteTodo_no_content (r : Request) (σ : World) :
  next_call_ok σ →
  let res := serve DELETE_todos_uuid r σ in
  status res.1 = Some StatusNoContent ∧ written res.1 = [] ∧
  ((∀ t, t ∈ todos σ → gorm.selected (var r "uuid") t = false) →
   todos res.2 = todos σ).
Proof.
  intros Hok res. subst res. unfold serve, route. rewrite deleteTodo_run, Hok.
  split_and!; [done..|]. intros Hnone. cbn [snd with_todos todos].
  by apply delete_rows_none.
Qed.

(** C10: an update request whose uuid matches no stored row, with a
    parseable body and a write that does not fail, is answered [200] with
    the zero-value todo as body; the table is left as it was.  The outcome of
    the read after the write plays no part: a read by the same uuid through
    [getTodo] is answered [404]. *)
Theorem updateTodo_unknown_uuid (r : Request) (σ : World) (f : TodoFields) :
  body r = JSONObject f →
  next_call_ok σ →
  (∀ t, t ∈ todos σ → gorm.selected (var r "uuid") t = false) →
  let res := serve PUT_todos_uuid r σ in
  status res.1 = Some StatusOK ∧
  written res.1 = [Json (json_of_Todo zero_Todo)] ∧
  json_of_Todo zero_Todo =
    JObj [("ID", JNum 0); ("CreatedAt", JTime 0); ("UpdatedAt", JTime 0);
          ("DeletedAt", JNull); ("uuid", JStr EmptyString);
          ("title", JStr EmptyString); ("description", JStr EmptyString);
          ("completed", JBool false)] ∧
  header res.1 !! "Content-Type" = Some "application/json" ∧
  todos res.2 = todos σ ∧
  status (serve GET_todos_uuid r σ).1 = Some StatusNotFound.
Proof.
  intros Hbody Hok Hnone res. subst res. unfold serve, route.
  rewrite updateTodo_run, getTodo_run, Hbody, json_Decode_JSONObject, Hok.
  cbn zeta. cbn [fst snd with_todos todos after_call with_faults].
  rewrite update_rows_none by done. rewrite !find_row_none by done.
  split_and!; [|  |done|..|done|done].
  - by destruct (fault_of _).
  - by destruct (fault_of _).
  - by destruct (fault_of _).
Qed.

Lemma status_http_Error_new err code :
  status (http_Error new_ResponseWriter err code) = Some code.
Proof. reflexivity. Qed.

Lemma not_Exists_uuid (u : string) (rows : list Todo) :
  ¬ Exists (λ r, UUID r = u) rows → u ∉ UUID <$> rows.
Proof.
  intros H Hin. apply H. apply list_elem_of_fmap in Hin as (t & -> & Ht).
  apply Exists_exists. by exists t.
Qed.

(** A create request either leaves the table alone and answers something
    other than [201], or answers [201] and appends the row it returns. *)
Lemma createTodo_cases (r : Request) (σ : World) :
  let res := serve POST_todos r σ in
  (status res.1 ≠ Some StatusCreated ∧ todos res.2 = todos σ) ∨
  (status res.1 = Some StatusCreated ∧
   (json_Decode (body r) zero_Todo).1 = None ∧
   ∃ row, todos res.2 = todos σ ++ [row] ∧
          written res.1 = [Json (json_of_Todo row)] ∧
          UUID row = UUID (requested r σ) ∧
          Completed row = Completed (requested r σ) ∧
          UUID row ∉ UUID <$> todos σ).
Proof.
  intros res. subst res. unfold serve, route. rewrite createTodo_run.
  destruct (json_Decode (body r) zero_Todo).1 as [err|] eqn:Hdec.
  { left. cbn [fst snd]. by rewrite status_http_Error_new. }
  cbn zeta. rewrite Create_run. cbn zeta.
  change (fault_of (with_entropy_taken _ σ)) with (fault_of σ).
  change (todos (with_entropy_taken (entropy_taken σ + 16) σ)) with (todos σ).
  destruct (fault_of σ) as [err|].
  { left. cbn [fst snd]. by rewrite status_http_Error_new. }
  case_bool_decide as Hid.
  { left. cbn [fst snd]. rewrite status_http_Error_new. split; [done|].
    by case_decide. }
  case_bool_decide as Huuid.
  { left. cbn [fst snd]. rewrite status_http_Error_new. split; [done|].
    by case_decide. }
  right. cbn [fst snd]. split_and!; [done..|].
  eexists. split_and!; [by case_decide|done|done|done|].
  cbn [UUID with_Model stamped]. by apply not_Exists_uuid.
Qed.

(** C4 as stated fails: a body that says [completed: true] is stored and
    returned with [completed = true]. *)
Lemma createTodo_keeps_completed_true :
  status (serve POST_todos completed_request fresh_world).1 = Some StatusCreated ∧
  Completed <$> todos (serve POST_todos completed_request fresh_world).2 = [true] ∧
  written (serve POST_todos completed_request fresh_world).1 =
    [Json (JObj [("ID", JNum 1);
                 ("CreatedAt", JTime (clock fresh_world));
                 ("UpdatedAt", JTime (clock fresh_world));
                 ("DeletedAt", JNull);
                 ("uuid", JStr "0b30557a-9fc4-490e-b358-7da2c7ec1136");
                 ("title", JStr "Buy milk"); ("description", JStr "2%");
                 ("completed", JBool true)])].
Proof. split_and!; vm_compute; reflexivity. Qed.

(** C4, as the code has it: the row a successful create persists and returns
    has the [completed] of the request body, and [false] when the body has
    no such field. *)
Theorem createTodo_completed_from_body (r : Request) (σ : World) (f : TodoFields) :
  body r = JSONObject f →
  let res := serve POST_todos r σ in
  status res.1 = Some StatusCreated →
  ∃ row, todos res.2 = todos σ ++ [row] ∧
         written res.1 = [Json (json_of_Todo row)] ∧
         Completed row = default false (f_completed f) ∧
         (f_completed f = None → Completed row = false).
Proof.
  intros Hbody res Hstatus. subst res.
  destruct (createTodo_cases r σ) as [[Hne _]|(_ & _ & row & Ht & Hw & _ & Hc & _)];
    [done|].
  exists row. split_and!; [done|done| |].
  - rewrite Hc. unfold requested. rewrite Hbody. cbn [Completed with_UUID].
    apply json_Decode_Completed.
  - intros Hnone. rewrite Hc. unfold requested. rewrite Hbody.
    cbn [Completed with_UUID]. by rewrite json_Decode_Completed, Hnone.
Qed.

(** The uuid of a create request is 36 characters long. *)
Lemma requested_uuid_length (r : Request) (σ : World) :
  String.length (UUID (requested r σ)) = 36%nat.
Proof. reflexivity. Qed.

Lemma requested_uuid (r : Request) (σ : World) :
  UUID (requested r σ) = uuid.String (uuid_New σ).1.
Proof. reflexivity. Qed.

(** Every handler keeps the uuids of the live rows distinct. *)
Lemma serve_uuid_unique (rt : Route) (r : Request) (σ : World) :
  uuid_unique (todos σ) → uuid_unique (todos (serve rt r σ).2).
Proof.
  intros Hinv. destruct rt; unfold serve, route.
  - pose proof (createTodo_cases r σ) as Hc. unfold serve, route in Hc.
    destruct Hc as [[_ ->]|(_ & _ & row & -> & _ & _ & _ & Hfresh)]; [done|].
    by apply uuid_unique_snoc.
  - by rewrite getAllTodos_run.
  - by rewrite getTodo_run.
  - rewrite updateTodo_todos. destruct (body r); [done|].
    destruct (fault_of σ); [done|]. by apply uuid_unique_update_rows.
  - rewrite deleteTodo_todos. destruct (fault_of σ); [done|].
    by apply uuid_unique_delete_rows.
  - by rewrite todos_uploadFile.
  - by rewrite todos_listFiles.
  - by rewrite todos_downloadFile.
  - by rewrite todos_deleteFile.
Qed.

(** C5: every successful create stores and returns a row under the uuid the
    server generates, whatever the body says: the uuid is the 36-character
    text of a fresh random UUID, so it is not empty, and no row of the table
    had it before.  Every handler keeps the invariant that no two rows that
    are not deleted share a uuid. *)
Theorem create_uuid_generated_and_unique :
  (∀ (r : Request) (σ : World),
     let res := serve POST_todos r σ in
     status res.1 = Some StatusCreated →
     ∃ row, todos res.2 = todos σ ++ [row] ∧
            written res.1 = [Json (json_of_Todo row)] ∧
            UUID row = uuid.String (uuid_New σ).1 ∧
            String.length (UUID row) = 36%nat ∧
            UUID row ≠ EmptyString ∧
            UUID row ∉ UUID <$> todos σ) ∧
  (∀ (rt : Route) (r : Request) (σ : World),
     uuid_unique (todos σ) → uuid_unique (todos (serve rt r σ).2)).
Proof.
  split; [|exact serve_uuid_unique].
  intros r σ res Hstatus. subst res.
  destruct (createTodo_cases r σ) as [[Hne _]|(_ & _ & row & Ht & Hw & Hu & _ & Hfresh)];
    [done|].
  exists row. split_and!; [done|done|by rewrite Hu|by rewrite Hu| |done].
  intros Hempty. pose proof (requested_uuid_length r σ) as Hlen.
  by rewrite <- Hu, Hempty in Hlen.
Qed.

(** No row of the sample table is selected by the uuid [unknown]. *)
Lemma unknown_not_selected t :
  t ∈ todos stocked_world → gorm.selected "unknown" t = false.
Proof.
  intros Ht. change (todos stocked_world) with [milk; bread] in Ht.
  repeat (apply elem_of_cons in Ht as [->|Ht]; [reflexivity|]).
  inversion Ht.
Qed.

(** C3 on the sample table: completing the todo [milk], with a body that
    also carries another uuid and another title. *)
Lemma updateTodo_changes_completed_only_witness :
  let σ' := (serve PUT_todos_uuid (update_request (UUID milk) true) stocked_world).2 in
  Forall2 same_but_completed (todos stocked_world) (todos σ') ∧
  (∃ t', todos σ' !! 0%nat = Some t' ∧ Completed t' = true ∧
         UUID t' = UUID milk ∧ Title t' = "Buy milk" ∧
         Description t' = "2%" ∧ FilePath t' = EmptyString) ∧
  todos σ' !! 1%nat = Some bread.
Proof.
  destruct (updateTodo_changes_completed_only
              (update_request (UUID milk) true) stocked_world) as (H1 & H2 & H3).
  split_and!.
  - exact H1.
  - destruct (H3 _ 0%nat milk eq_refl eq_refl eq_refl eq_refl)
      as (t' & Ht' & Hc & Hu & Hti & Hd & Hf).
    exists t'. split_and!; assumption.
  - apply (H2 1%nat bread); reflexivity.
Defined.

(** C7 on the sample table: deleting a uuid that no row has. *)
Lemma deleteTodo_no_content_witness :
  let res := serve DELETE_todos_uuid (with_var "uuid" "unknown" a_request) stocked_world in
  status res.1 = Some StatusNoContent ∧ written res.1 = [] ∧
  todos res.2 = [milk; bread].
Proof.
  destruct (deleteTodo_no_content (with_var "uuid" "unknown" a_request) stocked_world)
    as (H1 & H2 & H3).
  { reflexivity. }
  split_and!; [exact H1|exact H2|].
  apply H3. exact unknown_not_selected.
Defined.

(** C10 on the sample table: updating a uuid that no row has. *)
Lemma updateTodo_unknown_uuid_witness :
  let res := serve PUT_todos_uuid (update_request "unknown" true) stocked_world in
  status res.1 = Some StatusOK ∧
  written res.1 = [Json (json_of_Todo zero_Todo)] ∧
  todos res.2 = [milk; bread].
Proof.
  destruct (updateTodo_unknown_uuid (update_request "unknown" true) stocked_world _
              eq_refl eq_refl unknown_not_selected)
    as (H1 & H2 & _ & _ & H3 & _).
  split_and!; assumption.
Defined.

(** The amended C4 on a fresh server: a body without [completed]. *)
Lemma createTodo_completed_from_body_witness :
  ∃ row, todos (serve POST_todos a_request fresh_world).2 = [row] ∧
         Completed row = false.
Proof.
  destruct (createTodo_completed_from_body a_request fresh_world no_fields eq_refl)
    as (row & Ht & _ & Hc & _).
  { vm_compute. reflexivity. }
  exists row. split; assumption.
Defined.

(** C5 on the samples: a create on a fresh server, and a delete of [milk]
    from the sample table. *)
Lemma create_uuid_generated_and_unique_witness :
  (∃ row, todos (serve POST_todos completed_request fresh_world).2 = [row] ∧
          UUID row = "0b30557a-9fc4-490e-b358-7da2c7ec1136") ∧
  uuid_unique
    (todos (serve DELETE_todos_uuid (with_var "uuid" (UUID milk) a_request)
              stocked_world).2).
Proof.
  destruct create_uuid_generated_and_unique as [Hcreate Hinv]. split.
  - destruct (Hcreate completed_request fresh_world) as (row & Ht & _ & Hu & _).
    { vm_compute. reflexivity. }
    exists row. split; [exact Ht|]. rewrite Hu. vm_compute. reflexivity.
  - apply Hinv. apply (bool_decide_unpack _). vm_compute. exact I.
Defined.

End TodoFacts.

(** ** Strings and paths *)

Section Paths.

Lemma app_String c s t : String c s +:+ t = String c (s +:+ t).
Proof. reflexivity. Qed.

Lemma app_empty_l t : EmptyString +:+ t = t.
Proof. reflexivity. Qed.

Lemma app_empty_r s : s +:+ EmptyString = s.
Proof. induction s as [|c s IH]; [done|]. by rewrite app_String, IH. Qed.

Lemma app_assoc_string s t u : (s +:+ t) +:+ u = s +:+ t +:+ u.
Proof. induction s as [|c s IH]; [done|]. by rewrite !app_String, IH. Qed.

Lemma chars_app s t : chars (s +:+ t) = chars s ++ chars t.
Proof. induction s as [|c s IH]; [done|]. rewrite app_String. simpl. by rewrite IH. Qed.

Lemma chars_inj s t : chars s = chars t → s = t.
Proof.
  revert t. induction s as [|c s IH]; intros [|d t] H; simplify_eq/=; [done|].
  f_equal. by apply IH.
Qed.

Lemma slash_free_app s t : slash_free s → slash_free t → slash_free (s +:+ t).
Proof.
  unfold slash_free. rewrite chars_app. intros Hs Ht Hin.
  apply elem_of_app in Hin as [?|?]; auto.
Qed.

Lemma components_nonempty s : components s ≠ [].
Proof.
  destruct s as [|c s]; [done|]. simpl. case_decide; [done|].
  by destruct (components s).
Qed.

(** Splitting at a slash. *)
Lemma components_app s t :
  components (s +:+ String "/" t) = components s ++ components t.
Proof.
  induction s as [|c s IH]; [done|].
  rewrite app_String. simpl. case_decide; [by rewrite IH|].
  rewrite IH. pose proof (components_nonempty s).
  by destruct (components s).
Qed.

Lemma components_slash_free s : slash_free s → components s = [s].
Proof.
  unfold slash_free. induction s as [|c s IH]; [done|].
  simpl. intros H. apply not_elem_of_cons in H as [Hc Hs].
  rewrite decide_False by done. by rewrite IH.
Qed.

(** No piece holds a slash. *)
Lemma components_slash_free_all s : Forall slash_free (components s).
Proof.
  induction s as [|c s IH].
  - constructor; [|constructor]. unfold slash_free. simpl. apply not_elem_of_nil.
  - simpl. case_decide as Hc.
    + constructor; [|done]. unfold slash_free. simpl. apply not_elem_of_nil.
    + pose proof (components_nonempty s).
      destruct (components s) as [|e es]; [done|].
      apply Forall_cons in IH as [He Hes]. constructor; [|done].
      unfold slash_free in *. simpl. apply not_elem_of_cons. split; [|done].
      intros Heq. by apply Hc.
Qed.

(** All pieces empty: the string is made of slashes. *)
Lemma components_all_empty s :
  Forall (λ e, e = EmptyString) (components s) → only_slashes s.
Proof.
  unfold only_slashes. induction s as [|c s IH]; [constructor|].
  simpl. case_decide as Hc.
  - intros H. apply Forall_cons in H as [_ H]. constructor; [done|by apply IH].
  - pose proof (components_nonempty s) as Hne. destruct (components s); [done|].
    intros H. by apply Forall_cons in H as [? _].
Qed.

Lemma filter_nil_Forall {A} (P : A → Prop) `{∀ x, Decision (P x)} (l : list A) :
  filter P l = [] → Forall (λ x, ¬ P x) l.
Proof.
  induction l as [|x l IH]; [constructor|].
  rewrite filter_cons. case_decide; [done|]. intros Hl. constructor; auto.
Qed.

(** [Base] gives one piece of the path, without a slash, unless the path is
    made of slashes only. *)
Lemma Base_cases path :
  (filepath.Base path = "/" ∧ path ≠ EmptyString ∧ only_slashes path) ∨
  (slash_free (filepath.Base path) ∧ filepath.Base path ≠ EmptyString ∧
   filepath.Base path ≠ "/").
Proof.
  unfold filepath.Base. case_decide as Hp.
  { right. split_and!; [|done..]. unfold slash_free. simpl.
    intros H%list_elem_of_singleton. done. }
  destruct (last _) as [e|] eqn:Hlast.
  - right. apply last_Some_elem_of in Hlast.
    apply list_elem_of_filter in Hlast as [Hne He].
    pose proof (components_slash_free_all path) as Hall.
    rewrite Forall_forall in Hall. specialize (Hall e He).
    split_and!; [done..|]. intros ->. apply Hall. simpl. left.
  - left. apply last_None in Hlast. split_and!; [done..|].
    apply components_all_empty. apply filter_nil_Forall in Hlast.
    eapply Forall_impl; [exact Hlast|]. intros e He. simpl in He.
    by destruct (decide (e = EmptyString)).
Qed.

Lemma pretty_N_char_digit x : is_digit_or_minus (pretty_N_char x).
Proof.
  unfold pretty_N_char, is_digit_or_minus.
  repeat case_match; repeat constructor.
Qed.

Lemma pretty_N_go_chars x s :
  Forall is_digit_or_minus (chars s) →
  Forall is_digit_or_minus (chars (pretty_N_go x s)).
Proof.
  revert s. induction (N.lt_wf_0 x) as [x _ IH]; intros s Hs.
  assert (x = 0 ∨ 0 < x)%N as [->|Hx] by lia.
  - by rewrite pretty_N_go_0.
  - rewrite pretty_N_go_step by done. apply IH.
    + by apply N.div_lt.
    + simpl. constructor; [apply pretty_N_char_digit|done].
Qed.

Lemma pretty_N_chars (x : N) : Forall is_digit_or_minus (chars (pretty x)).
Proof.
  unfold pretty, pretty_N. case_decide.
  - repeat constructor.
  - apply pretty_N_go_chars. constructor.
Qed.

(** [%d] prints digits and at most a sign. *)
Lemma fmt_d_chars z : Forall is_digit_or_minus (chars (fmt_d z)).
Proof.
  unfold fmt_d, pretty, pretty_Z. destruct z as [|p|p].
  - repeat constructor.
  - apply pretty_N_chars.
  - rewrite chars_app. apply Forall_app. split; [repeat constructor|].
    apply pretty_N_chars.
Qed.

Lemma digits_slash_free s : Forall is_digit_or_minus (chars s) → slash_free s.
Proof.
  unfold slash_free. intros H Hin. rewrite Forall_forall in H.
  specialize (H _ Hin). unfold is_digit_or_minus in H.
  repeat (apply elem_of_cons in H as [H|H]; [discriminate|]). inversion H.
Qed.

(** A name with a hyphen in it is an ordinary name as soon as it has no slash. *)
Lemma hyphen_plain_name d b :
  slash_free d → slash_free b → plain_name (d +:+ "-" +:+ b).
Proof.
  intros Hd Hb.
  assert (Hin : "-"%char ∈ chars (d +:+ "-" +:+ b)).
  { rewrite !chars_app. apply elem_of_app. right. simpl. left. }
  split_and!.
  - apply slash_free_app; [done|]. apply slash_free_app; [|done].
    unfold slash_free. simpl. intros H%list_elem_of_singleton. done.
  - intros Heq. rewrite Heq in Hin. inversion Hin.
  - intros Heq. rewrite Heq in Hin. simpl in Hin.
    apply list_elem_of_singleton in Hin. done.
  - intros Heq. rewrite Heq in Hin. simpl in Hin.
    repeat (apply elem_of_cons in Hin as [Hin|Hin]; [discriminate|]). inversion Hin.
Qed.

Lemma Clean_step_plain root out dotdot e :
  plain_name e → filepath.Clean_step root (out, dotdot) e = (out ++ [e], dotdot).
Proof.
  intros (_ & H1 & H2 & H3). unfold filepath.Clean_step.
  by rewrite !decide_False by done.
Qed.

Lemma Join_uploadDir name :
  filepath.Join [uploadDir; name] = filepath.Clean (uploadDir +:+ String "/" name).
Proof. reflexivity. Qed.

(** An ordinary name under the upload directory is clean as it stands. *)
Lemma Clean_upload name :
  plain_name name →
  filepath.Clean (uploadDir +:+ String "/" name) = uploadDir +:+ String "/" name.
Proof.
  intros Hname. unfold filepath.Clean.
  rewrite decide_False by done.
  change (filepath.rooted (uploadDir +:+ String "/" name)) with true. cbn iota.
  rewrite components_app, (components_slash_free name) by apply Hname.
  rewrite foldl_app.
  change (foldl (filepath.Clean_step true) ([], 0%nat) (components uploadDir))
    with (["app"; "uploads"], 0%nat).
  cbn [foldl]. rewrite Clean_step_plain by done. reflexivity.
Qed.

(** A trailing slash after the name is cleaned away. *)
Lemma Clean_upload_slash name :
  plain_name name →
  filepath.Clean (uploadDir +:+ String "/" (name +:+ "/")) =
  uploadDir +:+ String "/" name.
Proof.
  intros Hname. unfold filepath.Clean.
  rewrite decide_False by done.
  change (filepath.rooted (uploadDir +:+ String "/" (name +:+ "/"))) with true.
  cbn iota.
  rewrite !components_app, (components_slash_free name) by apply Hname.
  rewrite foldl_app.
  change (foldl (filepath.Clean_step true) ([], 0%nat) (components uploadDir))
    with (["app"; "uploads"], 0%nat).
  cbn [foldl app components]. rewrite Clean_step_plain by done. reflexivity.
Qed.

(** The directory of an ordinary name under the upload directory. *)
Lemma Dir_upload name :
  plain_name name → filepath.Dir (uploadDir +:+ String "/" name) = uploadDir.
Proof.
  intros Hname. unfold filepath.Dir.
  rewrite components_app, (components_slash_free name) by apply Hname.
  rewrite removelast_last. reflexivity.
Qed.

End Paths.

(** ** File handlers *)

Module FileFacts.

(** The stored path of an upload whose name has a last element. *)
Lemma upload_path_plain now filename :
  filepath.Base filename ≠ "/" →
  upload_path now filename =
  uploadDir +:+ "/" +:+ fmt_d (Time_UnixNano now) +:+ "-" +:+ filepath.Base filename.
Proof.
  intros Hbase. unfold upload_path, upload_name.
  rewrite Join_uploadDir, Clean_upload; [reflexivity|].
  apply hyphen_plain_name; [apply digits_slash_free, fmt_d_chars|].
  by destruct (Base_cases filename) as [[? _]|[? _]].
Qed.

(** The stored path of an upload whose name is made of slashes. *)
Lemma upload_path_slashes now filename :
  filepath.Base filename = "/" →
  upload_path now filename = uploadDir +:+ "/" +:+ fmt_d (Time_UnixNano now) +:+ "-".
Proof.
  intros Hbase. unfold upload_path, upload_name. rewrite Hbase, Join_uploadDir.
  rewrite <- (app_assoc_string (fmt_d _) "-" "/").
  rewrite Clean_upload_slash; [reflexivity|].
  rewrite <- (app_empty_r "-"). apply hyphen_plain_name.
  - apply digits_slash_free, fmt_d_chars.
  - unfold slash_free. simpl. apply not_elem_of_nil.
Qed.

(** Either way the upload lands directly in the upload directory. *)
Lemma upload_path_Dir now filename :
  filepath.Dir (upload_path now filename) = uploadDir.
Proof.
  destruct (decide (filepath.Base filename = "/")) as [Hbase|Hbase].
  - rewrite upload_path_slashes by done. apply Dir_upload.
    rewrite <- (app_empty_r "-"). apply hyphen_plain_name.
    + apply digits_slash_free, fmt_d_chars.
    + unfold slash_free. simpl. apply not_elem_of_nil.
  - rewrite upload_path_plain by done. apply Dir_upload.
    apply hyphen_plain_name; [apply digits_slash_free, fmt_d_chars|].
    by destruct (Base_cases filename) as [[? _]|[? _]].
Qed.

(** The world after a successful [os.Create]. *)
Lemma os_Create_ok name σ :
  (os.Create name σ).1 = None →
  (os.Create name σ).2 = with_fs (<[name := File []]> (fs σ)) (after_call σ).
Proof.
  rewrite os_Create_run. destruct (fault_of σ); [done|].
  destruct (fs σ !! name) as [[|?]|]; [done|..];
    destruct (fs σ !! filepath.Dir name) as [[|?]|]; done.
Qed.

(** When [os.Create] succeeds. *)
Lemma os_Create_succeeds name σ :
  next_call_ok σ → fs σ !! filepath.Dir name = Some Directory →
  fs σ !! name ≠ Some Directory → (os.Create name σ).1 = None.
Proof.
  intros Hok Hdir Hname. rewrite os_Create_run, Hok, Hdir.
  by destruct (fs σ !! name) as [[|?]|].
Qed.

(** C9: the file of an upload is stored under, and the response names, the
    path [Join(uploadDir, "<nanoseconds>-" + Base(filename))].  The last
    element [Base] of the client's file name holds no slash, and the path is
    the upload directory, a slash, the Unix time in nanoseconds, a hyphen and
    that element; for a client name made of slashes only, [Join] cleans the
    slash that [Base] gives away and the name ends at the hyphen.  The file
    lies directly in the upload directory; the upload succeeds when neither
    call fails, the directory exists and the path is not a directory. *)
Theorem uploadFile_destination (r : Request) (σ : World) (file : FormFile) :
  Request_FormFile r "file" = inr file →
  let nano := Time_UnixNano (clock σ) in
  let base := filepath.Base (Filename file) in
  let path := upload_path (clock σ) (Filename file) in
  let res := serve POST_files_upload r σ in
  path = filepath.Join [uploadDir; fmt_d nano +:+ "-" +:+ base] ∧
  (base ≠ "/" →
   slash_free base ∧ path = uploadDir +:+ "/" +:+ fmt_d nano +:+ "-" +:+ base) ∧
  (base = "/" →
   only_slashes (Filename file) ∧ path = uploadDir +:+ "/" +:+ fmt_d nano +:+ "-") ∧
  filepath.Dir path = uploadDir ∧
  (status res.1 = Some StatusCreated ∨ status res.1 = Some StatusInternalServerError) ∧
  (status res.1 = Some StatusCreated →
   written res.1 = [Json (JObj [("file_path", JStr path)])] ∧
   fs res.2 !! path = Some (File (content file))) ∧
  (next_call_ok σ → next_call_ok (after_call σ) →
   fs σ !! uploadDir = Some Directory → fs σ !! path ≠ Some Directory →
   status res.1 = Some StatusCreated).
Proof.
  intros Hform nano base path res.
  assert (Hrun : res =
    let created := os.Create path σ in
    match created.1 with
    | Some err => (http_Error new_ResponseWriter err StatusInternalServerError, created.2)
    | None =>
        let copied := os.Copy_to path (content file) created.2 in
        match copied.1 with
        | Some err =>
            (http_Error new_ResponseWriter err StatusInternalServerError, copied.2)
        | None =>
            (json_Encode
               (WriteHeader StatusCreated
                  (Header_Set "Content-Type" "application/json" new_ResponseWriter))
               (JObj [("file_path", JStr path)]), copied.2)
        end
    end).
  { subst res. unfold serve, route. by rewrite uploadFile_run, Hform. }
  cbn zeta in Hrun.
  split_and!.
  - reflexivity.
  - intros Hbase. split; [|by apply upload_path_plain].
    by destruct (Base_cases (Filename file)) as [[? _]|[? _]].
  - intros Hbase. split; [|by apply upload_path_slashes].
    by destruct (Base_cases (Filename file)) as [(_ & _ & ?)|(_ & _ & ?)].
  - apply upload_path_Dir.
  - rewrite Hrun. destruct (os.Create path σ).1; [by right|].
    destruct (os.Copy_to path _ _).1; [by right|by left].
  - rewrite Hrun. destruct (os.Create path σ).1 eqn:Hc; [done|].
    rewrite (os_Create_ok _ _ Hc). rewrite os_Copy_to_run.
    change (fault_of (with_fs _ (after_call σ))) with (fault_of (after_call σ)).
    destruct (fault_of (after_call σ)); [done|].
    cbn [fs with_fs]. rewrite lookup_insert_eq. cbn [fst snd fs with_fs].
    intros _. split; [done|]. by rewrite lookup_insert_eq.
  - intros Hok1 Hok2 Hdir Hpath. rewrite Hrun.
    assert (Hcreate : (os.Create path σ).1 = None).
    { apply os_Create_succeeds; [done| |done].
      unfold path. by rewrite upload_path_Dir. }
    rewrite Hcreate, (os_Create_ok path σ Hcreate), os_Copy_to_run.
    change (fault_of (with_fs _ (after_call σ))) with (fault_of (after_call σ)).
    rewrite Hok2. cbn [fs with_fs]. by rewrite lookup_insert_eq.
Qed.

(** C9 on a fresh server: the client name [a/b/report.txt]. *)
Lemma uploadFile_destination_witness :
  let res := serve POST_files_upload report_upload fresh_world in
  status res.1 = Some StatusCreated ∧
  written res.1 =
    [Json (JObj [("file_path", JStr "/app/uploads/1664403200000000000-report.txt")])] ∧
  fs res.2 !! "/app/uploads/1664403200000000000-report.txt" = Some (File [104; 105; 10]).
Proof.
  destruct (uploadFile_destination report_upload fresh_world
              {| Filename := "a/b/report.txt"; content := [104; 105; 10] |} eq_refl)
    as (_ & _ & _ & _ & _ & Hstored & Hok).
  assert (Hs : status (serve POST_files_upload report_upload fresh_world).1
               = Some StatusCreated).
  { apply Hok; vm_compute; [reflexivity|reflexivity|reflexivity|discriminate]. }
  destruct (Hstored Hs) as [Hw Hf].
  split_and!; [exact Hs|exact Hw|exact Hf].
Defined.

(** Entries that are all directories give no name: the slice stays nil. *)
Lemma file_names_dirs files :
  Forall (λ e, IsDir e = true) files → file_names files = None.
Proof.
  unfold file_names. induction 1 as [|e files He _ IH]; [done|].
  simpl. by rewrite He.
Qed.

(** A directory without files in it has only directories as entries. *)
Lemma children_dirs dir (tree : gmap string Node) :
  (∀ p data, tree !! p = Some (File data) → filepath.Dir p ≠ dir) →
  Forall (λ e, IsDir e = true) (os.children dir tree).
Proof.
  intros Hnone. apply Forall_forall. intros e He. unfold os.children in He.
  apply list_elem_of_omap in He as ([p n] & Hin & Hsome).
  apply elem_of_map_to_list in Hin.
  case_decide as Hd; [|done]. simplify_eq/=.
  destruct n as [|data]; [done|]. destruct Hd as [Hd _]. by destruct (Hnone p data).
Qed.

(** C8 as stated fails: with an empty upload directory the body is the JSON
    value [null], the encoding of a nil slice, and not an empty array. *)
Lemma listFiles_empty_is_null :
  written (serve GET_files_list a_request fresh_world).1 = [Json JNull] ∧
  written (serve GET_files_list a_request fresh_world).1 ≠ [Json (JArr [])].
Proof. split; [vm_compute; reflexivity|vm_compute; discriminate]. Qed.

(** C8, as the code has it: when the upload directory exists and holds no
    file, and reading it does not fail, the answer is [200] with content type
    JSON and the body [null]: not an error, and not an array. *)
Theorem listFiles_no_files (r : Request) (σ : World) :
  next_call_ok σ →
  fs σ !! uploadDir = Some Directory →
  (∀ p data, fs σ !! p = Some (File data) → filepath.Dir p ≠ uploadDir) →
  let w := (serve GET_files_list r σ).1 in
  status w = Some StatusOK ∧ written w = [Json JNull] ∧
  header w !! "Content-Type" = Some "application/json".
Proof.
  intros Hok Hdir Hnone w. subst w. unfold serve, route.
  rewrite listFiles_run, os_ReadDir_run, Hok, Hdir. cbn [fst snd].
  rewrite file_names_dirs; [done|].
  rewrite merge_sort_Permutation. by apply children_dirs.
Qed.

(** The amended C8 on a fresh server. *)
Lemma listFiles_no_files_witness :
  status (serve GET_files_list a_request fresh_world).1 = Some StatusOK ∧
  written (serve GET_files_list a_request fresh_world).1 = [Json JNull].
Proof.
  destruct (listFiles_no_files a_request fresh_world) as (H1 & H2 & _).
  - reflexivity.
  - vm_compute. reflexivity.
  - intros p data Hp.
    assert (Hin : (p, File data) ∈ map_to_list (fs fresh_world))
      by (by apply elem_of_map_to_list).
    vm_compute in Hin.
    repeat (apply elem_of_cons in Hin as [Hin|Hin]; [discriminate|]). inversion Hin.
  - split; assumption.
Defined.

End FileFacts.

(** ** Error responses *)

Module ErrorFacts.

Lemma reports_http_Error err code :
  reports (http_Error new_ResponseWriter err code) code err.
Proof. split_and!; reflexivity. Qed.

(** C6 as stated fails: a download of a missing file answers the fixed text
    [File not found], not the text of the error that [os.Open] gave. *)
Lemma downloadFile_hides_error :
  (os.Open (filepath.Join ["/app/uploads"; var missing_download "filename"])
     fresh_world).1
    = inl "open /app/uploads/nope.txt: no such file or directory" ∧
  status (serve GET_files_download_filename missing_download fresh_world).1
    = Some StatusNotFound ∧
  written (serve GET_files_download_filename missing_download fresh_world).1
    = [Text ("File not found" +:+ LF)] ∧
  written (serve GET_files_download_filename missing_download fresh_world).1
    ≠ [Text "open /app/uploads/nope.txt: no such file or directory"] ∧
  written (serve GET_files_download_filename missing_download fresh_world).1
    ≠ [Text ("open /app/uploads/nope.txt: no such file or directory" +:+ LF)].
Proof.
  split_and!; [vm_compute; reflexivity..|vm_compute; discriminate|vm_compute; discriminate].
Qed.

(** C6, as the code has it: every branch that reports a failure through
    [http.Error] with the failure's own error answers with that error's
    message, unchanged, followed by a line feed: [400] for an unparseable body
    or a missing form file, [404] for a failed lookup of a todo, [500] for a
    failed storage or file-system call.  The download is the exception: any
    failure to open the file is answered [404] with the fixed text
    [File not found].  The read that follows the write of an update reports
    nothing: once the write went through the answer is [200]. *)
Theorem failures_report_error_text (r : Request) (σ : World) :
  let decoded := json_Decode (body r) zero_Todo in
  let name := filepath.Join ["/app/uploads"; var r "filename"] in
  (∀ err, decoded.1 = Some err →
     reports (serve POST_todos r σ).1 StatusBadRequest err ∧
     reports (serve PUT_todos_uuid r σ).1 StatusBadRequest err) ∧
  (∀ err, decoded.1 = None →
     (gorm.Create (requested r σ) (uuid_New σ).2).1.1 = Some err →
     reports (serve POST_todos r σ).1 StatusInternalServerError err) ∧
  (∀ err, (gorm.Find None σ).1.1 = Some err →
     reports (serve GET_todos r σ).1 StatusInternalServerError err) ∧
  (∀ err, (gorm.Where_First (var r "uuid") zero_Todo σ).1.1 = Some err →
     reports (serve GET_todos_uuid r σ).1 StatusNotFound err) ∧
  (∀ err, decoded.1 = None →
     (gorm.Where_Updates_completed (var r "uuid") (Completed decoded.2) σ).1 = Some err →
     reports (serve PUT_todos_uuid r σ).1 StatusInternalServerError err) ∧
  (∀ err, (gorm.Where_Delete (var r "uuid") σ).1 = Some err →
     reports (serve DELETE_todos_uuid r σ).1 StatusInternalServerError err) ∧
  (∀ err, Request_FormFile r "file" = inl err →
     reports (serve POST_files_upload r σ).1 StatusBadRequest err) ∧
  (∀ file err, Request_FormFile r "file" = inr file →
     (os.Create (upload_path (clock σ) (Filename file)) σ).1 = Some err →
     reports (serve POST_files_upload r σ).1 StatusInternalServerError err) ∧
  (∀ file err, Request_FormFile r "file" = inr file →
     (os.Create (upload_path (clock σ) (Filename file)) σ).1 = None →
     (os.Copy_to (upload_path (clock σ) (Filename file)) (content file)
        (os.Create (upload_path (clock σ) (Filename file)) σ).2).1 = Some err →
     reports (serve POST_files_upload r σ).1 StatusInternalServerError err) ∧
  (∀ err, (os.ReadDir uploadDir σ).1 = inl err →
     reports (serve GET_files_list r σ).1 StatusInternalServerError err) ∧
  (∀ err, (os.Remove name σ).1 = Some err →
     reports (serve DELETE_files_filename r σ).1 StatusInternalServerError err) ∧
  (∀ err, (os.Open name σ).1 = inl err →
     reports (serve GET_files_download_filename r σ).1 StatusNotFound "File not found") ∧
  (decoded.1 = None →
   (gorm.Where_Updates_completed (var r "uuid") (Completed decoded.2) σ).1 = None →
   status (serve PUT_todos_uuid r σ).1 = Some StatusOK).
Proof.
  intros decoded name. subst decoded name. unfold serve, route. split_and!.
  - intros err Hdec. rewrite createTodo_run, updateTodo_run, Hdec.
    destruct (json_Decode (body r) zero_Todo) as [e t]. simpl in Hdec. subst e.
    split; apply reports_http_Error.
  - intros err Hdec Hcreate. rewrite createTodo_run, Hdec. cbn zeta.
    change (with_entropy_taken (entropy_taken σ + 16) σ) with (uuid_New σ).2.
    rewrite Hcreate. apply reports_http_Error.
  - intros err Hfind. rewrite getAllTodos_run. rewrite Find_run in Hfind.
    destruct (fault_of σ); cbn [fst snd] in *; [|done]. simplify_eq.
    apply reports_http_Error.
  - intros err Hfirst. rewrite getTodo_run. rewrite Where_First_run in Hfirst.
    unfold find_row. destruct (fault_of σ); cbn [fst snd] in *.
    + simplify_eq. apply reports_http_Error.
    + destruct (gorm.first_by_id _); cbn [fst snd] in *; [done|]. simplify_eq.
      apply reports_http_Error.
  - intros err Hdec Hupd. rewrite updateTodo_run.
    destruct (json_Decode (body r) zero_Todo) as [e t]. simpl in Hdec. subst e.
    rewrite Where_Updates_completed_run in Hupd. cbn [fst snd] in *.
    destruct (fault_of σ); cbn [fst snd] in *; [|done]. simplify_eq.
    apply reports_http_Error.
  - intros err Hdel. rewrite deleteTodo_run. rewrite Where_Delete_run in Hdel.
    destruct (fault_of σ); cbn [fst snd] in *; [|done]. simplify_eq.
    apply reports_http_Error.
  - intros err Hform. rewrite uploadFile_run, Hform. apply reports_http_Error.
  - intros file err Hform Hcreate. rewrite uploadFile_run, Hform. cbn zeta.
    rewrite Hcreate. apply reports_http_Error.
  - intros file err Hform Hcreate Hcopy. rewrite uploadFile_run, Hform. cbn zeta.
    rewrite Hcreate, Hcopy. apply reports_http_Error.
  - intros err Hread. rewrite listFiles_run, Hread. apply reports_http_Error.
  - intros err Hremove. rewrite deleteFile_run. cbn zeta. rewrite Hremove.
    apply reports_http_Error.
  - intros err Hopen. rewrite downloadFile_run, Hopen. apply reports_http_Error.
  - intros Hdec Hupd. rewrite updateTodo_run.
    destruct (json_Decode (body r) zero_Todo) as [e t]. simpl in Hdec. subst e.
    rewrite Where_Updates_completed_run in Hupd. cbn [fst snd] in *.
    by destruct (fault_of σ).
Qed.

(** The amended C6 on the samples: a todo that is not there, and a file that
    is not there. *)
Lemma failures_report_error_text_witness :
  reports (serve GET_todos_uuid (with_var "uuid" "unknown" a_request) stocked_world).1
    StatusNotFound "record not found" ∧
  reports (serve GET_files_download_filename missing_download fresh_world).1
    StatusNotFound "File not found".
Proof.
  split.
  - destruct (failures_report_error_text (with_var "uuid" "unknown" a_request)
                stocked_world) as (_ & _ & _ & H & _).
    apply H. vm_compute. reflexivity.
  - destruct (failures_report_error_text missing_download fresh_world)
      as (_ & _ & _ & _ & _ & _ & _ & _ & _ & _ & _ & H & _).
    apply (H "open /app/uploads/nope.txt: no such file or directory").
    vm_compute. reflexivity.
Defined.

End ErrorFacts.

(** ** More on the table: lookups after writes *)

Section Lookups.

Lemma first_by_id_singleton t : gorm.first_by_id [t] = Some t.
Proof. reflexivity. Qed.

Lemma first_by_id_step (acc : option Todo) (rows : list Todo) :
  foldl (λ acc r,
           match acc with
           | None => Some r
           | Some a => if decide (ID (Model r) < ID (Model a)) then Some r else Some a
           end) acc rows = None → acc = None ∧ rows = [].
Proof.
  revert acc. induction rows as [|r rows IH]; intros acc H; [done|].
  simpl in H. apply IH in H as [H _]. destruct acc; [case_decide|]; done.
Qed.

Lemma first_by_id_None rows : gorm.first_by_id rows = None → rows = [].
Proof. intros H. by apply first_by_id_step in H as [_ ?]. Qed.

(** A map that keeps the ids commutes with [ORDER BY id LIMIT 1]. *)
Lemma first_by_id_fmap (f : Todo → Todo) rows :
  (∀ t, ID (Model (f t)) = ID (Model t)) →
  gorm.first_by_id (f <$> rows) = f <$> gorm.first_by_id rows.
Proof.
  intros Hf. unfold gorm.first_by_id.
  change (@None Todo) with (f <$> @None Todo) at 1. generalize (@None Todo).
  induction rows as [|r rows IH]; intros acc; [done|].
  simpl. rewrite <- IH. f_equal. destruct acc as [a|]; [|done].
  simpl. rewrite !Hf. by case_decide.
Qed.



(** A row that is appended deleted changes no lookup. *)
Lemma find_row_snoc_deleted uuid rows row :
  gorm.live row = false → find_row uuid (rows ++ [row]) = find_row uuid rows.
Proof.
  intros Hdead. unfold find_row. rewrite filter_app, filter_cons.
  assert (Hsel : gorm.selected uuid row = false).
  { unfold gorm.selected. rewrite Hdead. apply andb_false_r. }
  rewrite decide_False by (rewrite Hsel; intros []). by rewrite filter_nil, app_nil_r.
Qed.

Lemma live_rows_snoc rows row :
  live_rows (rows ++ [row]) = live_rows rows ++ (if gorm.live row then [row] else []).
Proof.
  unfold live_rows. rewrite filter_app, filter_cons. by destruct (gorm.live row).
Qed.

(** After a delete no row answers to the uuid any more. *)
Lemma delete_rows_unselects uuid now rows t :
  t ∈ delete_rows uuid now rows → gorm.selected uuid t = false.
Proof.
  unfold delete_rows. intros Ht. apply list_elem_of_fmap in Ht as (t0 & -> & _).
  destruct (gorm.selected uuid t0) eqn:Hsel; [|done].
  unfold gorm.selected, gorm.live. simpl. apply andb_false_r.
Qed.

(** What an update leaves for [Where_First] to find. *)
Lemma find_row_update_rows uuid now v rows :
  find_row uuid (update_rows uuid now v rows) = updated now v <$> find_row uuid rows.
Proof.
  unfold find_row, update_rows.
  rewrite <- (first_by_id_fmap (updated now v)) by done. f_equal.
  induction rows as [|t rows IH]; [done|].
  rewrite fmap_cons, !filter_cons.
  destruct (gorm.selected uuid t) eqn:Hsel.
  - rewrite selected_updated, Hsel. rewrite !decide_True by done.
    by rewrite fmap_cons, IH.
  - rewrite Hsel. rewrite !decide_False by (intros []). exact IH.
Qed.

Lemma find_row_selected uuid rows t :
  find_row uuid rows = Some t → t ∈ rows ∧ gorm.selected uuid t = true.
Proof.
  unfold find_row. intros H.
  assert (Hin : t ∈ filter (λ t, gorm.selected uuid t) rows).
  { revert H. unfold gorm.first_by_id. generalize (filter (λ t, gorm.selected uuid t) rows).
    intros l. assert (Hgen : ∀ acc,
      foldl (λ acc r,
               match acc with
               | None => Some r
               | Some a => if decide (ID (Model r) < ID (Model a)) then Some r else Some a
               end) acc l = Some t → acc = Some t ∨ t ∈ l).
    { induction l as [|r l IH]; intros acc Hacc; [by left|].
      simpl in Hacc. apply IH in Hacc as [Hacc|Hacc]; [|right; by right].
      destruct acc as [a|]; [case_decide|]; simplify_eq; auto using list_elem_of_here. }
    intros Hf. by destruct (Hgen None Hf). }
  apply list_elem_of_filter in Hin as [Hsel Hin]. split; [done|].
  by apply Is_true_true.
Qed.

End Lookups.

(** ** How the todo handlers compose *)

Module TodoExtras.

Lemma status_json_Encode_new v :
  status (json_Encode (Header_Set "Content-Type" "application/json" new_ResponseWriter) v)
  = Some StatusOK.
Proof. reflexivity. Qed.

(** A successful create appends [created_row] and returns it. *)
Lemma createTodo_created (r : Request) (σ : World) :
  let res := serve POST_todos r σ in
  status res.1 = Some StatusCreated →
  todos res.2 = todos σ ++ [created_row r σ] ∧
  written res.1 = [Json (json_of_Todo (created_row r σ))] ∧
  UUID (created_row r σ) ∉ UUID <$> todos σ.
Proof.
  intros res. subst res. unfold serve, route. rewrite createTodo_run.
  destruct (json_Decode (body r) zero_Todo).1 as [err|] eqn:Hdec; [done|].
  cbn zeta. rewrite Create_run. cbn zeta.
  change (fault_of (with_entropy_taken _ σ)) with (fault_of σ).
  change (todos (with_entropy_taken (entropy_taken σ + 16) σ)) with (todos σ).
  destruct (fault_of σ) as [err|]; [done|].
  case_bool_decide as Hid; [done|]. case_bool_decide as Huuid; [done|].
  cbn [fst snd]. intros _. split_and!; [by case_decide|done|].
  by apply TodoFacts.not_Exists_uuid.
Qed.

Lemma created_row_uuid (r : Request) (σ : World) :
  UUID (created_row r σ) = uuid.String (uuid_New σ).1.
Proof. reflexivity. Qed.

(** The created row is live unless the body carries a deletion time. *)
Lemma created_row_live (r : Request) (σ : World) (f : TodoFields) :
  body r = JSONObject f →
  gorm.live (created_row r σ) = bool_decide (f_DeletedAt f = None).
Proof.
  intros Hbody. unfold created_row, requested, stamped, gorm.live. rewrite Hbody.
  cbn [Model with_Model with_UUID].
  assert (Hd : DeletedAt (Model (json_Decode (JSONObject f) zero_Todo).2) = f_DeletedAt f).
  { destruct f as [[?|] [?|] [?|] [?|] [?|] [?|] [?|] [?|] [?|]]; reflexivity. }
  repeat case_decide; cbn [DeletedAt with_ID with_UpdatedAt with_CreatedAt]; by rewrite Hd.
Qed.


(** X2: a create whose body carries a deletion time is answered [201] like any
    other, but the row is stored as deleted: no lookup and no listing ever
    shows it, and a fetch by the uuid that came back answers [404]. *)
Theorem create_with_deletion_time (r r' : Request) (σ : World) (f : TodoFields) (t : Time) :
  body r = JSONObject f → f_DeletedAt f = Some t →
  let res := serve POST_todos r σ in
  status res.1 = Some StatusCreated →
  (∀ uuid, find_row uuid (todos res.2) = find_row uuid (todos σ)) ∧
  live_rows (todos res.2) = live_rows (todos σ) ∧
  (next_call_ok res.2 → var r' "uuid" = uuid.String (uuid_New σ).1 →
   reports (serve GET_todos_uuid r' res.2).1 StatusNotFound "record not found").
Proof.
  intros Hbody Hdel res Hcreated.
  destruct (createTodo_created r σ Hcreated) as (Ht & Hw & Hfresh).
  assert (Hdead : gorm.live (created_row r σ) = false).
  { by rewrite (created_row_live r σ f Hbody), Hdel. }
  fold res in Ht. clearbody res. rewrite Ht. split_and!.
  - intros uuid. by apply find_row_snoc_deleted.
  - by rewrite live_rows_snoc, Hdead, app_nil_r.
  - intros Hok Hvar. unfold serve, route. rewrite getTodo_run, Hok, Ht.
    rewrite find_row_snoc_deleted by done. rewrite find_row_none.
    + apply ErrorFacts.reports_http_Error.
    + intros t0 Ht0. unfold gorm.selected. rewrite bool_decide_false; [done|].
      rewrite Hvar, <- (created_row_uuid r σ). intros Heq. apply Hfresh. rewrite <- Heq.
      apply list_elem_of_fmap. by exists t0.
Qed.

(** What a delete leaves of the listing. *)
Lemma live_rows_delete_rows uuid now rows :
  live_rows (delete_rows uuid now rows) = filter (λ t, UUID t ≠ uuid) (live_rows rows).
Proof.
  unfold live_rows, delete_rows. induction rows as [|t rows IH]; [done|].
  rewrite fmap_cons, !filter_cons.
  destruct (gorm.selected uuid t) eqn:Hsel.
  - apply andb_true_iff in Hsel as [Hu Hlive]. apply bool_decide_eq_true in Hu.
    rewrite decide_False by (intros []).
    rewrite (decide_True (P := gorm.live t)) by (by rewrite Hlive).
    rewrite filter_cons, decide_False by (intros H; by apply H). exact IH.
  - destruct (decide (gorm.live t)) as [Hlive|Hlive]; [|exact IH].
    apply Is_true_true in Hlive. unfold gorm.selected in Hsel.
    rewrite Hlive, andb_true_r in Hsel. apply bool_decide_eq_false in Hsel.
    rewrite filter_cons, decide_True by done. by rewrite IH.
Qed.

(** X3: once a delete went through, a fetch by the same uuid answers [404]
    with gorm's [record not found], and the listing is the one before without
    the rows of that uuid. *)
Theorem deleted_todo_is_not_found (r r' : Request) (σ : World) :
  next_call_ok σ →
  let res := serve DELETE_todos_uuid r σ in
  live_rows (todos res.2) = filter (λ t, UUID t ≠ var r "uuid") (live_rows (todos σ)) ∧
  (next_call_ok res.2 → var r' "uuid" = var r "uuid" →
   reports (serve GET_todos_uuid r' res.2).1 StatusNotFound "record not found").
Proof.
  intros Hok res.
  assert (Ht : todos res.2 = delete_rows (var r "uuid") (clock σ) (todos σ)).
  { subst res. unfold serve, route. by rewrite TodoFacts.deleteTodo_todos, Hok. }
  clearbody res. rewrite Ht. split; [apply live_rows_delete_rows|].
  intros Hok' Hvar. unfold serve, route. rewrite getTodo_run, Hok', Ht, Hvar.
  rewrite find_row_none; [apply ErrorFacts.reports_http_Error|].
  apply delete_rows_unselects.
Qed.


(** The table after any request, by kind of write. *)
Lemma serve_todos_cases (rt : Route) (r : Request) (σ : World) :
  let res := serve rt r σ in
  todos res.2 = todos σ ∨
  (rt = POST_todos ∧ status res.1 = Some StatusCreated ∧
   todos res.2 = todos σ ++ [created_row r σ]) ∨
  (∃ v, rt = PUT_todos_uuid ∧ status res.1 = Some StatusOK ∧
        todos res.2 = update_rows (var r "uuid") (clock σ) v (todos σ)) ∨
  (rt = DELETE_todos_uuid ∧ status res.1 = Some StatusNoContent ∧
   todos res.2 = delete_rows (var r "uuid") (clock σ) (todos σ)).
Proof.
  intros res. subst res. destruct rt.
  - destruct (TodoFacts.createTodo_cases r σ) as [[_ ?]|(Hs & _)]; [by left|].
    right. left. split_and!; [done..|]. by apply createTodo_created.
  - left. unfold serve, route. by rewrite getAllTodos_run.
  - left. unfold serve, route. by rewrite getTodo_run.
  - unfold serve, route. rewrite updateTodo_run.
    destruct (json_Decode (body r) zero_Todo) as [[err|] updatedTodo]; [by left|].
    destruct (fault_of σ); [by left|]. right. right. left.
    exists (Completed updatedTodo). cbn zeta. split_and!; [done| |done].
    apply status_json_Encode_new.
  - unfold serve, route. rewrite deleteTodo_run.
    destruct (fault_of σ); [by left|]. right. right. right. done.
  - left. apply todos_uploadFile.
  - left. apply todos_listFiles.
  - left. apply todos_downloadFile.
  - left. apply todos_deleteFile.
Qed.

(** X5: no request ever removes a row or rewrites what identifies it: every
    row stays at its place with its uuid, id, creation time, title,
    description and file path.  The table grows by exactly one row on a
    create answered [201] and keeps its size otherwise; a delete only marks. *)
Theorem rows_are_never_removed (rt : Route) (r : Request) (σ : World) :
  let res := serve rt r σ in
  (∀ i t, todos σ !! i = Some t →
          ∃ t', todos res.2 !! i = Some t' ∧ same_identity t t') ∧
  (length (todos res.2) = length (todos σ) ∨
   rt = POST_todos ∧ status res.1 = Some StatusCreated ∧
   length (todos res.2) = S (length (todos σ))).
Proof.
  intros res. subst res.
  destruct (serve_todos_cases rt r σ)
    as [->|[(-> & Hs & ->)|[(v & -> & _ & ->)|(-> & _ & ->)]]].
  - split; [|by left]. intros i t Hi. exists t. by repeat split.
  - split.
    + intros i t Hi. exists t. split; [|by repeat split].
      by apply lookup_app_l_Some.
    + right. split_and!; [done..|]. rewrite length_app. simpl. lia.
  - split; [|left; unfold update_rows; by rewrite length_fmap].
    intros i t Hi. rewrite update_rows_lookup, Hi. simpl. eexists. split; [done|].
    by destruct (gorm.selected _ t); repeat split.
  - split; [|left; unfold delete_rows; by rewrite length_fmap].
    intros i t Hi. unfold delete_rows. rewrite list_lookup_fmap, Hi. simpl.
    eexists. split; [done|]. by destruct (gorm.selected _ t); repeat split.
Qed.

(** X6: a request that is answered with an error status (400 and above) has
    left the table exactly as it was. *)
Theorem errors_leave_table_alone (rt : Route) (r : Request) (σ : World) :
  let res := serve rt r σ in
  is_error res.1 → todos res.2 = todos σ.
Proof.
  intros res. subst res. unfold is_error, status_sent.
  destruct (serve_todos_cases rt r σ)
    as [->|[(_ & -> & _)|[(v & _ & -> & _)|(_ & -> & _)]]]; [done|..];
    cbn; unfold StatusCreated, StatusOK, StatusNoContent; lia.
Qed.

(** X7: an update of an existing todo answers [200] with the row as it is
    after the write: the row found before, with the body's [completed] and the
    time of the write as [updated_at]; a fetch right after gives the same row. *)
Theorem update_returns_updated_row (r r' : Request) (σ : World) (f : TodoFields) (t : Todo) :
  body r = JSONObject f → next_call_ok σ → next_call_ok (after_call σ) →
  find_row (var r "uuid") (todos σ) = Some t →
  let res := serve PUT_todos_uuid r σ in
  let row := updated (clock σ) (default false (f_completed f)) t in
  status res.1 = Some StatusOK ∧ written res.1 = [Json (json_of_Todo row)] ∧
  (next_call_ok res.2 → var r' "uuid" = var r "uuid" →
   written (serve GET_todos_uuid r' res.2).1 = [Json (json_of_Todo row)]).
Proof.
  intros Hbody Hok Hok2 Hfind res row. subst res row. unfold serve, route.
  rewrite updateTodo_run, Hbody, TodoFacts.json_Decode_JSONObject,
    TodoFacts.json_Decode_Completed, Hok.
  cbn zeta.
  change (fault_of (with_todos _ (after_call σ))) with (fault_of (after_call σ)).
  rewrite Hok2. cbn [fst snd todos with_todos].
  rewrite find_row_update_rows, Hfind. split_and!; [done..|].
  intros Hok3 Hvar. rewrite getTodo_run, Hok3, Hvar.
  cbn [todos with_todos after_call with_faults].
  by rewrite find_row_update_rows, Hfind.
Qed.


Lemma fs_createTodo w r σ : fs (createTodo w r σ).2 = fs σ.
Proof.
  rewrite createTodo_run. destruct (json_Decode (body r) zero_Todo).1; [done|].
  cbn zeta. rewrite Create_run. cbn zeta.
  destruct (fault_of _); [done|].
  repeat case_bool_decide; cbn [fst snd]; by case_decide.
Qed.

Lemma fs_updateTodo w r σ : fs (updateTodo w r σ).2 = fs σ.
Proof.
  rewrite updateTodo_run.
  destruct (json_Decode (body r) zero_Todo) as [[err|] updatedTodo]; [done|].
  by destruct (fault_of σ).
Qed.

Lemma fs_deleteTodo w r σ : fs (deleteTodo w r σ).2 = fs σ.
Proof. rewrite deleteTodo_run. by destruct (fault_of σ). Qed.

(** X9: the todo routes never touch the file system and the file routes never
    touch the table: an upload sets no row's [file_path], a delete of a todo
    removes no file. *)
Theorem todos_and_files_are_separate (rt : Route) (r : Request) (σ : World) :
  let res := serve rt r σ in
  (todo_route rt → fs res.2 = fs σ) ∧ (file_route rt → todos res.2 = todos σ).
Proof.
  intros res. subst res. unfold todo_route, file_route, serve. split; intros Hrt.
  - destruct rt; cbn [route];
      [apply fs_createTodo|by rewrite getAllTodos_run|by rewrite getTodo_run|
       apply fs_updateTodo|apply fs_deleteTodo|..];
      exfalso; repeat (apply elem_of_cons in Hrt as [Hrt|Hrt]; [discriminate|]);
      inversion Hrt.
  - destruct rt; cbn [route];
      [..|apply todos_uploadFile|apply todos_listFiles|apply todos_downloadFile|
       apply todos_deleteFile];
      exfalso; repeat (apply elem_of_cons in Hrt as [Hrt|Hrt]; [discriminate|]);
      inversion Hrt.
Qed.

(** X10: the four reading routes change neither the table, nor the id
    sequence, nor the file system, whatever they answer. *)
Theorem reads_change_nothing (rt : Route) (r : Request) (σ : World) :
  reading rt →
  let res := serve rt r σ in
  todos res.2 = todos σ ∧ todos_id_seq res.2 = todos_id_seq σ ∧ fs res.2 = fs σ.
Proof.
  intros Hrt res. subst res. unfold reading in Hrt. unfold serve.
  destruct rt; cbn [route];
    [|by rewrite getAllTodos_run|by rewrite getTodo_run| | | |by rewrite listFiles_run|
     by rewrite downloadFile_run|];
    exfalso; repeat (apply elem_of_cons in Hrt as [Hrt|Hrt]; [discriminate|]);
    inversion Hrt.
Qed.


(** X2 on a fresh server. *)
Lemma create_with_deletion_time_witness :
  let res := serve POST_todos deleted_request fresh_world in
  live_rows (todos res.2) = [] ∧
  reports (serve GET_todos_uuid first_uuid_request res.2).1
    StatusNotFound "record not found".
Proof.
  destruct (create_with_deletion_time deleted_request first_uuid_request fresh_world
              _ _ eq_refl eq_refl) as (_ & H2 & H3).
  - vm_compute. reflexivity.
  - split; [exact H2|]. apply H3; vm_compute; reflexivity.
Defined.

(** X3 on the sample table. *)
Lemma deleted_todo_is_not_found_witness :
  let res := serve DELETE_todos_uuid milk_uuid_request stocked_world in
  live_rows (todos res.2) = [] ∧
  reports (serve GET_todos_uuid milk_uuid_request res.2).1
    StatusNotFound "record not found".
Proof.
  destruct (deleted_todo_is_not_found milk_uuid_request milk_uuid_request stocked_world)
    as (H1 & H2).
  - reflexivity.
  - split; [rewrite H1; vm_compute; reflexivity|].
    apply H2; vm_compute; reflexivity.
Defined.


(** X5 on the sample table: the row of [milk] after it was deleted. *)
Lemma rows_are_never_removed_witness :
  let res := serve DELETE_todos_uuid milk_uuid_request stocked_world in
  (∃ t', todos res.2 !! 0%nat = Some t' ∧ same_identity milk t') ∧
  length (todos res.2) = 2%nat.
Proof.
  destruct (rows_are_never_removed DELETE_todos_uuid milk_uuid_request stocked_world)
    as (H1 & H2).
  split; [exact (H1 0%nat milk eq_refl)|].
  destruct H2 as [H2|(H2 & _)]; [exact H2|discriminate H2].
Defined.

(** X6 on the sample table: an update with an unparseable body. *)
Lemma errors_leave_table_alone_witness :
  todos (serve PUT_todos_uuid (with_body (BadJSON "unexpected EOF") milk_uuid_request)
           stocked_world).2 = [milk; bread].
Proof.
  apply (errors_leave_table_alone PUT_todos_uuid
           (with_body (BadJSON "unexpected EOF") milk_uuid_request) stocked_world).
  vm_compute. discriminate.
Defined.

(** X7 on the sample table: completing [milk]. *)
Lemma update_returns_updated_row_witness :
  let res := serve PUT_todos_uuid (update_request (UUID milk) true) stocked_world in
  let row := updated (clock stocked_world) true milk in
  status res.1 = Some StatusOK ∧ written res.1 = [Json (json_of_Todo row)] ∧
  written (serve GET_todos_uuid milk_uuid_request res.2).1 = [Json (json_of_Todo row)].
Proof.
  destruct (update_returns_updated_row (update_request (UUID milk) true)
              milk_uuid_request stocked_world _ milk eq_refl eq_refl eq_refl eq_refl)
    as (H1 & H2 & H3).
  split_and!; [exact H1|exact H2|]. apply H3; vm_compute; reflexivity.
Defined.


(** X9 on the samples: an upload next to the sample table, a delete of a todo
    next to the fresh file system. *)
Lemma todos_and_files_are_separate_witness :
  todos (serve POST_files_upload report_upload stocked_world).2 = [milk; bread] ∧
  fs (serve DELETE_todos_uuid milk_uuid_request stocked_world).2 = fs fresh_world.
Proof.
  split.
  - apply (todos_and_files_are_separate POST_files_upload report_upload stocked_world).
    unfold file_route. apply list_elem_of_here.
  - apply (todos_and_files_are_separate DELETE_todos_uuid milk_uuid_request stocked_world).
    unfold todo_route. repeat constructor.
Defined.

(** X10 on the sample table: a listing. *)
Lemma reads_change_nothing_witness :
  todos (serve GET_todos a_request stocked_world).2 = [milk; bread].
Proof.
  apply (reads_change_nothing GET_todos a_request stocked_world).
  unfold reading. apply list_elem_of_here.
Defined.

End TodoExtras.

(** ** More on paths: names inside the upload directory *)

Section UploadNames.

Lemma stored_name_plain now filename : plain_name (stored_name now filename).
Proof.
  unfold stored_name. apply hyphen_plain_name.
  - apply digits_slash_free, fmt_d_chars.
  - case_decide as Hbase.
    + unfold slash_free. simpl. apply not_elem_of_nil.
    + by destruct (Base_cases filename) as [[? _]|[? _]].
Qed.

(** The stored path is the upload directory, a slash and the stored name. *)
Lemma upload_path_stored now filename :
  upload_path now filename = uploadDir +:+ String "/" (stored_name now filename).
Proof.
  unfold stored_name. case_decide as Hbase.
  - rewrite FileFacts.upload_path_slashes by done. by rewrite app_empty_r.
  - by rewrite FileFacts.upload_path_plain.
Qed.

(** [Join] of the upload directory and an ordinary name. *)
Lemma Join_plain name :
  plain_name name →
  filepath.Join ["/app/uploads"; name] = uploadDir +:+ String "/" name.
Proof. intros Hname. change "/app/uploads" with uploadDir. by rewrite Join_uploadDir, Clean_upload. Qed.

(** The last element of a path inside the upload directory is the name. *)
Lemma Base_upload name :
  plain_name name → filepath.Base (uploadDir +:+ String "/" name) = name.
Proof.
  intros (Hslash & Hne & _). unfold filepath.Base.
  rewrite decide_False by done.
  rewrite components_app, (components_slash_free name) by done.
  change (components uploadDir) with [EmptyString; "app"; "uploads"].
  cbn [app]. rewrite !filter_cons, filter_nil.
  rewrite (decide_True (P := name ≠ EmptyString)) by done. reflexivity.
Qed.

Lemma upload_ne_dir name : uploadDir +:+ String "/" name ≠ uploadDir.
Proof.
  intros Heq. rewrite <- (app_empty_r uploadDir) in Heq at 2.
  by apply (inj (String.app uploadDir)) in Heq.
Qed.

Lemma StronglySorted_filter {A} (R : relation A) (P : A → Prop)
    `{∀ x, Decision (P x)} (l : list A) :
  StronglySorted R l → StronglySorted R (filter P l).
Proof.
  induction 1 as [|x l _ IH Hx]; [constructor|].
  rewrite filter_cons. case_decide; [|done]. constructor; [done|].
  apply Forall_forall. intros y Hy. apply list_elem_of_filter in Hy as [_ Hy].
  rewrite Forall_forall in Hx. by apply Hx.
Qed.

(** The loop of [listFiles]: the names of the entries that are not
    directories, in order; the slice stays nil when there are none. *)
Lemma file_names_regular files :
  file_names files =
  if decide (regular_names files = []) then None else Some (regular_names files).
Proof.
  unfold file_names, regular_names.
  assert (Hgen : ∀ acc : slice string,
    foldl (λ fileNames file,
             if negb (IsDir file) then append fileNames (Name file) else fileNames)
          acc files =
    if decide (Name <$> filter (λ e, IsDir e = false) files = []) then acc
    else Some (from_option id [] acc ++ (Name <$> filter (λ e, IsDir e = false) files))).
  { induction files as [|e files IH]; intros acc; [done|].
    cbn [foldl]. rewrite IH, filter_cons. destruct (IsDir e) eqn:He; cbn [negb].
    - rewrite !(decide_False (P := true = false)) by done. done.
    - rewrite !(decide_True (P := false = false)) by done. rewrite fmap_cons.
      rewrite (decide_False (P := _ :: _ = [])) by done.
      unfold append. cbn [from_option id]. rewrite <- app_assoc. cbn [app].
      case_decide as Hnil; [by rewrite Hnil|done]. }
  rewrite Hgen. by case_decide.
Qed.

(** An entry of the tree that lies directly in [dir] shows among its children. *)
Lemma children_elem dir (tree : gmap string Node) p n :
  tree !! p = Some n → filepath.Dir p = dir → p ≠ dir →
  {| Name := filepath.Base p;
     IsDir := match n with Directory => true | File _ => false end |}
  ∈ os.children dir tree.
Proof.
  intros Hp Hdir Hne. unfold os.children. apply list_elem_of_omap.
  exists (p, n). split; [by apply elem_of_map_to_list|].
  by rewrite decide_True.
Qed.

Lemma children_inv dir (tree : gmap string Node) e :
  e ∈ os.children dir tree →
  ∃ p n, tree !! p = Some n ∧ filepath.Dir p = dir ∧ p ≠ dir ∧
         Name e = filepath.Base p ∧
         IsDir e = match n with Directory => true | File _ => false end.
Proof.
  unfold os.children. intros He.
  apply list_elem_of_omap in He as ([p n] & Hin & Hsome).
  apply elem_of_map_to_list in Hin. case_decide as Hd; [|done].
  simplify_eq/=. exists p, n. by destruct Hd.
Qed.

#[local] Instance by_name_trans : Transitive os.by_name.
Proof. intros a b c. unfold os.by_name. apply transitivity. Qed.

#[local] Instance by_name_total : Total os.by_name.
Proof. intros a b. unfold os.by_name. apply total, _. Qed.

Lemma ReadDir_sorted dir (tree : gmap string Node) :
  StronglySorted String.le
    (regular_names (merge_sort os.by_name (os.children dir tree))).
Proof.
  unfold regular_names.
  apply (StronglySorted_fmap Name os.by_name); [done|].
  apply StronglySorted_filter. apply StronglySorted_merge_sort; apply _.
Qed.

End UploadNames.

(** ** Decimal numbers in names *)

Section Decimals.

Lemma pretty_N_char_is_digit x : is_digit (pretty_N_char x).
Proof. unfold pretty_N_char, is_digit. repeat case_match; repeat constructor. Qed.

Lemma pretty_N_go_digits x s :
  Forall is_digit (chars s) → Forall is_digit (chars (pretty_N_go x s)).
Proof.
  revert s. induction (N.lt_wf_0 x) as [x _ IH]; intros s Hs.
  assert (x = 0 ∨ 0 < x)%N as [->|Hx] by lia.
  - by rewrite pretty_N_go_0.
  - rewrite pretty_N_go_step by done. apply IH.
    + by apply N.div_lt.
    + simpl. constructor; [apply pretty_N_char_is_digit|done].
Qed.

Lemma pretty_N_go_nonempty x s : s ≠ EmptyString → pretty_N_go x s ≠ EmptyString.
Proof.
  revert s. induction (N.lt_wf_0 x) as [x _ IH]; intros s Hs.
  assert (x = 0 ∨ 0 < x)%N as [->|Hx] by lia.
  - by rewrite pretty_N_go_0.
  - rewrite pretty_N_go_step by done. apply IH; [by apply N.div_lt|done].
Qed.

(** A natural number prints as digits, at least one. *)
Lemma pretty_N_digits (x : N) :
  Forall is_digit (chars (pretty x)) ∧ pretty x ≠ EmptyString.
Proof.
  unfold pretty, pretty_N. case_decide as Hx.
  - split; [repeat constructor|done].
  - split; [apply pretty_N_go_digits; constructor|].
    assert (0 < x)%N by lia. rewrite pretty_N_go_step by done.
    by apply pretty_N_go_nonempty.
Qed.

(** Digits followed by a hyphen: the hyphen tells where the digits end. *)
Lemma digits_hyphen_inj d1 d2 b1 b2 :
  Forall is_digit (chars d1) → Forall is_digit (chars d2) →
  d1 +:+ String "-" b1 = d2 +:+ String "-" b2 → d1 = d2 ∧ b1 = b2.
Proof.
  revert d2. induction d1 as [|c d1 IH]; intros [|c2 d2] H1 H2 Heq.
  - rewrite !app_empty_l in Heq. by simplify_eq.
  - exfalso. rewrite app_empty_l, app_String in Heq. simplify_eq/=.
    apply Forall_cons in H2 as [H2 _]. unfold is_digit in H2.
    repeat (apply elem_of_cons in H2 as [H2|H2]; [discriminate|]). inversion H2.
  - exfalso. rewrite app_empty_l, app_String in Heq. simplify_eq/=.
    apply Forall_cons in H1 as [H1 _]. unfold is_digit in H1.
    repeat (apply elem_of_cons in H1 as [H1|H1]; [discriminate|]). inversion H1.
  - rewrite !app_String in Heq. simplify_eq/=.
    apply Forall_cons in H1 as [_ H1]. apply Forall_cons in H2 as [_ H2].
    destruct (IH d2 H1 H2) as [-> ->]; done.
Qed.

(** [%d], a hyphen and a rest: the number can be read back. *)
Lemma fmt_d_hyphen_inj z1 z2 b1 b2 :
  fmt_d z1 +:+ "-" +:+ b1 = fmt_d z2 +:+ "-" +:+ b2 → z1 = z2 ∧ b1 = b2.
Proof.
  intros Heq.
  assert (Hnat : ∀ z, 0 ≤ z →
            Forall is_digit (chars (fmt_d z)) ∧ fmt_d z ≠ EmptyString).
  { intros [|p|p] Hz; [split; [repeat constructor|done]| |lia].
    apply (pretty_N_digits (N.pos p)). }
  assert (Hneg : ∀ z, z < 0 → ∃ d, fmt_d z = String "-" d ∧
            Forall is_digit (chars d)).
  { intros [|p|p] Hz; [lia..|]. exists (pretty (N.pos p)). split; [done|].
    apply (pretty_N_digits (N.pos p)). }
  assert (Hdone : fmt_d z1 = fmt_d z2 ∧ b1 = b2 → z1 = z2 ∧ b1 = b2).
  { intros [Hz ->]. split; [|done]. by apply (inj pretty) in Hz. }
  apply Hdone. clear Hdone.
  change ("-" +:+ b1) with (String "-" b1) in Heq.
  change ("-" +:+ b2) with (String "-" b2) in Heq.
  destruct (decide (0 ≤ z1)) as [H1|H1], (decide (0 ≤ z2)) as [H2|H2].
  - destruct (Hnat z1 H1) as [Hd1 _], (Hnat z2 H2) as [Hd2 _].
    by apply digits_hyphen_inj.
  - exfalso. destruct (Hnat z1 H1) as [Hd1 Hn1].
    destruct (Hneg z2) as (d2 & Hz2 & _); [lia|]. rewrite Hz2, app_String in Heq.
    destruct (fmt_d z1) as [|c d]; [done|]. rewrite app_String in Heq.
    simplify_eq/=. apply Forall_cons in Hd1 as [Hd1 _]. unfold is_digit in Hd1.
    repeat (apply elem_of_cons in Hd1 as [Hd1|Hd1]; [discriminate|]). inversion Hd1.
  - exfalso. destruct (Hnat z2 H2) as [Hd2 Hn2].
    destruct (Hneg z1) as (d1 & Hz1 & _); [lia|]. rewrite Hz1, app_String in Heq.
    destruct (fmt_d z2) as [|c d]; [done|]. rewrite app_String in Heq.
    simplify_eq/=. apply Forall_cons in Hd2 as [Hd2 _]. unfold is_digit in Hd2.
    repeat (apply elem_of_cons in Hd2 as [Hd2|Hd2]; [discriminate|]). inversion Hd2.
  - destruct (Hneg z1) as (d1 & Hz1 & Hd1); [lia|].
    destruct (Hneg z2) as (d2 & Hz2 & Hd2); [lia|].
    rewrite Hz1, Hz2, !app_String in Heq. simplify_eq/=.
    destruct (digits_hyphen_inj d1 d2 b1 b2 Hd1 Hd2) as [-> ->]; [done|].
    by rewrite Hz1, Hz2.
Qed.

End Decimals.

(** ** How the file handlers compose *)

Module FileExtras.

(** What a successful upload has done. *)
Lemma uploadFile_created (r : Request) (σ : World) (file : FormFile) :
  Request_FormFile r "file" = inr file →
  let res := serve POST_files_upload r σ in
  let path := upload_path (clock σ) (Filename file) in
  status res.1 = Some StatusCreated →
  fs σ !! uploadDir = Some Directory ∧
  fs res.2 = <[path := File (content file)]> (fs σ) ∧
  fault_of res.2 = fault_of (after_call (after_call σ)).
Proof.
  intros Hform res path. subst res. unfold serve, route.
  rewrite uploadFile_run, Hform. cbn zeta. fold path.
  rewrite os_Create_run. destruct (fault_of σ) as [err|]; [done|].
  assert (Hdir : filepath.Dir path = uploadDir) by apply FileFacts.upload_path_Dir.
  rewrite Hdir.
  assert (Hcase : fs σ !! path = Some Directory ∨
                  (fs σ !! path ≠ Some Directory ∧
                   (fs σ !! uploadDir = Some Directory ∨
                    fs σ !! uploadDir ≠ Some Directory))).
  { destruct (fs σ !! path) as [[|?]|]; [by left|right..]; (split; [done|]);
      destruct (fs σ !! uploadDir) as [[|?]|]; auto. }
  destruct Hcase as [Hp|[Hp [Hd|Hd]]].
  - by rewrite Hp.
  - rewrite Hd.
    assert (Hcreated :
      match fs σ !! path with
      | Some Directory => (Some (os.PathError "open" path os.EISDIR), after_call σ)
      | _ => (None, with_fs (<[path := File []]> (fs σ)) (after_call σ))
      end = (None, with_fs (<[path := File []]> (fs σ)) (after_call σ))).
    { by destruct (fs σ !! path) as [[|?]|]. }
    rewrite Hcreated. cbn [fst snd]. rewrite os_Copy_to_run.
    change (fault_of (with_fs _ (after_call σ))) with (fault_of (after_call σ)).
    destruct (fault_of (after_call σ)); [done|].
    cbn [fs with_fs]. rewrite lookup_insert_eq. cbn [fst snd fs with_fs app].
    intros _. split_and!; [done| |done]. apply insert_insert_eq.
  - destruct (fs σ !! path) as [[|?]|]; [done|..];
      destruct (fs σ !! uploadDir) as [[|?]|]; done.
Qed.

(** X11: what was uploaded can be downloaded under its stored name: the
    download answers [200] with the very bytes of the upload, as an attachment
    named after the request. *)
Theorem upload_then_download (r r' : Request) (σ : World) (file : FormFile) :
  Request_FormFile r "file" = inr file →
  let res := serve POST_files_upload r σ in
  status res.1 = Some StatusCreated → next_call_ok res.2 →
  content file ≠ [] →
  var r' "filename" = stored_name (clock σ) (Filename file) →
  let got := serve GET_files_download_filename r' res.2 in
  status got.1 = Some StatusOK ∧ written got.1 = [Bytes (content file)] ∧
  header got.1 !! "Content-Disposition"
    = Some ("attachment; filename=" +:+ stored_name (clock σ) (Filename file)) ∧
  header got.1 !! "Content-Type" = Some "application/octet-stream".
Proof.
  intros Hform res Hcreated Hok Hdata Hvar got.
  destruct (uploadFile_created r σ file Hform Hcreated) as (_ & Hfs & _).
  subst got. fold res in Hfs. clearbody res. unfold serve, route.
  rewrite downloadFile_run, os_Open_run, Hok, Hvar.
  rewrite Join_plain by apply stored_name_plain.
  rewrite <- upload_path_stored, Hfs, lookup_insert_eq. cbn [fst].
  destruct (content file) as [|b data]; [done|]. by split_and!.
Qed.

(** X12: what was uploaded shows in the next listing under its stored name,
    and the listing is an array then. *)
Theorem upload_then_list (r r' : Request) (σ : World) (file : FormFile) :
  Request_FormFile r "file" = inr file →
  let res := serve POST_files_upload r σ in
  status res.1 = Some StatusCreated → next_call_ok res.2 →
  let listed := serve GET_files_list r' res.2 in
  status listed.1 = Some StatusOK ∧
  ∃ names, written listed.1 = [Json (JArr (JStr <$> names))] ∧
           stored_name (clock σ) (Filename file) ∈ names.
Proof.
  intros Hform res Hcreated Hok listed.
  destruct (uploadFile_created r σ file Hform Hcreated) as (Hdir & Hfs & _).
  subst listed. fold res in Hfs. clearbody res.
  set (entries := merge_sort os.by_name (os.children uploadDir (fs res.2))).
  assert (Hrun : (serve GET_files_list r' res.2).1 =
    json_Encode (Header_Set "Content-Type" "application/json" new_ResponseWriter)
      (json_of_slice JStr (file_names entries))).
  { unfold serve, route. rewrite listFiles_run, os_ReadDir_run, Hok, Hfs.
    rewrite upload_path_stored.
    rewrite lookup_insert_ne by apply upload_ne_dir. rewrite Hdir. cbn [fst].
    subst entries. by rewrite Hfs, upload_path_stored. }
  rewrite Hrun, file_names_regular. clear Hrun.
  subst entries. rewrite Hfs, upload_path_stored.
  set (entries := merge_sort os.by_name _).
  assert (Hin : stored_name (clock σ) (Filename file) ∈ regular_names entries).
  { unfold regular_names. apply list_elem_of_fmap.
    exists {| Name := stored_name (clock σ) (Filename file); IsDir := false |}.
    split; [done|]. apply list_elem_of_filter. split; [done|].
    subst entries. rewrite merge_sort_Permutation.
    pose proof (stored_name_plain (clock σ) (Filename file)) as Hplain.
    set (name := stored_name (clock σ) (Filename file)) in *.
    pose proof (children_elem uploadDir
                  (<[uploadDir +:+ String "/" name := File (content file)]> (fs σ))
                  (uploadDir +:+ String "/" name) (File (content file))
                  (lookup_insert_eq _ _ _) (Dir_upload name Hplain)
                  (upload_ne_dir name)) as Hc.
    by rewrite Base_upload in Hc. }
  case_decide as Hnil; [rewrite Hnil in Hin; inversion Hin|].
  split; [done|]. by exists (regular_names entries).
Qed.

(** X13: a listing that goes through is sorted by name and holds exactly the
    names of the entries directly in the upload directory that are files, no
    directory among them; it is [null] when there is none. *)
Theorem listFiles_lists_regular_files (r : Request) (σ : World) :
  next_call_ok σ → fs σ !! uploadDir = Some Directory →
  let w := (serve GET_files_list r σ).1 in
  ∃ names,
    status w = Some StatusOK ∧
    written w = [Json (if decide (names = []) then JNull else JArr (JStr <$> names))] ∧
    StronglySorted String.le names ∧
    (∀ name, name ∈ names ↔
       ∃ p data, fs σ !! p = Some (File data) ∧ filepath.Dir p = uploadDir ∧
                 p ≠ uploadDir ∧ filepath.Base p = name).
Proof.
  intros Hok Hdir w. subst w.
  exists (regular_names (merge_sort os.by_name (os.children uploadDir (fs σ)))).
  unfold serve, route. rewrite listFiles_run, os_ReadDir_run, Hok, Hdir. cbn [fst].
  rewrite file_names_regular. split_and!.
  - by case_decide.
  - by case_decide.
  - apply ReadDir_sorted.
  - intros name. unfold regular_names. rewrite list_elem_of_fmap. split.
    + intros (e & -> & He). apply list_elem_of_filter in He as [Hfile He].
      rewrite merge_sort_Permutation in He.
      apply children_inv in He as (p & n & Hp & Hd & Hne & Hname & Hisdir).
      destruct n as [|data]; [congruence|]. by exists p, data.
    + intros (p & data & Hp & Hd & Hne & <-).
      exists {| Name := filepath.Base p; IsDir := false |}. split; [done|].
      apply list_elem_of_filter. split; [done|]. rewrite merge_sort_Permutation.
      by apply (children_elem uploadDir (fs σ) p (File data)).
Qed.

(** X14: an upload whose copy fails after the file was created is answered
    [500] with the error of the copy, and the file stays behind: [uploadFile]
    does not remove what [os.Create] made. *)
Theorem failed_copy_leaves_file (r : Request) (σ : World) (file : FormFile) (err : string) :
  Request_FormFile r "file" = inr file →
  let path := upload_path (clock σ) (Filename file) in
  next_call_ok σ → fs σ !! uploadDir = Some Directory →
  fs σ !! path ≠ Some Directory →
  fault_of (after_call σ) = Some err →
  let res := serve POST_files_upload r σ in
  reports res.1 StatusInternalServerError err ∧
  ∃ data, fs res.2 !! path = Some (File data).
Proof.
  intros Hform path Hok Hdir Hpath Hfault res. subst res. unfold serve, route.
  rewrite uploadFile_run, Hform. cbn zeta. fold path.
  assert (Hcreate : (os.Create path σ).1 = None).
  { apply FileFacts.os_Create_succeeds; [done| |done].
    unfold path. by rewrite FileFacts.upload_path_Dir. }
  rewrite Hcreate, (FileFacts.os_Create_ok path σ Hcreate), os_Copy_to_run.
  change (fault_of (with_fs _ (after_call σ))) with (fault_of (after_call σ)).
  rewrite Hfault. cbn [fst snd]. split; [apply ErrorFacts.reports_http_Error|].
  exists []. cbn [fs with_fs after_call with_faults]. apply lookup_insert_eq.
Qed.

(** X15: deleting a stored file removes it and answers [200]; after that a
    download of the same name answers [404] and a second delete answers [500]
    with the error of [os.Remove]: unlike the delete of a todo, the delete of
    a file is not idempotent. *)
Theorem deleteFile_then_gone (r r' : Request) (σ : World) (data : list byte) :
  let path := filepath.Join ["/app/uploads"; var r "filename"] in
  next_call_ok σ → fs σ !! path = Some (File data) →
  let res := serve DELETE_files_filename r σ in
  status res.1 = Some StatusOK ∧ written res.1 = [] ∧
  fs res.2 = delete path (fs σ) ∧
  (next_call_ok res.2 → var r' "filename" = var r "filename" →
   reports (serve GET_files_download_filename r' res.2).1 StatusNotFound "File not found" ∧
   reports (serve DELETE_files_filename r' res.2).1 StatusInternalServerError
     ("remove " +:+ path +:+ ": no such file or directory") ∧
   fs (serve DELETE_files_filename r' res.2).2 = fs res.2).
Proof.
  intros path Hok Hfile res.
  assert (Hrun : res = (WriteHeader StatusOK new_ResponseWriter,
                        with_fs (delete path (fs σ)) (after_call σ))).
  { subst res. unfold serve, route. rewrite deleteFile_run. cbn zeta. fold path.
    rewrite os_Remove_run, Hok, Hfile. by rewrite decide_False by (by intros [? _]). }
  clearbody res. subst res. cbn [fst snd fs with_fs]. split_and!; [done..|].
  intros Hok' Hvar. unfold serve, route.
  rewrite downloadFile_run, deleteFile_run, Hvar. cbn zeta. fold path.
  rewrite os_Open_run, os_Remove_run, Hok'. cbn [fs with_fs after_call with_faults].
  rewrite lookup_delete_eq. cbn [fst snd].
  split_and!; [apply ErrorFacts.reports_http_Error..|done].
Qed.

(** X16: uploads at different nanoseconds never get the same path, whatever
    the client names are: the stored name tells the timestamp, and what follows
    the hyphen. *)
Theorem upload_paths_distinct (now1 now2 : Time) (filename1 filename2 : string) :
  Time_UnixNano now1 ≠ Time_UnixNano now2 →
  upload_path now1 filename1 ≠ upload_path now2 filename2.
Proof.
  intros Hne Heq. rewrite !upload_path_stored in Heq.
  apply (inj (String.app uploadDir)) in Heq. injection Heq as Heq.
  unfold stored_name in Heq. by apply fmt_d_hyphen_inj in Heq as [? _].
Qed.

(** X11 on a fresh server. *)
Lemma upload_then_download_witness :
  let res := serve POST_files_upload report_upload fresh_world in
  written (serve GET_files_download_filename
             (with_var "filename" "1664403200000000000-report.txt" a_request) res.2).1
  = [Bytes [104; 105; 10]].
Proof.
  destruct (upload_then_download report_upload
              (with_var "filename" "1664403200000000000-report.txt" a_request)
              fresh_world _ eq_refl) as (_ & H & _).
  - vm_compute. reflexivity.
  - vm_compute. reflexivity.
  - discriminate.
  - vm_compute. reflexivity.
  - exact H.
Defined.

(** X12 on a fresh server. *)
Lemma upload_then_list_witness :
  let res := serve POST_files_upload report_upload fresh_world in
  ∃ names, written (serve GET_files_list a_request res.2).1
             = [Json (JArr (JStr <$> names))] ∧
           "1664403200000000000-report.txt" ∈ names.
Proof.
  destruct (upload_then_list report_upload a_request fresh_world _ eq_refl)
    as (_ & names & Hw & Hin).
  - vm_compute. reflexivity.
  - vm_compute. reflexivity.
  - exists names. split; [exact Hw|exact Hin].
Defined.

(** X13 on a fresh server after an upload. *)
Lemma listFiles_lists_regular_files_witness :
  let σ := (serve POST_files_upload report_upload fresh_world).2 in
  ∃ names, written (serve GET_files_list a_request σ).1
             = [Json (if decide (names = []) then JNull else JArr (JStr <$> names))] ∧
           StronglySorted String.le names.
Proof.
  destruct (listFiles_lists_regular_files a_request
              (serve POST_files_upload report_upload fresh_world).2)
    as (names & _ & Hw & Hs & _).
  - vm_compute. reflexivity.
  - vm_compute. reflexivity.
  - exists names. split; [exact Hw|exact Hs].
Defined.

(** X14 on a fresh server whose second file-system call fails. *)
Lemma failed_copy_leaves_file_witness :
  let σ := with_faults [None; Some "write: no space left on device"] fresh_world in
  let res := serve POST_files_upload report_upload σ in
  reports res.1 StatusInternalServerError "write: no space left on device" ∧
  ∃ data, fs res.2 !! "/app/uploads/1664403200000000000-report.txt" = Some (File data).
Proof.
  apply (failed_copy_leaves_file report_upload
           (with_faults [None; Some "write: no space left on device"] fresh_world)
           {| Filename := "a/b/report.txt"; content := [104; 105; 10] |}).
  - reflexivity.
  - reflexivity.
  - vm_compute. reflexivity.
  - vm_compute. discriminate.
  - reflexivity.
Defined.

(** X15 on a fresh server after an upload. *)
Lemma deleteFile_then_gone_witness :
  let σ := (serve POST_files_upload report_upload fresh_world).2 in
  let r := with_var "filename" "1664403200000000000-report.txt" a_request in
  let res := serve DELETE_files_filename r σ in
  status res.1 = Some StatusOK ∧
  reports (serve GET_files_download_filename r res.2).1 StatusNotFound "File not found".
Proof.
  destruct (deleteFile_then_gone
              (with_var "filename" "1664403200000000000-report.txt" a_request)
              (with_var "filename" "1664403200000000000-report.txt" a_request)
              (serve POST_files_upload report_upload fresh_world).2 [104; 105; 10])
    as (H1 & _ & _ & H2).
  - vm_compute. reflexivity.
  - vm_compute. reflexivity.
  - split; [exact H1|]. apply H2; vm_compute; reflexivity.
Defined.

(** X16 on two uploads of the same client name one nanosecond apart. *)
Lemma upload_paths_distinct_witness :
  upload_path (clock fresh_world) "report.txt"
  ≠ upload_path (clock fresh_world + 1) "report.txt".
Proof. apply upload_paths_distinct. vm_compute. discriminate. Defined.

End FileExtras.

(** ** More on the startup connector *)

Module ConnectorExtras.
Import Connector.

Section Waits.
Variable os_Getenv : string → string.
Variable gorm_Open : Z → string → string + Handle.

(** X17: the time [connectToDatabase] spends asleep is [(k - 1) * k] seconds
    when attempt [k] is the first to succeed, and 30 seconds when all five
    attempts fail; it never sleeps longer than that. *)
Theorem connect_total_wait :
  let run := connectToDatabase os_Getenv gorm_Open in
  (∀ k h, 1 ≤ k ≤ 5 → (∀ j, 1 ≤ j < k → fails os_Getenv gorm_Open j) →
          gorm_Open k (dsn os_Getenv) = inr h →
          total_wait run.2 = (k - 1) * k * Second) ∧
  ((∀ j, 1 ≤ j ≤ 5 → fails os_Getenv gorm_Open j) →
   total_wait run.2 = 30 * Second) ∧
  0 ≤ total_wait run.2 ≤ 30 * Second.
Proof.
  intros run.
  assert (Hsucc : ∀ k h, 1 ≤ k ≤ 5 →
            (∀ j, 1 ≤ j < k → fails os_Getenv gorm_Open j) →
            gorm_Open k (dsn os_Getenv) = inr h →
            total_wait run.2 = (k - 1) * k * Second).
  { intros k h Hk Hf Hh. subst run. unfold total_wait.
    rewrite (ConnectorFacts.connect_first_success _ _ k h) by done. cbn [snd].
    rewrite ConnectorFacts.sleeps_app, ConnectorFacts.sleeps_failed_attempts.
    change (sleeps (success_events os_Getenv)) with (@nil Z). rewrite app_nil_r.
    assert (k = 1 ∨ k = 2 ∨ k = 3 ∨ k = 4 ∨ k = 5) as [->|[->|[->|[->| ->]]]] by lia;
      reflexivity. }
  assert (Hfatal : (∀ j, 1 ≤ j ≤ 5 → fails os_Getenv gorm_Open j) →
            total_wait run.2 = 30 * Second).
  { intros Hf. subst run. unfold total_wait.
    rewrite ConnectorFacts.connect_all_fail by done. cbn [snd].
    by rewrite ConnectorFacts.sleeps_app, ConnectorFacts.sleeps_failed_attempts. }
  split_and!; [done|done|..].
  - destruct (ConnectorFacts.first_success_or_none os_Getenv gorm_Open 5)
      as [Hf|(k & h & Hk & Hf & Hh)].
    + rewrite Hfatal by (intros j Hj; apply Hf; lia). unfold Second. lia.
    + rewrite (Hsucc k h) by (first [lia|done]). unfold Second. nia.
  - destruct (ConnectorFacts.first_success_or_none os_Getenv gorm_Open 5)
      as [Hf|(k & h & Hk & Hf & Hh)].
    + rewrite Hfatal by (intros j Hj; apply Hf; lia). lia.
    + rewrite (Hsucc k h) by (first [lia|done]). unfold Second. nia.
Qed.

End Waits.

(** X17 on a store that is reachable from the 3rd attempt on. *)
Lemma connect_total_wait_witness :
  total_wait (connectToDatabase no_env (reachable_from 3)).2 = 6 * Second ∧
  total_wait (connectToDatabase no_env never_reachable).2 = 30 * Second.
Proof.
  destruct (connect_total_wait no_env (reachable_from 3)) as (H3 & _ & _).
  destruct (connect_total_wait no_env never_reachable) as (_ & H5 & _).
  split.
  - rewrite (H3 3 {| h_dsn := dsn no_env; h_call := 3 |}).
    + reflexivity.
    + lia.
    + intros j Hj. exists "connection refused". unfold reachable_from.
      rewrite decide_False by lia. reflexivity.
    + reflexivity.
  - apply H5. intros j Hj. exists "connection refused". reflexivity.
Defined.

End ConnectorExtras.

(** ** The client against the server *)

Module ClientExtras.

(** X18: whatever the listing of the files answers, [fetchFiles] leaves
    [files] an array of strings: the [null] of an empty directory becomes the
    empty array, an error keeps the list the client had. *)
Theorem fetchFiles_keeps_array (r : Request) (σ : World) (st : App.State) :
  is_string_array (App.s_files st) →
  let st' := App.fetchFiles (serve GET_files_list r σ).1 st in
  is_string_array (App.s_files st') ∧ App.s_todos st' = App.s_todos st.
Proof.
  intros Hst st'. subst st'. unfold serve, route. rewrite listFiles_run. cbn [fst].
  destruct (os.ReadDir uploadDir σ).1 as [err|files].
  - unfold App.fetchFiles.
    change (App.response_ok (http_Error new_ResponseWriter err StatusInternalServerError))
      with false. done.
  - rewrite file_names_regular. unfold App.fetchFiles.
    case_decide as Hnil.
    + split; [|done]. by exists [].
    + split; [|done]. cbn. by exists (regular_names files).
Qed.

(** X19: the listing of the todos is never [null]: after [fetchTodos], [todos]
    is an array, one element per row that is not deleted, and an error keeps
    what the client had. *)
Theorem fetchTodos_keeps_array (r : Request) (σ : World) (st : App.State) :
  is_array (App.s_todos st) →
  let st' := App.fetchTodos (serve GET_todos r σ).1 st in
  is_array (App.s_todos st') ∧ App.s_files st' = App.s_files st ∧
  (next_call_ok σ →
   App.s_todos st' = JArr (json_of_Todo <$> live_rows (todos σ))).
Proof.
  intros Hst st'. subst st'. unfold serve, route. rewrite getAllTodos_run. cbn [fst].
  unfold next_call_ok. destruct (fault_of σ) as [err|].
  - unfold App.fetchTodos.
    change (App.response_ok (http_Error new_ResponseWriter err StatusInternalServerError))
      with false. done.
  - split_and!; [|done..]. cbn. by eexists.
Qed.

(** X18 on a fresh server, from the initial state. *)
Lemma fetchFiles_keeps_array_witness :
  is_string_array
    (App.s_files (App.fetchFiles (serve GET_files_list a_request fresh_world).1
                    App.initial)).
Proof.
  destruct (fetchFiles_keeps_array a_request fresh_world App.initial) as [H _].
  - by exists [].
  - exact H.
Defined.

(** X19 on the sample table, from the initial state. *)
Lemma fetchTodos_keeps_array_witness :
  App.s_todos (App.fetchTodos (serve GET_todos a_request stocked_world).1 App.initial)
  = JArr [json_of_Todo milk].
Proof.
  destruct (fetchTodos_keeps_array a_request stocked_world App.initial) as (_ & _ & H).
  - by exists [].
  - apply H. reflexivity.
Defined.

End ClientExtras.

(** ** The router *)

Section RouterPaths.

Lemma Forall_removelast {A} (P : A → Prop) (l : list A) :
  Forall P l → Forall P (removelast l).
Proof.
  induction 1 as [|x l Hx Hl IH]; [constructor|].
  simpl. destruct l; [constructor|]. by constructor.
Qed.

(** What [Clean] keeps of a rooted path are ordinary names. *)
Lemma Clean_rooted_plain elems : ∀ out dotdot,
  Forall slash_free elems → Forall plain_name out →
  Forall plain_name (foldl (filepath.Clean_step true) (out, dotdot) elems).1.
Proof.
  induction elems as [|e elems IH]; intros out dotdot Hel Hout; [done|].
  apply Forall_cons in Hel as [He Hel]. cbn [foldl].
  unfold filepath.Clean_step at 2.
  destruct (decide (e = EmptyString)); [by apply IH|].
  destruct (decide (e = ".")); [by apply IH|].
  destruct (decide (e = "..")).
  - case_decide; [|by apply IH]. apply IH; [done|]. by apply Forall_removelast.
  - apply IH; [done|]. apply Forall_app. split; [done|]. by repeat constructor.
Qed.

(** Joining ordinary names with slashes and splitting again. *)
Lemma components_Join out :
  Forall slash_free out → out ≠ [] → components (strings_Join out "/") = out.
Proof.
  induction 1 as [|e out He Hout IH]; [done|]. intros _.
  destruct out as [|e' out]; [by apply components_slash_free|].
  change (strings_Join (e :: e' :: out) "/")
    with (e +:+ String "/" (strings_Join (e' :: out) "/")).
  rewrite components_app, IH by done. by rewrite components_slash_free.
Qed.

Lemma rooted_String p : filepath.rooted p = true → ∃ rest, p = String "/" rest.
Proof.
  destruct p as [|c rest]; [done|]. unfold filepath.rooted.
  intros H. exists rest. f_equal.
  destruct c as [[] [] [] [] [] [] [] []]; done.
Qed.

(** A path that [cleanPath] leaves alone is made of ordinary names, apart
    from the empty pieces at its ends. *)
Lemma cleanPath_fixed p :
  mux.cleanPath p = p →
  Forall (λ e, e = EmptyString ∨ plain_name e) (components p).
Proof.
  unfold mux.cleanPath. case_decide as Hp; [by intros <-|].
  set (p' := if filepath.rooted p then p else "/" +:+ p).
  assert (Hrooted : filepath.rooted p' = true).
  { subst p'. by destruct (filepath.rooted p) eqn:Hr. }
  assert (Hp' : p' ≠ EmptyString).
  { subst p'. by destruct (filepath.rooted p). }
  assert (Hclean : ∃ out, Forall plain_name out ∧
            filepath.Clean p' = "/" +:+ strings_Join out "/").
  { exists (foldl (filepath.Clean_step true) ([], 0%nat) (components p')).1.
    split.
    - apply Clean_rooted_plain; [apply components_slash_free_all|constructor].
    - unfold filepath.Clean. by rewrite decide_False, Hrooted by done. }
  destruct Hclean as (out & Hout & ->).
  assert (Hsf : Forall slash_free out).
  { eapply Forall_impl; [exact Hout|]. by intros e [? _]. }
  assert (Hweak : Forall (λ e, e = EmptyString ∨ plain_name e) out).
  { eapply Forall_impl; [exact Hout|]. auto. }
  clearbody p'. clear Hrooted Hp'.
  destruct (mux.ends_with_slash p' && _); intros <-.
  - change (("/" +:+ strings_Join out "/") +:+ "/")
      with (String "/" (strings_Join out "/" +:+ String "/" EmptyString)).
    change (String "/" ?s) with (EmptyString +:+ String "/" s).
    rewrite !components_app.
    destruct out as [|e out].
    + repeat constructor.
    + rewrite components_Join by done.
      apply Forall_app. split; [repeat constructor|].
      apply Forall_app. split; [done|repeat constructor].
  - change ("/" +:+ strings_Join out "/")
      with (EmptyString +:+ String "/" (strings_Join out "/")).
    rewrite components_app. destruct out as [|e out].
    + repeat constructor.
    + rewrite components_Join by done.
      apply Forall_app. split; [repeat constructor|done].
Qed.

(** The variables of a match are pieces of the path, bound for every
    variable of the template. *)
Lemma match_segments_vars segs : ∀ elems vars0 vars,
  mux.match_segments segs elems vars0 = Some vars →
  (∀ k v, vars !! k = Some v →
          vars0 !! k = Some v ∨ (v ∈ elems ∧ v ≠ EmptyString)) ∧
  (∀ k, is_Some (vars0 !! k) ∨ mux.Var k ∈ segs → is_Some (vars !! k)).
Proof.
  induction segs as [|seg segs IH]; intros elems vars0 vars Hm.
  - destruct elems; [|done]. simplify_eq/=. split; [auto|].
    intros k [?|Hin]; [done|inversion Hin].
  - destruct elems as [|e elems]; [by destruct seg|].
    destruct seg as [s|name]; simpl in Hm.
    + case_decide; [|done]. apply IH in Hm as [H1 H2]. split.
      * intros k v Hv. destruct (H1 k v Hv) as [?|[? ?]]; [by left|right].
        split; [by right|done].
      * intros k [?|Hin]; apply H2; [by left|right].
        apply elem_of_cons in Hin as [?|?]; [done|done].
    + case_decide as He; [done|]. apply IH in Hm as [H1 H2]. split.
      * intros k v Hv. destruct (H1 k v Hv) as [Hold|[? ?]].
        -- destruct (decide (name = k)) as [->|Hne].
           ++ rewrite lookup_insert_eq in Hold. simplify_eq. right.
              split; [by left|done].
           ++ rewrite lookup_insert_ne in Hold by done. by left.
        -- right. split; [by right|done].
      * intros k [Hk|Hin]; apply H2.
        -- left. destruct (decide (name = k)) as [->|Hne].
           ++ rewrite lookup_insert_eq. by eexists.
           ++ by rewrite lookup_insert_ne.
        -- apply elem_of_cons in Hin as [Heq|?]; [|by right].
           left. simplify_eq. rewrite lookup_insert_eq. by eexists.
Qed.

(** A match comes from one of the registered routes. *)
Lemma Match_registered rs : ∀ method path mismatch rt vars,
  mux.Match rs method path mismatch = mux.Matched rt vars →
  ∃ rg, rg ∈ rs ∧ mux.endpoint rg = rt ∧ method ∈ mux.methods rg ∧
        mux.match_segments (mux.template (mux.tpl rg)) (components path) ∅ = Some vars.
Proof.
  induction rs as [|rg rs IH]; intros method path mismatch rt vars Hm.
  - simpl in Hm. by destruct mismatch.
  - simpl in Hm.
    destruct (mux.match_segments _ _ _) as [vars'|] eqn:Hseg.
    + case_decide as Hmeth.
      * simplify_eq. exists rg. split_and!; [left|done..].
      * apply IH in Hm as (rg' & ? & ? & ? & ?). exists rg'. split_and!; [by right|done..].
    + apply IH in Hm as (rg' & ? & ? & ? & ?). exists rg'. split_and!; [by right|done..].
Qed.

(** The routes of the files with a name bind [filename]; those of a todo
    with a uuid bind [uuid]. *)
Lemma routes_bind rg :
  rg ∈ routes →
  (mux.endpoint rg = GET_files_download_filename ∨
   mux.endpoint rg = DELETE_files_filename →
   mux.Var "filename" ∈ mux.template (mux.tpl rg)) ∧
  (mux.endpoint rg = GET_todos_uuid ∨ mux.endpoint rg = PUT_todos_uuid ∨
   mux.endpoint rg = DELETE_todos_uuid →
   mux.Var "uuid" ∈ mux.template (mux.tpl rg)).
Proof.
  unfold routes. intros Hin.
  repeat (apply elem_of_cons in Hin as [->|Hin];
          [split; intros H; first [by repeat destruct H as [H|H]
                                  |vm_compute; repeat constructor]|]).
  inversion Hin.
Qed.

(** What the router hands to a handler as a variable of the path is an
    ordinary name: not empty, no slash, neither [.] nor [..]. *)
Lemma routed_vars_plain method path rt vars :
  mux.cleanPath path = path →
  mux.Match routes method path false = mux.Matched rt vars →
  (∀ k v, vars !! k = Some v → plain_name v) ∧
  (rt = GET_files_download_filename ∨ rt = DELETE_files_filename →
   is_Some (vars !! "filename")) ∧
  (rt = GET_todos_uuid ∨ rt = PUT_todos_uuid ∨ rt = DELETE_todos_uuid →
   is_Some (vars !! "uuid")).
Proof.
  intros Hclean Hm.
  apply Match_registered in Hm as (rg & Hrg & <- & _ & Hseg).
  apply match_segments_vars in Hseg as [H1 H2].
  destruct (routes_bind rg Hrg) as [Hf Hu]. split_and!.
  - intros k v Hv. destruct (H1 k v Hv) as [Hempty|[Hin Hne]].
    { by rewrite lookup_empty in Hempty. }
    pose proof (cleanPath_fixed path Hclean) as Hall.
    rewrite Forall_forall in Hall. by destruct (Hall v Hin).
  - intros Hrt. apply H2. right. by apply Hf.
  - intros Hrt. apply H2. right. by apply Hu.
Qed.

End RouterPaths.

Module RouterExtras.

(** An upload writes at its stored path only. *)
Lemma fs_uploadFile_elsewhere w r σ p :
  filepath.Dir p ≠ uploadDir → fs (uploadFile w r σ).2 !! p = fs σ !! p.
Proof.
  intros Hp. rewrite uploadFile_run.
  destruct (Request_FormFile r "file") as [err|file]; [done|]. cbn zeta.
  set (path := upload_path (clock σ) (Filename file)).
  assert (Hne : path ≠ p).
  { intros <-. apply Hp. apply FileFacts.upload_path_Dir. }
  assert (Hcreate : fs (os.Create path σ).2 !! p = fs σ !! p).
  { rewrite os_Create_run. destruct (fault_of σ); [done|].
    destruct (fs σ !! path) as [[|?]|]; [done|..];
      destruct (fs σ !! filepath.Dir path) as [[|?]|]; try done;
      cbn [snd fs with_fs]; by rewrite lookup_insert_ne. }
  destruct (os.Create path σ).1; [done|].
  assert (Hcopy : fs (os.Copy_to path (content file) (os.Create path σ).2).2 !! p
                  = fs σ !! p).
  { rewrite os_Copy_to_run. destruct (fault_of _); [done|].
    destruct (fs _ !! path) as [[|?]|]; try done.
    cbn [snd fs with_fs]. by rewrite lookup_insert_ne. }
  by destruct (os.Copy_to path _ _).1.
Qed.

(** A delete of a file removes at its path only. *)
Lemma fs_deleteFile_elsewhere w r σ p :
  filepath.Join ["/app/uploads"; var r "filename"] ≠ p →
  fs (deleteFile w r σ).2 !! p = fs σ !! p.
Proof.
  intros Hne. rewrite deleteFile_run. cbn zeta. rewrite os_Remove_run.
  destruct (fault_of σ); [done|]. destruct (fs σ !! _); [|done].
  case_decide; [done|]. cbn [snd fs with_fs]. by rewrite lookup_delete_ne.
Qed.

(** The variable a handler reads is the one the router bound. *)
Lemma var_bound (vs : gmap string string) b f k v :
  vs !! k = Some v → var {| vars := vs; body := b; form := f |} k = v.
Proof. intros H. unfold var. cbn [vars]. by rewrite H. Qed.

(** X20: no request that comes through the router changes the file system
    outside the upload directory: only entries directly inside it are ever
    created, written or removed, and the directory itself stays.  The name in
    a path is an ordinary name by the time a handler sees it, because the
    router redirects paths that are not clean and a variable spans one
    non-empty element. *)
Theorem router_keeps_files_inside (w : ResponseWriter) (req : Incoming)
    (σ : World) (p : string) :
  filepath.Dir p ≠ uploadDir →
  fs (Router_ServeHTTP w req σ).2 !! p = fs σ !! p.
Proof.
  intros Hp. unfold Router_ServeHTTP. cbn zeta.
  case_decide as Hclean; [done|].
  assert (Hfixed : mux.cleanPath (URL_Path req) = URL_Path req).
  { by destruct (decide (mux.cleanPath (URL_Path req) = URL_Path req)). }
  destruct (mux.Match routes (Method req) (URL_Path req) false) as [rt vs| |] eqn:Hm;
    [|done..].
  destruct (routed_vars_plain _ _ _ _ Hfixed Hm) as (Hplain & Hfile & _).
  destruct rt; cbn [route].
  - by rewrite TodoExtras.fs_createTodo.
  - by rewrite getAllTodos_run.
  - by rewrite getTodo_run.
  - by rewrite TodoExtras.fs_updateTodo.
  - by rewrite TodoExtras.fs_deleteTodo.
  - by apply fs_uploadFile_elsewhere.
  - by rewrite listFiles_run.
  - by rewrite downloadFile_run.
  - destruct Hfile as [v Hv]; [by right|].
    apply fs_deleteFile_elsewhere. rewrite (var_bound _ _ _ _ v Hv).
    rewrite Join_plain by (by eapply Hplain). intros <-. apply Hp.
    apply Dir_upload. by eapply Hplain.
Qed.

Ltac no_bytes H :=
  cbn in H; repeat (apply elem_of_cons in H as [H|H]; [discriminate|]);
  solve [inversion H].

(** X21: the only bytes the router ever sends are those of a file that lies
    directly in the upload directory under an ordinary name: no request makes
    it send a file from elsewhere. *)
Theorem router_sends_only_uploads (req : Incoming) (σ : World) (b : list byte) :
  Bytes b ∈ written (Router_ServeHTTP new_ResponseWriter req σ).1 →
  ∃ v, plain_name v ∧ fs σ !! (uploadDir +:+ "/" +:+ v) = Some (File b).
Proof.
  unfold Router_ServeHTTP. cbn zeta.
  case_decide as Hclean; [intros H; no_bytes H|].
  assert (Hfixed : mux.cleanPath (URL_Path req) = URL_Path req).
  { by destruct (decide (mux.cleanPath (URL_Path req) = URL_Path req)). }
  destruct (mux.Match routes (Method req) (URL_Path req) false) as [rt vs| |] eqn:Hm;
    [|intros H; no_bytes H..].
  destruct (routed_vars_plain _ _ _ _ Hfixed Hm) as (Hplain & Hfile & _).
  destruct rt; cbn [route].
  - rewrite createTodo_run. destruct (json_Decode _ _).1; [intros H; no_bytes H|].
    cbn zeta. destruct (gorm.Create _ _).1.1; intros H; no_bytes H.
  - rewrite getAllTodos_run. destruct (fault_of σ); intros H; no_bytes H.
  - rewrite getTodo_run. destruct (fault_of σ); [intros H; no_bytes H|].
    destruct (find_row _ _); intros H; no_bytes H.
  - rewrite updateTodo_run. destruct (json_Decode _ _) as [[?|] ?];
      [intros H; no_bytes H|]. destruct (fault_of σ); intros H; no_bytes H.
  - rewrite deleteTodo_run. destruct (fault_of σ); intros H; no_bytes H.
  - rewrite uploadFile_run. destruct (Request_FormFile _ _); [intros H; no_bytes H|].
    cbn zeta. destruct (os.Create _ _).1; [intros H; no_bytes H|].
    destruct (os.Copy_to _ _ _).1; intros H; no_bytes H.
  - rewrite listFiles_run. destruct (os.ReadDir _ _).1; intros H; no_bytes H.
  - destruct Hfile as [v Hv]; [by left|].
    rewrite downloadFile_run, os_Open_run, (var_bound _ _ _ _ v Hv).
    rewrite Join_plain by (by eapply Hplain).
    destruct (fault_of σ); [intros H; no_bytes H|].
    destruct (fs σ !! _) as [[|[|c data]]|] eqn:Hfs; try (intros H; no_bytes H).
    intros H. cbn in H. apply list_elem_of_singleton in H. simplify_eq.
    exists v. split; [by eapply Hplain|done].
  - rewrite deleteFile_run. cbn zeta. destruct (os.Remove _ _).1; intros H; no_bytes H.
Qed.

(** X20 on a server with a file next to the upload directory. *)
Lemma router_keeps_files_inside_witness :
  fs (Router_ServeHTTP new_ResponseWriter (incoming "DELETE" "/files/17-a.txt")
        world_with_secret).2 !! "/app/secret.txt"
  = fs world_with_secret !! "/app/secret.txt".
Proof.
  apply (router_keeps_files_inside new_ResponseWriter
           (incoming "DELETE" "/files/17-a.txt") world_with_secret "/app/secret.txt").
  vm_compute. discriminate.
Defined.

(** X21 on the same server: the download of the file that is inside. *)
Lemma router_sends_only_uploads_witness :
  ∃ v, plain_name v ∧
       fs world_with_secret !! (uploadDir +:+ "/" +:+ v) = Some (File [97]).
Proof.
  apply (router_sends_only_uploads (incoming "GET" "/files/download/17-a.txt")
           world_with_secret [97]).
  vm_compute. constructor.
Defined.

(** [Join] of the upload directory and a name below [..]. *)
Lemma Join_dotdot name :
  plain_name name →
  filepath.Join ["/app/uploads"; "../" +:+ name] = "/app/" +:+ name.
Proof.
  intros Hname.
  change (filepath.Join ["/app/uploads"; "../" +:+ name])
    with (filepath.Clean ("/app/uploads/.." +:+ String "/" name)).
  unfold filepath.Clean. rewrite decide_False by done.
  change (filepath.rooted ("/app/uploads/.." +:+ String "/" name)) with true.
  cbn iota.
  rewrite components_app, (components_slash_free name) by apply Hname.
  rewrite foldl_app.
  change (foldl (filepath.Clean_step true) ([], 0%nat) (components "/app/uploads/.."))
    with (["app"], 0%nat).
  cbn [foldl]. rewrite Clean_step_plain by done. reflexivity.
Qed.

(** X22: the two handlers that take a file name from the path do not confine
    it themselves.  Called with the name [../n], [deleteFile] removes the file
    [/app/n], which lies outside the upload directory, and answers [200], and
    [downloadFile] sends its bytes: [filepath.Join] resolves the [..].  What
    keeps requests inside the upload directory is the router, which never
    hands such a name to a handler. *)
Theorem file_handlers_follow_dotdot (w : ResponseWriter) (r : Request) (σ : World)
    (n : string) (b : list byte) :
  plain_name n → var r "filename" = "../" +:+ n →
  next_call_ok σ → fs σ !! ("/app/" +:+ n) = Some (File b) → b ≠ [] →
  filepath.Dir ("/app/" +:+ n) ≠ uploadDir ∧
  status (deleteFile w r σ).1 = status (WriteHeader StatusOK w) ∧
  fs (deleteFile w r σ).2 !! ("/app/" +:+ n) = None ∧
  written (downloadFile w r σ).1 = written w ++ [Bytes b].
Proof.
  intros Hname Hvar Hok Hfile Hb. split_and!.
  - unfold filepath.Dir.
    change ("/app/" +:+ n) with ("/app" +:+ String "/" n).
    rewrite components_app, (components_slash_free n) by apply Hname.
    rewrite removelast_last. vm_compute. discriminate.
  - rewrite deleteFile_run. cbn zeta. rewrite Hvar, Join_dotdot by done.
    rewrite os_Remove_run, Hok, Hfile. by rewrite decide_False by (by intros [? _]).
  - rewrite deleteFile_run. cbn zeta. rewrite Hvar, Join_dotdot by done.
    rewrite os_Remove_run, Hok, Hfile. rewrite decide_False by (by intros [? _]).
    cbn [snd fs with_fs]. apply lookup_delete_eq.
  - rewrite downloadFile_run, os_Open_run, Hvar, Join_dotdot, Hok, Hfile by done.
    cbn [fst]. destruct b as [|c b]; [done|].
    unfold Write, WriteHeader, Header_Set.
    destruct (status w) eqn:Hs; cbn [written status]; rewrite ?Hs; done.
Qed.

(** X22 on a server with a file next to the upload directory. *)
Lemma file_handlers_follow_dotdot_witness :
  fs (deleteFile new_ResponseWriter (with_var "filename" "../secret.txt" a_request)
        world_with_secret).2 !! "/app/secret.txt" = None ∧
  written (downloadFile new_ResponseWriter
             (with_var "filename" "../secret.txt" a_request) world_with_secret).1
  = [Bytes [115; 51]].
Proof.
  destruct (file_handlers_follow_dotdot new_ResponseWriter
              (with_var "filename" "../secret.txt" a_request) world_with_secret
              "secret.txt" [115; 51]) as (_ & _ & Hfs & Hw).
  - vm_compute. repeat split; try discriminate.
    intros H. repeat (apply elem_of_cons in H as [H|H]; [discriminate|]).
    inversion H.
  - vm_compute. reflexivity.
  - vm_compute. reflexivity.
  - vm_compute. reflexivity.
  - discriminate.
  - split; [exact Hfs|exact Hw].
Defined.

End RouterExtras.

Section Startup.

Lemma length_drop_while f l : (length (os.drop_while f l) ≤ length l)%nat.
Proof. induction l as [|c l IH]; simpl; [lia|]. destruct (f c); simpl; lia. Qed.

Lemma length_list_ascii s : length (String.list_ascii_of_string s) = String.length s.
Proof. induction s as [|c s IH]; simpl; congruence. Qed.

Lemma length_of_list_ascii l : String.length (String.string_of_list_ascii l) = length l.
Proof. induction l as [|c l IH]; simpl; congruence. Qed.

(** A parent is shorter than its path. *)
Lemma parent_shorter path :
  os.parent path ≠ EmptyString → (String.length (os.parent path) < String.length path)%nat.
Proof.
  unfold os.parent.
  set (back := os.drop_while _ (os.drop_while _ _)).
  assert (Hlen : (length back ≤ String.length path)%nat).
  { subst back. etrans; [apply length_drop_while|].
    etrans; [apply length_drop_while|].
    by rewrite length_reverse, length_list_ascii. }
  intros Hne. rewrite length_of_list_ascii, length_reverse.
  destruct back as [|c back]; [done|]. simpl in *. lia.
Qed.

(** The length of the path is fuel enough for [mkdir_all]. *)
Lemma mkdir_all_fuel fuel : ∀ path tree,
  (String.length path ≤ fuel)%nat →
  os.mkdir_all fuel path tree = os.mkdir_all (String.length path) path tree.
Proof.
  induction (lt_wf fuel) as [fuel _ IH]. intros path tree Hfuel.
  destruct fuel as [|fuel].
  { by replace (String.length path) with O by lia. }
  destruct (String.length path) as [|n] eqn:Hn.
  - simpl. destruct (tree !! path) as [[|?]|]; [done..|].
    case_decide as Hp; [done|].
    pose proof (parent_shorter path Hp). lia.
  - simpl. destruct (tree !! path) as [[|?]|]; [done..|].
    case_decide as Hp; [done|].
    pose proof (parent_shorter path Hp) as Hlt.
    rewrite (IH fuel) by lia. rewrite (IH n) by lia. done.
Qed.

Lemma os_MkdirAll_run path σ :
  os.MkdirAll path σ =
  match fault_of σ with
  | Some err => (Some err, after_call σ)
  | None =>
      ((os.mkdir_all (String.length path) path (fs σ)).1,
       with_fs (os.mkdir_all (String.length path) path (fs σ)).2 (after_call σ))
  end.
Proof.
  unfold os.MkdirAll. rewrite bind_run, next_fault_run. cbn [fst snd].
  destruct (fault_of σ); [reflexivity|]. unfold_M. cbn beta iota zeta.
  change (fs (after_call σ)) with (fs σ).
  by destruct (os.mkdir_all _ _ _).
Qed.

Lemma main_run σ :
  main σ =
  match fault_of σ with
  | Some err => (Some ("Failed to migrate database: " +:+ err), after_call σ)
  | None =>
      (match (os.MkdirAll uploadDir (after_call σ)).1 with
       | Some err => Some ("Failed to create uploads directory: " +:+ err)
       | None => None
       end, (os.MkdirAll uploadDir (after_call σ)).2)
  end.
Proof.
  unfold main, gorm.AutoMigrate. rewrite bind_run, next_fault_run. cbn [fst snd].
  destruct (fault_of σ); [reflexivity|]. rewrite bind_run.
  by destruct (os.MkdirAll uploadDir (after_call σ)).1.
Qed.

(** What [MkdirAll] does for the upload directory, case by case. *)
Lemma mkdir_all_uploadDir tree :
  os.mkdir_all (String.length uploadDir) uploadDir tree =
  match tree !! uploadDir with
  | Some Directory => (None, tree)
  | Some (File _) => (Some (os.PathError "mkdir" uploadDir os.ENOTDIR), tree)
  | None =>
      match tree !! "/app" with
      | Some Directory => (None, <[uploadDir := Directory]> tree)
      | Some (File _) => (Some (os.PathError "mkdir" "/app" os.ENOTDIR), tree)
      | None =>
          match tree !! "/" with
          | Some Directory =>
              (None, <[uploadDir := Directory]> (<["/app" := Directory]> tree))
          | Some (File _) => (Some (os.PathError "mkdir" "/app" os.ENOTDIR), tree)
          | None => (Some (os.PathError "mkdir" "/app" os.ENOENT), tree)
          end
      end
  end.
Proof.
  assert (Hp1 : os.parent uploadDir = "/app") by reflexivity.
  assert (Hp2 : os.parent "/app" = EmptyString) by reflexivity.
  assert (Hd1 : filepath.Dir uploadDir = "/app") by reflexivity.
  assert (Hd2 : filepath.Dir "/app" = "/") by reflexivity.
  change (String.length uploadDir) with 12%nat.
  cbn [os.mkdir_all].
  destruct (tree !! uploadDir) as [[|?]|] eqn:Hup; [done..|].
  rewrite Hp1, decide_False by done.
  destruct (tree !! "/app") as [[|?]|] eqn:Happ.
  - unfold os.mkdir. by rewrite Hup, Hd1, Happ.
  - done.
  - rewrite Hp2, decide_True by done. unfold os.mkdir at 1.
    rewrite Happ, Hd2.
    destruct (tree !! "/") as [[|?]|] eqn:Hroot; [|done..].
    unfold os.mkdir. rewrite lookup_insert_ne, Hup, Hd1 by done.
    by rewrite lookup_insert_eq.
Qed.

End Startup.

Module StartupExtras.

(** An upload into an upload directory that is there succeeds. *)
Lemma uploadFile_succeeds w r σ file :
  Request_FormFile r "file" = inr file →
  let path := upload_path (clock σ) (Filename file) in
  let res := uploadFile w r σ in
  next_call_ok σ → next_call_ok (after_call σ) →
  fs σ !! uploadDir = Some Directory → fs σ !! path ≠ Some Directory →
  res.1 = json_Encode
            (WriteHeader StatusCreated (Header_Set "Content-Type" "application/json" w))
            (JObj [("file_path", JStr path)]) ∧
  fs res.2 !! path = Some (File (content file)).
Proof.
  intros Hform path res Hok1 Hok2 Hdir Hpath. subst res.
  rewrite uploadFile_run, Hform. cbn zeta. fold path.
  assert (Hcreate : (os.Create path σ).1 = None).
  { apply FileFacts.os_Create_succeeds; [done| |done].
    unfold path. by rewrite FileFacts.upload_path_Dir. }
  rewrite Hcreate, (FileFacts.os_Create_ok path σ Hcreate), os_Copy_to_run.
  change (fault_of (with_fs _ (after_call σ))) with (fault_of (after_call σ)).
  rewrite Hok2. cbn [fs with_fs]. rewrite lookup_insert_eq. cbn [fst snd fs with_fs].
  by rewrite lookup_insert_eq.
Qed.

(** The file system [main] leaves. *)
Lemma fs_main σ :
  fs (main σ).2 = fs σ ∨
  fs (main σ).2 = (os.mkdir_all (String.length uploadDir) uploadDir (fs σ)).2.
Proof.
  rewrite main_run. destruct (fault_of σ); [by left|].
  rewrite os_MkdirAll_run. destruct (fault_of (after_call σ)); [by left|].
  by right.
Qed.

(** X23: the server starts to listen exactly when the upload directory is
    there or can be made.  When neither the migration nor the call of
    [MkdirAll] fails from outside, [main] gets past its two [log.Fatalf]
    exactly when [/app/uploads] is a directory already, or is missing under a
    directory [/app], or both are missing under the root; a regular file at
    [/app/uploads] or [/app] stops the start. *)
Theorem main_listens_iff (σ : World) :
  next_call_ok σ → next_call_ok (after_call σ) →
  (main σ).1 = None ↔ uploads_possible (fs σ).
Proof.
  unfold next_call_ok, uploads_possible. intros Hok1 Hok2.
  rewrite main_run, Hok1, os_MkdirAll_run, Hok2. cbn [fst snd].
  change (fs (after_call σ)) with (fs σ). rewrite mkdir_all_uploadDir.
  destruct (fs σ !! uploadDir) as [[|?]|];
    destruct (fs σ !! "/app") as [[|?]|];
    destruct (fs σ !! "/") as [[|?]|]; cbn [fst snd]; intuition congruence.
Qed.

(** X24: whatever its outcome, the start changes no row of the table and
    keeps every entry of the file system as it is; the only entries it adds
    are the directories [/app] and [/app/uploads]. *)
Theorem main_keeps_what_is_there (σ : World) (p : string) :
  todos (main σ).2 = todos σ ∧
  (fs (main σ).2 !! p = fs σ !! p ∨
   (fs σ !! p = None ∧ fs (main σ).2 !! p = Some Directory ∧
    (p = "/app" ∨ p = uploadDir))).
Proof.
  split.
  { rewrite main_run. destruct (fault_of σ); [done|].
    rewrite os_MkdirAll_run. by destruct (fault_of (after_call σ)). }
  destruct (fs_main σ) as [->| ->]; [by left|].
  rewrite mkdir_all_uploadDir.
  destruct (fs σ !! uploadDir) as [[|?]|] eqn:Hup; [by left..|].
  destruct (fs σ !! "/app") as [[|?]|] eqn:Happ; [|by left|].
  - cbn [snd]. destruct (decide (p = uploadDir)) as [->|Hne].
    + right. by rewrite lookup_insert_eq; auto.
    + left. by rewrite lookup_insert_ne.
  - destruct (fs σ !! "/") as [[|?]|]; [|by left..].
    cbn [snd]. destruct (decide (p = uploadDir)) as [->|Hne].
    { right. by rewrite lookup_insert_eq; auto. }
    rewrite lookup_insert_ne by done.
    destruct (decide (p = "/app")) as [->|Hne'].
    + right. by rewrite lookup_insert_eq; auto.
    + left. by rewrite lookup_insert_ne.
Qed.

(** The upload directory is there when the server listens. *)
Lemma main_made_uploadDir σ :
  (main σ).1 = None → fs (main σ).2 !! uploadDir = Some Directory.
Proof.
  rewrite main_run. destruct (fault_of σ); [done|].
  rewrite os_MkdirAll_run. destruct (fault_of (after_call σ)); [done|].
  cbn [fst snd fs with_fs]. change (fs (after_call σ)) with (fs σ).
  rewrite mkdir_all_uploadDir.
  destruct (fs σ !! uploadDir) as [[|?]|] eqn:Hup; [done..|].
  destruct (fs σ !! "/app") as [[|?]|]; [|done|].
  - intros _. cbn [snd]. by rewrite lookup_insert_eq.
  - destruct (fs σ !! "/") as [[|?]|]; [|done..].
    intros _. cbn [snd]. by rewrite lookup_insert_eq.
Qed.

(** X25: a server that has started takes uploads.  After a start that
    reached the listening state, a [POST /files/upload] with a file, routed
    as the router does, answers [201] with the stored path and the file is
    there with the bytes sent, provided the two file-system calls of the
    upload do not fail and no directory sits at the stored path: the
    directory the upload needs is the one [main] has made. *)
Theorem started_server_takes_uploads (σ : World) (req : Incoming)
    (files : gmap string FormFile) (file : FormFile) :
  (main σ).1 = None →
  Method req = "POST" → URL_Path req = "/files/upload" →
  in_form req = inr files → files !! "file" = Some file →
  let σ' := (main σ).2 in
  let path := upload_path (clock σ') (Filename file) in
  next_call_ok σ' → next_call_ok (after_call σ') →
  fs σ' !! path ≠ Some Directory →
  let res := Router_ServeHTTP new_ResponseWriter req σ' in
  status res.1 = Some StatusCreated ∧
  written res.1 = [Json (JObj [("file_path", JStr path)])] ∧
  fs res.2 !! path = Some (File (content file)).
Proof.
  intros Hmain Hmethod Hpath Hform Hfile σ' path Hok1 Hok2 Hfree res.
  pose proof (main_made_uploadDir σ Hmain) as Hdir. fold σ' in Hdir.
  subst res. clearbody σ'. unfold Router_ServeHTTP. cbn zeta.
  rewrite Hmethod, Hpath.
  change (mux.cleanPath "/files/upload") with "/files/upload".
  rewrite decide_False by (by intros H; apply H).
  change (mux.Match routes "POST" "/files/upload" false)
    with (mux.Matched POST_files_upload ∅).
  cbn [route].
  set (r := {| vars := ∅; body := in_body req; form := in_form req |}).
  assert (Hr : Request_FormFile r "file" = inr file).
  { unfold Request_FormFile, r. cbn [form]. by rewrite Hform, Hfile. }
  destruct (uploadFile_succeeds new_ResponseWriter r σ' file Hr Hok1 Hok2 Hdir Hfree)
    as [-> Hfs].
  done.
Qed.

(** X23 on a machine where the directories are still to be made. *)
Lemma main_listens_iff_witness :
  (main bare_world).1 = None ↔ uploads_possible (fs bare_world).
Proof.
  apply (main_listens_iff bare_world); vm_compute; reflexivity.
Defined.

(** X25 on that machine: the first upload after the start. *)
Lemma started_server_takes_uploads_witness :
  let res := Router_ServeHTTP new_ResponseWriter incoming_upload (main bare_world).2 in
  let path := upload_path (clock bare_world) "a.txt" in
  status res.1 = Some StatusCreated ∧
  written res.1 = [Json (JObj [("file_path", JStr path)])] ∧
  fs res.2 !! path = Some (File [97]).
Proof.
  destruct (started_server_takes_uploads bare_world incoming_upload
              {[ "file" := {| Filename := "a.txt"; content := [97] |} ]}
              {| Filename := "a.txt"; content := [97] |})
    as (Hs & Hw & Hfs).
  - vm_compute. reflexivity.
  - reflexivity.
  - reflexivity.
  - reflexivity.
  - vm_compute. reflexivity.
  - vm_compute. reflexivity.
  - vm_compute. reflexivity.
  - vm_compute. discriminate.
  - split_and!; [exact Hs|exact Hw|exact Hfs].
Defined.

End StartupExtras.
